(** * pentacubes_c3: the wireframe renderer of [main/lvgl_demo_ui.c]

    A shallow embedding of the renderer (pseudo-random generator, edge set,
    face culling, animation state machine, frame drawing) and of its earlier
    version that draws the precomputed edge list without culling, followed
    by the properties of the specification that were checked against it
    and by further properties of the code.

    Conventions.
    - A C [int] is a [Z]; arithmetic on [int] values wraps to 32 bits in two's
      complement ([Int.wrap]), which is what the generator relies on. The
      value of a subscript expression is taken exactly and must itself be an
      [int] ([read]).
    - A C [float] is an IEEE-754 binary32 value: a [spec_float] operated on
      with the Standard Library's [SpecFloat] functions at precision 24 and
      maximal exponent 128 (round to nearest, ties to even), one rounding per
      operation. The one [double] expression of the program uses precision
      53 and exponent 1024.
    - Reading or writing an array outside its bounds, and converting a float
      that does not fit to an integer, have no defined behaviour in C: the
      embedding stops with [Undef] and names the fault.
    - Globals and function-local statics of the C file are the fields of
      [render_state]; a function that changes them returns the new state.
      Calls to the canvas, to the label and to [printf] are recorded as a
      list of [event]s.
    - A [for] loop over [0 .. n-1] is [for_loop n body acc]. *)

From Stdlib Require Import ZArith List Bool Lia String.
From Stdlib Require Import Floats.SpecFloat.
From stdpp Require Import base list list_numbers.

Local Open Scope Z_scope.

(** ** Machine integers *)

Module Int.

Definition min_signed : Z := - 2 ^ 31.
Definition max_signed : Z := 2 ^ 31 - 1.

(** Two's complement reduction of a mathematical integer to an [int]. *)
Definition wrap (z : Z) : Z := (z + 2 ^ 31) mod 2 ^ 32 - 2 ^ 31.

Definition in_range (z : Z) : Prop := min_signed <= z <= max_signed.

Definition add (a b : Z) : Z := wrap (a + b).
Definition sub (a b : Z) : Z := wrap (a - b).
Definition mul (a b : Z) : Z := wrap (a * b).
(** C99 [%]: the remainder has the sign of the dividend. *)
Definition rem (a b : Z) : Z := Z.rem a b.

End Int.

(** ** Pseudo-random sequence generator *)

Definition PENTACUBE_COUNT : Z := 29.

(** [simple_rand]: the function-local static [seed] is threaded explicitly;
    the result is the pair of the returned value and the new seed. *)
Definition simple_rand (seed : Z) : Z * Z :=
  let seed' := Z.land (Int.add (Int.mul seed 1103515245) 12345) 0x7fffffff in
  (seed', seed').

Definition initial_seed : Z := 12345.

Definition random_pentacube (seed : Z) : Z * Z :=
  let '(r, seed') := simple_rand seed in
  (Int.rem r PENTACUBE_COUNT, seed').

(** ** Undefined behaviour

    The arrays of the program are C arrays reached through pointers. An
    access outside the array, or a float-to-integer conversion whose result
    does not fit, is reported as a [fault] and ends the computation. *)

Inductive array_id :=
| ArrPentacubeData | ArrVertices | ArrEdges | ArrFaceVertices
| ArrFaceVertexCounts | ArrScreenCoords | ArrEdgeSet.

Inductive fault :=
| OutOfBounds (a : array_id) (i : Z)
| FloatToInt (x : spec_float).

Inductive exec (A : Type) :=
| Ok (a : A)
| Undef (f : fault).
Arguments Ok {A} a.
Arguments Undef {A} f.

#[global] Instance exec_ret : MRet exec := fun A a => Ok a.
#[global] Instance exec_bind : MBind exec := fun A B f m =>
  match m with
  | Ok a => f a
  | Undef e => Undef e
  end.

(** [read a l i] is the C rvalue [l[i]]; the subscript [i] is the exact
    value of the index expression, which must itself be an [int]. *)
Definition read {A : Type} (a : array_id) (l : list A) (i : Z) : exec A :=
  if (0 <=? i) && (i <=? Int.max_signed) then
    match l !! Z.to_nat i with
    | Some x => Ok x
    | None => Undef (OutOfBounds a i)
    end
  else Undef (OutOfBounds a i).

(** [iterate body idx acc] runs the loop body for the indices of [idx] in
    turn, threading the variables [acc] that the loop updates, and stops at
    the first fault. *)
Fixpoint iterate {S : Type} (body : Z -> S -> exec S) (idx : list Z) (acc : S) : exec S :=
  match idx with
  | [] => Ok acc
  | i :: idx' => s ← body i acc; iterate body idx' s
  end.

(** [for_loop n body acc] is [for (int i = 0; i < n; i++) acc = body(i, acc);]. *)
Definition for_loop {S : Type} (n : Z) (body : Z -> S -> exec S) (acc : S) : exec S :=
  iterate body (seqZ 0 n) acc.

(** ** Floating point *)

Module F32.

Definition t : Type := spec_float.
Definition prec : Z := 24.
Definition emax : Z := 128.

Definition add : t -> t -> t := SFadd prec emax.
Definition sub : t -> t -> t := SFsub prec emax.
Definition mul : t -> t -> t := SFmul prec emax.
Definition div : t -> t -> t := SFdiv prec emax.
Definition opp : t -> t := SFopp.
Definition abs : t -> t := SFabs.

(** The C comparison operators; each is false when an operand is NaN. *)
Definition lt (a b : t) : bool := SFltb a b.
Definition le (a b : t) : bool := SFleb a b.
Definition gt (a b : t) : bool := SFltb b a.
Definition ge (a b : t) : bool := SFleb b a.

Definition is_nan (a : t) : bool :=
  match a with S754_nan => true | _ => false end.

(** Conversion of an [int] to [float]. *)
Definition of_int (n : Z) : t := binary_normalize prec emax n 0 false.

(** The decimal literal [num/den], rounded to the nearest float. *)
Definition lit (num den : Z) : t := div (of_int num) (of_int den).

Definition zero : t := S754_zero false.

(** Truncation toward zero of a finite float. *)
Definition trunc (x : t) : option Z :=
  match x with
  | S754_zero _ => Some 0
  | S754_finite s m e => Some (cond_Zopp s (Z.shiftl (Zpos m) e))
  | S754_infinity _ | S754_nan => None
  end.

(** The cast [(int)x]. *)
Definition to_int (x : t) : exec Z :=
  match trunc x with
  | Some z =>
      if (Int.min_signed <=? z) && (z <=? Int.max_signed) then Ok z
      else Undef (FloatToInt x)
  | None => Undef (FloatToInt x)
  end.

(** The cast [(uint8_t)x]. *)
Definition to_uint8 (x : t) : exec Z :=
  match trunc x with
  | Some z =>
      if (0 <=? z) && (z <=? 255) then Ok z else Undef (FloatToInt x)
  | None => Undef (FloatToInt x)
  end.

End F32.

Module F64.

Definition t : Type := spec_float.
Definition prec : Z := 53.
Definition emax : Z := 1024.

Definition mul : t -> t -> t := SFmul prec emax.
Definition div : t -> t -> t := SFdiv prec emax.

Definition of_int (n : Z) : t := binary_normalize prec emax n 0 false.

(** Widening of a [float]: exact, the mantissa is re-aligned on 53 bits. *)
Definition of_f32 (x : F32.t) : t :=
  match x with
  | S754_finite s m e => binary_normalize prec emax (cond_Zopp s (Zpos m)) e s
  | _ => x
  end.

(** Narrowing to [float]: rounds to nearest, ties to even. *)
Definition to_f32 (x : t) : F32.t :=
  match x with
  | S754_finite s m e => binary_normalize F32.prec F32.emax (cond_Zopp s (Zpos m)) e s
  | _ => x
  end.

(** [M_PI] of <math.h>: the double nearest to pi, 0x400921FB54442D18. *)
Definition M_PI : t := S754_finite false 7074237752028440 (-51).

End F64.

(** The float constants of the program. *)
Definition f_0_6 : F32.t := Eval vm_compute in F32.lit 6 10.
Definition f_0_05 : F32.t := Eval vm_compute in F32.lit 5 100.
Definition f_0_1 : F32.t := Eval vm_compute in F32.lit 1 10.
Definition f_0_9 : F32.t := Eval vm_compute in F32.lit 9 10.
Definition f_1_5 : F32.t := Eval vm_compute in F32.lit 3 2.
Definition f_1 : F32.t := Eval vm_compute in F32.of_int 1.
Definition f_2 : F32.t := Eval vm_compute in F32.of_int 2.
Definition f_15 : F32.t := Eval vm_compute in F32.of_int 15.
Definition f_180 : F32.t := Eval vm_compute in F32.of_int 180.
Definition f_200 : F32.t := Eval vm_compute in F32.of_int 200.

(** ** Constants of [lvgl_demo_ui.c] *)

Definition BASE_SIZE : Z := 8.
Definition CENTER_X : Z := 50.
Definition CENTER_Y : Z := 20.
Definition FRAME_COUNT : Z := 32.
Definition ANIMATION_DURATION : Z := 2000.
Definition PERSPECTIVE_DISTANCE : Z := 800.
Definition MAX_EDGE_SET : Z := 256.

(** ** The mesh table of [pentacubes.h] *)

Record pentacube_data_t := {
  vertices : list F32.t;          (* x,y,z triplets *)
  vertex_count : Z;
  edges : list Z;                 (* vertex index pairs *)
  edge_count : Z;
  face_vertices : list Z;
  face_vertex_counts : list Z;
  face_count : Z;
  name : string
}.

(** ** Visibility and edge set *)

Record edge_t := { v1 : Z; v2 : Z }.

Definition edge_eqb (e : edge_t) (a b : Z) : bool := (v1 e =? a) && (v2 e =? b).

(** [is_face_visible_debug]: the pair of the returned flag and of [*cross_out]. *)
Definition is_face_visible_debug
    (screen_x0 screen_y0 screen_x1 screen_y1 screen_x2 screen_y2 : Z) : bool * Z :=
  let edge1_x := Int.sub screen_x1 screen_x0 in
  let edge1_y := Int.sub screen_y1 screen_y0 in
  let edge2_x := Int.sub screen_x2 screen_x0 in
  let edge2_y := Int.sub screen_y2 screen_y0 in
  let cross := Int.sub (Int.mul edge1_x edge2_y) (Int.mul edge1_y edge2_x) in
  (cross >? 0, cross).

(** The linear scan of [add_edge_to_set]: is [(a, b)] the entry at one of
    the indices [idx], read in that order? The scan returns at the first
    match. *)
Fixpoint scan_edges (edge_set : list edge_t) (a b : Z) (idx : list Z) : exec bool :=
  match idx with
  | [] => Ok false
  | i :: idx' =>
      e ← read ArrEdgeSet edge_set i;
      if edge_eqb e a b then Ok true else scan_edges edge_set a b idx'
  end.

(** [add_edge_to_set]: the result is the returned flag with the array and
    the counter as the call leaves them. The parameters [v1] and [v2] of the
    C function are [a] and [b] here, [v1] and [v2] being the fields of
    [edge_t]. *)
Definition add_edge_to_set (edge_set : list edge_t) (edge_count : Z) (a b : Z)
    : exec (bool * list edge_t * Z) :=
  if edge_count >=? MAX_EDGE_SET then Ok (false, edge_set, edge_count)
  else
    let '(a, b) := if a >? b then (b, a) else (a, b) in
    found ← scan_edges edge_set a b (seqZ 0 edge_count);
    if found : bool then Ok (true, edge_set, edge_count)
    else
      if (0 <=? edge_count) && (edge_count <? Z.of_nat (length edge_set)) then
        Ok (true, <[Z.to_nat edge_count := {| v1 := a; v2 := b |}]> edge_set,
            Int.add edge_count 1)
      else Undef (OutOfBounds ArrEdgeSet edge_count).

(** ** Render frame state: the file-scope and function-scope statics *)

Record render_state := {
  current_frame : Z;
  z_position : F32.t;
  x_offset : F32.t;
  x_direction : F32.t;
  direction_change_counter : Z;
  rotation_axes : Z * Z * Z;
  axis_change_counter : Z;
  current_pentacube : Z;
  next_pentacube : Z;
  morphing_progress : F32.t;
  is_morphing : bool;
  last_logged_pentacube : Z;
  seed : Z;                       (* static of simple_rand *)
  debug_frame_count : Z           (* static of draw_pentacube_frame *)
}.

(** The values of the initialisers. *)
Definition initial_state : render_state := {|
  current_frame := 0;
  z_position := F32.zero;
  x_offset := F32.zero;
  x_direction := f_1;
  direction_change_counter := 0;
  rotation_axes := (1, 0, 0);
  axis_change_counter := 0;
  current_pentacube := 0;
  next_pentacube := 1;
  morphing_progress := F32.zero;
  is_morphing := false;
  last_logged_pentacube := -1;
  seed := initial_seed;
  debug_frame_count := 0
|}.

(** ** Animation and morph state machine

    [update_animation_state] is the sequence of six blocks; each block is a
    function of the state so that the state between two blocks can be named. *)

Definition direction_reversal (st : render_state) : render_state :=
  let counter := Int.add (direction_change_counter st) 1 in
  if counter >? 8 then
    let '(r, seed') := simple_rand (seed st) in
    {| current_frame := current_frame st;
       z_position := z_position st;
       x_offset := x_offset st;
       x_direction :=
         if Int.rem r 3 =? 0 then F32.opp (x_direction st) else x_direction st;
       direction_change_counter := 0;
       rotation_axes := rotation_axes st;
       axis_change_counter := axis_change_counter st;
       current_pentacube := current_pentacube st;
       next_pentacube := next_pentacube st;
       morphing_progress := morphing_progress st;
       is_morphing := is_morphing st;
       last_logged_pentacube := last_logged_pentacube st;
       seed := seed';
       debug_frame_count := debug_frame_count st |}
  else
    {| current_frame := current_frame st;
       z_position := z_position st;
       x_offset := x_offset st;
       x_direction := x_direction st;
       direction_change_counter := counter;
       rotation_axes := rotation_axes st;
       axis_change_counter := axis_change_counter st;
       current_pentacube := current_pentacube st;
       next_pentacube := next_pentacube st;
       morphing_progress := morphing_progress st;
       is_morphing := is_morphing st;
       last_logged_pentacube := last_logged_pentacube st;
       seed := seed st;
       debug_frame_count := debug_frame_count st |}.

(** [x_offset += x_direction * 0.6f], before the bounds are applied. *)
Definition advanced_offset (st : render_state) : F32.t :=
  F32.add (x_offset st) (F32.mul (x_direction st) f_0_6).

Definition set_lateral (x d : F32.t) (st : render_state) : render_state :=
  {| current_frame := current_frame st;
     z_position := z_position st;
     x_offset := x;
     x_direction := d;
     direction_change_counter := direction_change_counter st;
     rotation_axes := rotation_axes st;
     axis_change_counter := axis_change_counter st;
     current_pentacube := current_pentacube st;
     next_pentacube := next_pentacube st;
     morphing_progress := morphing_progress st;
     is_morphing := is_morphing st;
     last_logged_pentacube := last_logged_pentacube st;
     seed := seed st;
     debug_frame_count := debug_frame_count st |}.

Definition lateral_offset (st : render_state) : render_state :=
  let x := advanced_offset st in
  if F32.gt x f_15 then set_lateral f_15 (F32.opp f_1) st
  else if F32.lt x (F32.opp f_15) then set_lateral (F32.opp f_15) f_1 st
  else set_lateral x (x_direction st) st.

Definition depth (st : render_state) : render_state :=
  let norm_x := F32.div (F32.abs (x_offset st)) f_15 in
  let distance_from_center := F32.mul norm_x norm_x in
  {| current_frame := current_frame st;
     z_position := F32.mul distance_from_center f_200;
     x_offset := x_offset st;
     x_direction := x_direction st;
     direction_change_counter := direction_change_counter st;
     rotation_axes := rotation_axes st;
     axis_change_counter := axis_change_counter st;
     current_pentacube := current_pentacube st;
     next_pentacube := next_pentacube st;
     morphing_progress := morphing_progress st;
     is_morphing := is_morphing st;
     last_logged_pentacube := last_logged_pentacube st;
     seed := seed st;
     debug_frame_count := debug_frame_count st |}.

(** The guard [z_position > 180.0f && !is_morphing]. *)
Definition morph_starts (st : render_state) : bool :=
  F32.gt (z_position st) f_180 && negb (is_morphing st).

Definition morph_trigger (st : render_state) : render_state :=
  if morph_starts st then
    let '(r, seed') := random_pentacube (seed st) in
    {| current_frame := current_frame st;
       z_position := z_position st;
       x_offset := x_offset st;
       x_direction := x_direction st;
       direction_change_counter := direction_change_counter st;
       rotation_axes := rotation_axes st;
       axis_change_counter := axis_change_counter st;
       current_pentacube := next_pentacube st;
       next_pentacube := r;
       morphing_progress := F32.zero;
       is_morphing := true;
       last_logged_pentacube := -1;
       seed := seed';
       debug_frame_count := debug_frame_count st |}
  else st.

Definition set_morph (p : F32.t) (m : bool) (st : render_state) : render_state :=
  {| current_frame := current_frame st;
     z_position := z_position st;
     x_offset := x_offset st;
     x_direction := x_direction st;
     direction_change_counter := direction_change_counter st;
     rotation_axes := rotation_axes st;
     axis_change_counter := axis_change_counter st;
     current_pentacube := current_pentacube st;
     next_pentacube := next_pentacube st;
     morphing_progress := p;
     is_morphing := m;
     last_logged_pentacube := last_logged_pentacube st;
     seed := seed st;
     debug_frame_count := debug_frame_count st |}.

Definition morph_progress (st : render_state) : render_state :=
  if is_morphing st then
    let p := F32.add (morphing_progress st) f_0_05 in
    if F32.ge p f_1 then set_morph f_1 false st else set_morph p true st
  else st.

Definition axis_reselection (st : render_state) : render_state :=
  let counter := Int.add (axis_change_counter st) 1 in
  if counter >? 16 then
    let '(r0, s0) := simple_rand (seed st) in
    let '(r1, s1) := simple_rand s0 in
    let '(r2, s2) := simple_rand s1 in
    {| current_frame := current_frame st;
       z_position := z_position st;
       x_offset := x_offset st;
       x_direction := x_direction st;
       direction_change_counter := direction_change_counter st;
       rotation_axes := (Int.rem r0 2, Int.rem r1 2, Int.rem r2 2);
       axis_change_counter := 0;
       current_pentacube := current_pentacube st;
       next_pentacube := next_pentacube st;
       morphing_progress := morphing_progress st;
       is_morphing := is_morphing st;
       last_logged_pentacube := last_logged_pentacube st;
       seed := s2;
       debug_frame_count := debug_frame_count st |}
  else
    {| current_frame := current_frame st;
       z_position := z_position st;
       x_offset := x_offset st;
       x_direction := x_direction st;
       direction_change_counter := direction_change_counter st;
       rotation_axes := rotation_axes st;
       axis_change_counter := counter;
       current_pentacube := current_pentacube st;
       next_pentacube := next_pentacube st;
       morphing_progress := morphing_progress st;
       is_morphing := is_morphing st;
       last_logged_pentacube := last_logged_pentacube st;
       seed := seed st;
       debug_frame_count := debug_frame_count st |}.

Definition update_animation_state (st : render_state) : render_state :=
  axis_reselection
    (morph_progress
       (morph_trigger
          (depth
             (lateral_offset
                (direction_reversal st))))).

(** ** Canvas, label and console output

    One constructor per call that a frame makes to the canvas, to the label
    and to [printf], with the values passed. A line is black and of width 1;
    its end points are given as the [int]s of the initialiser of
    [lv_point_t points[2]]. The calls that build the widgets and the timer in
    [example_lvgl_demo_ui] leave the render state alone and are not
    recorded. *)

Inductive event :=
| CanvasFillBg (opa : Z)
| LabelSetText (text : string)
| CanvasDrawLine (x1 y1 x2 y2 : Z) (opa : Z)
| PrintBanner
| PrintDebugHeader (shape : string)
| PrintFace (face_idx face_vert_count cross : Z) (visible : bool) (v0 v1 v2 : Z)
| PrintResult (visible_faces total_faces_checked visible_edge_count : Z)
| PrintPentacube (shape : string) (edge_count lines_drawn visible_faces total_faces_checked : Z)
| PrintInvalidVertex (edge_idx v1 v2 max : Z) (shape : string)
| PrintPentacubeEdges (shape : string) (edge_count lines_drawn : Z).

Definition is_line (e : event) : bool :=
  match e with CanvasDrawLine _ _ _ _ _ => true | _ => false end.

Definition line_opa (e : event) : option Z :=
  match e with CanvasDrawLine _ _ _ _ opa => Some opa | _ => None end.

Definition set_frame_statics (logged dbg : Z) (st : render_state) : render_state :=
  {| current_frame := current_frame st;
     z_position := z_position st;
     x_offset := x_offset st;
     x_direction := x_direction st;
     direction_change_counter := direction_change_counter st;
     rotation_axes := rotation_axes st;
     axis_change_counter := axis_change_counter st;
     current_pentacube := current_pentacube st;
     next_pentacube := next_pentacube st;
     morphing_progress := morphing_progress st;
     is_morphing := is_morphing st;
     last_logged_pentacube := logged;
     seed := seed st;
     debug_frame_count := dbg |}.

Definition set_current_frame (f : Z) (st : render_state) : render_state :=
  {| current_frame := f;
     z_position := z_position st;
     x_offset := x_offset st;
     x_direction := x_direction st;
     direction_change_counter := direction_change_counter st;
     rotation_axes := rotation_axes st;
     axis_change_counter := axis_change_counter st;
     current_pentacube := current_pentacube st;
     next_pentacube := next_pentacube st;
     morphing_progress := morphing_progress st;
     is_morphing := is_morphing st;
     last_logged_pentacube := last_logged_pentacube st;
     seed := seed st;
     debug_frame_count := debug_frame_count st |}.

Definition set_startup (cur next s : Z) (x : F32.t) (st : render_state) : render_state :=
  {| current_frame := current_frame st;
     z_position := z_position st;
     x_offset := x;
     x_direction := x_direction st;
     direction_change_counter := direction_change_counter st;
     rotation_axes := rotation_axes st;
     axis_change_counter := axis_change_counter st;
     current_pentacube := cur;
     next_pentacube := next;
     morphing_progress := morphing_progress st;
     is_morphing := is_morphing st;
     last_logged_pentacube := last_logged_pentacube st;
     seed := s;
     debug_frame_count := debug_frame_count st |}.

(** The accumulator of the face loop of [draw_pentacube_frame]. *)
Record face_acc := {
  face_vert_idx : Z;
  visible_edges : list edge_t;
  visible_edge_count : Z;
  visible_faces : Z;
  total_faces_checked : Z;
  face_log : list event
}.

(** ** Transform engine and frame renderer

    What the program takes from outside its own sources is a parameter:
    [cosf] and [sinf] of the C library, LVGL's constant [LV_OPA_COVER], the
    generated mesh table [pentacube_data], and the unspecified contents
    [fresh_edge_set] of the block that [lv_mem_alloc] returns for the edge
    set. Allocation is taken to succeed. *)

Section Transform.

Variables cosf sinf : F32.t -> F32.t.

Definition rotate_point (x y z angle_x angle_y angle_z : F32.t)
    : F32.t * F32.t * F32.t :=
  let cos_x := cosf angle_x in
  let sin_x := sinf angle_x in
  let cos_y := cosf angle_y in
  let sin_y := sinf angle_y in
  let cos_z := cosf angle_z in
  let sin_z := sinf angle_z in
  let temp_y := F32.sub (F32.mul y cos_x) (F32.mul z sin_x) in
  let temp_z := F32.add (F32.mul y sin_x) (F32.mul z cos_x) in
  let y := temp_y in
  let z := temp_z in
  let temp_x := F32.add (F32.mul x cos_y) (F32.mul z sin_y) in
  let z := F32.add (F32.mul (F32.opp x) sin_y) (F32.mul z cos_y) in
  let x := temp_x in
  let temp_x := F32.sub (F32.mul x cos_z) (F32.mul y sin_z) in
  let temp_y := F32.add (F32.mul x sin_z) (F32.mul y cos_z) in
  (temp_x, temp_y, z).

Definition project_point (st : render_state) (x y z : F32.t) : exec (Z * Z) :=
  let perspective_z :=
    F32.add (F32.add z (z_position st)) (F32.of_int PERSPECTIVE_DISTANCE) in
  let perspective_z :=
    if F32.le perspective_z f_0_1 then f_0_1 else perspective_z in
  let scale := F32.div (F32.of_int PERSPECTIVE_DISTANCE) perspective_z in
  sx ← F32.to_int
         (F32.add (x_offset st) (F32.mul (F32.mul x (F32.of_int BASE_SIZE)) scale));
  sy ← F32.to_int (F32.mul (F32.mul y (F32.of_int BASE_SIZE)) scale);
  Ok (Int.add CENTER_X sx, Int.add CENTER_Y sy).

(** [angle], [angle_x], [angle_y], [angle_z]; the product with [M_PI] and
    the division by [FRAME_COUNT] are evaluated in [double]. *)
Definition frame_angle (st : render_state) : F32.t :=
  F64.to_f32
    (F64.div
       (F64.mul (F64.of_f32 (F32.mul (F32.of_int (current_frame st)) f_2)) F64.M_PI)
       (F64.of_int FRAME_COUNT)).

Definition axis_angles (st : render_state) : F32.t * F32.t * F32.t :=
  let angle := frame_angle st in
  let '(a0, a1, a2) := rotation_axes st in
  (F32.mul angle (F32.of_int a0),
   F32.mul angle (F32.of_int a1),
   F32.mul angle (F32.of_int a2)).

(** The vertex [verts[i]], centred on the mesh: each coordinate minus 1.5. *)
Definition centred_vertex (verts : list F32.t) (i : Z) : exec (F32.t * F32.t * F32.t) :=
  x ← read ArrVertices verts (i * 3 + 0);
  y ← read ArrVertices verts (i * 3 + 1);
  z ← read ArrVertices verts (i * 3 + 2);
  Ok (F32.sub x f_1_5, F32.sub y f_1_5, F32.sub z f_1_5).

(** Body of the vertex loop: [rotated_verts] and [screen_coords] are
    filled from index 0 upwards, which is appending. *)
Definition transform_vertex (st : render_state) (verts : list F32.t)
    (angles : F32.t * F32.t * F32.t) (i : Z) (acc : list F32.t * list Z)
    : exec (list F32.t * list Z) :=
  let '(rotated_verts, screen_coords) := acc in
  let '(angle_x, angle_y, angle_z) := angles in
  '(vx, vy, vz) ← centred_vertex verts i;
  let '(vx, vy, vz) := rotate_point vx vy vz angle_x angle_y angle_z in
  '(sx, sy) ← project_point st vx vy vz;
  Ok (rotated_verts ++ [vx; vy; vz], screen_coords ++ [sx; sy]).

End Transform.

(** [get_pentacube_center_x]. *)
Definition get_pentacube_center_x (pentacube_data : list pentacube_data_t)
    (pentacube_idx : Z) : exec F32.t :=
  p ← read ArrPentacubeData pentacube_data pentacube_idx;
  sum_x ←
    for_loop (vertex_count p)
      (fun i sum_x => x ← read ArrVertices (vertices p) (i * 3 + 0); Ok (F32.add sum_x x))
      F32.zero;
  Ok (F32.div sum_x (F32.of_int (vertex_count p))).

(** The assignments of [example_lvgl_demo_ui] to the render state, up to
    the first call of [draw_pentacube_frame]. *)
Definition startup_state (pentacube_data : list pentacube_data_t)
    (st : render_state) : exec render_state :=
  let '(cur, s1) := random_pentacube (seed st) in
  let '(next, s2) := random_pentacube s1 in
  center_x ← get_pentacube_center_x pentacube_data cur;
  Ok (set_startup cur next s2
        (F32.mul (F32.opp center_x) (F32.of_int BASE_SIZE)) st).

(** *** The renderer of [main/lvgl_demo_ui.c], with face culling *)

Module Culled.

Section Frame.

Variables cosf sinf : F32.t -> F32.t.
Variable LV_OPA_COVER : Z.
Variable pentacube_data : list pentacube_data_t.
Variable fresh_edge_set : list edge_t.

(** Body of the loop over the vertices of a visible face. *)
Definition add_face_edge (p : pentacube_data_t) (face_vert_idx face_vert_count : Z)
    (i : Z) (acc : list edge_t * Z) : exec (list edge_t * Z) :=
  let '(edge_set, count) := acc in
  va ← read ArrFaceVertices (face_vertices p) (face_vert_idx + i);
  vb ← read ArrFaceVertices (face_vertices p)
         (face_vert_idx + Int.rem (i + 1) face_vert_count);
  '(_, edge_set', count') ← add_edge_to_set edge_set count va vb;
  Ok (edge_set', count').

(** The cross product that the face loop computes for face [face_idx]. *)
Definition face_cross (p : pentacube_data_t) (screen_coords : list Z)
    (face_vert_idx : Z) : exec (bool * Z * (Z * Z * Z)) :=
  v0_idx ← read ArrFaceVertices (face_vertices p) face_vert_idx;
  v1_idx ← read ArrFaceVertices (face_vertices p) (face_vert_idx + 1);
  v2_idx ← read ArrFaceVertices (face_vertices p) (face_vert_idx + 2);
  sx0 ← read ArrScreenCoords screen_coords (v0_idx * 2);
  sy0 ← read ArrScreenCoords screen_coords (v0_idx * 2 + 1);
  sx1 ← read ArrScreenCoords screen_coords (v1_idx * 2);
  sy1 ← read ArrScreenCoords screen_coords (v1_idx * 2 + 1);
  sx2 ← read ArrScreenCoords screen_coords (v2_idx * 2);
  sy2 ← read ArrScreenCoords screen_coords (v2_idx * 2 + 1);
  let '(visible, cross) := is_face_visible_debug sx0 sy0 sx1 sy1 sx2 sy2 in
  Ok (visible, cross, (v0_idx, v1_idx, v2_idx)).

(** Body of the face loop. *)
Definition process_face (p : pentacube_data_t) (screen_coords : list Z)
    (should_debug : bool) (face_idx : Z) (acc : face_acc) : exec face_acc :=
  face_vert_count ← read ArrFaceVertexCounts (face_vertex_counts p) face_idx;
  '(visible, cross, (v0_idx, v1_idx, v2_idx)) ←
    face_cross p screen_coords (face_vert_idx acc);
  let log :=
    if should_debug
    then [PrintFace face_idx face_vert_count cross visible v0_idx v1_idx v2_idx]
    else [] in
  '(edge_set, count) ←
    (if visible : bool
     then for_loop face_vert_count
            (add_face_edge p (face_vert_idx acc) face_vert_count)
            (visible_edges acc, visible_edge_count acc)
     else Ok (visible_edges acc, visible_edge_count acc));
  Ok {| face_vert_idx := Int.add (face_vert_idx acc) face_vert_count;
        visible_edges := edge_set;
        visible_edge_count := count;
        visible_faces :=
          if visible then Int.add (visible_faces acc) 1 else visible_faces acc;
        total_faces_checked := Int.add (total_faces_checked acc) 1;
        face_log := face_log acc ++ log |}.

(** Body of the loop that draws the visible edge set. *)
Definition draw_edge (screen_coords : list Z) (edge_set : list edge_t)
    (opacity : Z) (i : Z) (acc : list event * Z) : exec (list event * Z) :=
  let '(drawn, lines_drawn) := acc in
  e ← read ArrEdgeSet edge_set i;
  x1 ← read ArrScreenCoords screen_coords (v1 e * 2);
  y1 ← read ArrScreenCoords screen_coords (v1 e * 2 + 1);
  x2 ← read ArrScreenCoords screen_coords (v2 e * 2);
  y2 ← read ArrScreenCoords screen_coords (v2 e * 2 + 1);
  Ok (drawn ++ [CanvasDrawLine x1 y1 x2 y2 opacity], Int.add lines_drawn 1).

(** [lv_opa_t opacity = (lv_opa_t)(LV_OPA_COVER * morphing_progress)]. *)
Definition frame_opacity (st : render_state) : exec Z :=
  F32.to_uint8 (F32.mul (F32.of_int LV_OPA_COVER) (morphing_progress st)).

Definition draw_pentacube_frame (st : render_state)
    : exec (render_state * list event) :=
  let st := update_animation_state st in
  let angles := axis_angles st in
  pentacube ← read ArrPentacubeData pentacube_data (current_pentacube st);
  opacity ← frame_opacity st;
  '(rotated_verts, screen_coords) ←
    for_loop (vertex_count pentacube)
      (transform_vertex cosf sinf st (vertices pentacube) angles) ([], []);
  let should_debug :=
    (Int.rem (debug_frame_count st) 32 =? 0)
    && F32.gt (morphing_progress st) f_0_9 in
  let debug_frame_count' := Int.add (debug_frame_count st) 1 in
  faces ←
    for_loop (face_count pentacube)
      (process_face pentacube screen_coords should_debug)
      {| face_vert_idx := 0;
         visible_edges := fresh_edge_set;
         visible_edge_count := 0;
         visible_faces := 0;
         total_faces_checked := 0;
         face_log := [] |};
  '(drawn, lines_drawn) ←
    for_loop (visible_edge_count faces)
      (draw_edge screen_coords (visible_edges faces) opacity) ([], 0);
  let report :=
    F32.gt (morphing_progress st) f_0_9
    && negb (current_pentacube st =? last_logged_pentacube st) in
  Ok (set_frame_statics
        (if report then current_pentacube st else last_logged_pentacube st)
        debug_frame_count' st,
      [CanvasFillBg LV_OPA_COVER; LabelSetText (name pentacube)]
      ++ (if should_debug then [PrintDebugHeader (name pentacube)] else [])
      ++ face_log faces
      ++ (if should_debug
          then [PrintResult (visible_faces faces) (total_faces_checked faces)
                  (visible_edge_count faces)]
          else [])
      ++ drawn
      ++ (if report
          then [PrintPentacube (name pentacube) (edge_count pentacube)
                  lines_drawn (visible_faces faces) (total_faces_checked faces)]
          else [])).

Definition animation_timer_cb (st : render_state)
    : exec (render_state * list event) :=
  '(st', out) ← draw_pentacube_frame st;
  Ok (set_current_frame (Int.rem (Int.add (current_frame st') 1) FRAME_COUNT) st',
      out).

Definition example_lvgl_demo_ui (st : render_state)
    : exec (render_state * list event) :=
  st1 ← startup_state pentacube_data st;
  '(st2, out) ← draw_pentacube_frame st1;
  Ok (st2, LabelSetText "" :: PrintBanner :: out).

(** [n] expiries of the animation timer in a row. *)
Fixpoint run_ticks (n : nat) (st : render_state) : exec (render_state * list event) :=
  match n with
  | O => Ok (st, [])
  | S n' =>
      '(st1, out1) ← animation_timer_cb st;
      '(st2, out2) ← run_ticks n' st1;
      Ok (st2, out1 ++ out2)
  end.

End Frame.

End Culled.

(** *** The earlier renderer, which draws the precomputed edge list *)

Module Fallback.

Section Frame.

Variables cosf sinf : F32.t -> F32.t.
Variable LV_OPA_COVER : Z.
Variable pentacube_data : list pentacube_data_t.

(** The guard of the bounds check on an edge. *)
Definition invalid_vertex_index (v1_idx v2_idx vertex_count : Z) : bool :=
  (v1_idx >=? vertex_count) || (v2_idx >=? vertex_count).

(** Body of the edge loop. *)
Definition draw_edge (st : render_state) (pentacube : pentacube_data_t)
    (angles : F32.t * F32.t * F32.t) (opacity : Z)
    (edge_idx : Z) (acc : list event * Z) : exec (list event * Z) :=
  let '(out, lines_drawn) := acc in
  let '(angle_x, angle_y, angle_z) := angles in
  v1_idx ← read ArrEdges (edges pentacube) (edge_idx * 2);
  v2_idx ← read ArrEdges (edges pentacube) (edge_idx * 2 + 1);
  if invalid_vertex_index v1_idx v2_idx (vertex_count pentacube) then
    Ok (out ++ [PrintInvalidVertex edge_idx v1_idx v2_idx
                  (vertex_count pentacube) (name pentacube)],
        lines_drawn)
  else
    '(v1_x, v1_y, v1_z) ← centred_vertex (vertices pentacube) v1_idx;
    '(v2_x, v2_y, v2_z) ← centred_vertex (vertices pentacube) v2_idx;
    let '(v1_x, v1_y, v1_z) :=
      rotate_point cosf sinf v1_x v1_y v1_z angle_x angle_y angle_z in
    let '(v2_x, v2_y, v2_z) :=
      rotate_point cosf sinf v2_x v2_y v2_z angle_x angle_y angle_z in
    '(x1, y1) ← project_point st v1_x v1_y v1_z;
    '(x2, y2) ← project_point st v2_x v2_y v2_z;
    Ok (out ++ [CanvasDrawLine x1 y1 x2 y2 opacity], Int.add lines_drawn 1).

(** The screen position of vertex [v]: centred, rotated, projected. *)
Definition vertex_screen (st : render_state) (pentacube : pentacube_data_t)
    (angles : F32.t * F32.t * F32.t) (v : Z) : exec (Z * Z) :=
  let '(angle_x, angle_y, angle_z) := angles in
  '(x, y, z) ← centred_vertex (vertices pentacube) v;
  let '(x, y, z) := rotate_point cosf sinf x y z angle_x angle_y angle_z in
  project_point st x y z.

(** Edge [edge_idx] of the list passes the bounds check. *)
Definition edge_passes (pentacube : pentacube_data_t) (edge_idx : Z) : bool :=
  negb (invalid_vertex_index
          (edges pentacube !!! Z.to_nat (edge_idx * 2))
          (edges pentacube !!! Z.to_nat (edge_idx * 2 + 1))
          (vertex_count pentacube)).

(** What the edge loop is expected to emit for edge [edge_idx] alone: one
    report for an edge with an index at or above the vertex count, one line
    between the screen positions of its ends otherwise. *)
Definition edge_output (st : render_state) (pentacube : pentacube_data_t)
    (angles : F32.t * F32.t * F32.t) (opacity : Z) (edge_idx : Z) : list event :=
  let v1_idx := edges pentacube !!! Z.to_nat (edge_idx * 2) in
  let v2_idx := edges pentacube !!! Z.to_nat (edge_idx * 2 + 1) in
  if invalid_vertex_index v1_idx v2_idx (vertex_count pentacube)
  then [PrintInvalidVertex edge_idx v1_idx v2_idx
          (vertex_count pentacube) (name pentacube)]
  else
    match vertex_screen st pentacube angles v1_idx,
          vertex_screen st pentacube angles v2_idx with
    | Ok (x1, y1), Ok (x2, y2) => [CanvasDrawLine x1 y1 x2 y2 opacity]
    | _, _ => []
    end.

Definition frame_opacity (st : render_state) : exec Z :=
  F32.to_uint8 (F32.mul (F32.of_int LV_OPA_COVER) (morphing_progress st)).

Definition draw_pentacube_frame (st : render_state)
    : exec (render_state * list event) :=
  let st := update_animation_state st in
  let angles := axis_angles st in
  pentacube ← read ArrPentacubeData pentacube_data (current_pentacube st);
  opacity ← frame_opacity st;
  '(out, lines_drawn) ←
    for_loop (edge_count pentacube) (draw_edge st pentacube angles opacity) ([], 0);
  let report :=
    F32.gt (morphing_progress st) f_0_9
    && negb (current_pentacube st =? last_logged_pentacube st) in
  Ok (set_frame_statics
        (if report then current_pentacube st else last_logged_pentacube st)
        (debug_frame_count st) st,
      [CanvasFillBg LV_OPA_COVER; LabelSetText (name pentacube)]
      ++ out
      ++ (if report
          then [PrintPentacubeEdges (name pentacube) (edge_count pentacube)
                  lines_drawn]
          else [])).

Definition animation_timer_cb (st : render_state)
    : exec (render_state * list event) :=
  '(st', out) ← draw_pentacube_frame st;
  Ok (set_current_frame (Int.rem (Int.add (current_frame st') 1) FRAME_COUNT) st',
      out).

Definition example_lvgl_demo_ui (st : render_state)
    : exec (render_state * list event) :=
  st1 ← startup_state pentacube_data st;
  '(st2, out) ← draw_pentacube_frame st1;
  Ok (st2, LabelSetText "" :: PrintBanner :: out).

End Frame.

End Fallback.

(** ** Notions used to state the properties *)

(** A sequence of calls of [add_edge_to_set] on the same set. *)
Fixpoint add_edges (edge_set : list edge_t) (count : Z) (pairs : list (Z * Z))
    : exec (list edge_t * Z) :=
  match pairs with
  | [] => Ok (edge_set, count)
  | (a, b) :: pairs' =>
      '(_, edge_set', count') ← add_edge_to_set edge_set count a b;
      add_edges edge_set' count' pairs'
  end.

(** The pair as [add_edge_to_set] stores it: smaller index first. *)
Definition canonical (a b : Z) : Z * Z := if a >? b then (b, a) else (a, b).

(** The array has [MAX_EDGE_SET] cells and the counter is within them. *)
Definition set_ok (edge_set : list edge_t) (count : Z) : Prop :=
  Z.of_nat (length edge_set) = MAX_EDGE_SET /\ 0 <= count <= MAX_EDGE_SET.

(** Number of entries of the set (the first [count] cells) that hold [(a, b)]. *)
Definition occurrences (edge_set : list edge_t) (count : Z) (a b : Z) : nat :=
  length (filter (fun e => edge_eqb e a b = true) (take (Z.to_nat count) edge_set)).

(** The cells of the set that are in use. *)
Definition entries (edge_set : list edge_t) (count : Z) : list (Z * Z) :=
  (fun e => (v1 e, v2 e)) <$> take (Z.to_nat count) edge_set.

(** What [add_edge_to_set] does to the list of the entries in use. *)
Definition add_entry (l : list (Z * Z)) (a b : Z) : list (Z * Z) :=
  if Z.of_nat (length l) >=? MAX_EDGE_SET then l
  else if bool_decide (canonical a b ∈ l) then l
  else l ++ [canonical a b].

(** The mathematical cross product (v1 - v0) x (v2 - v0) of three screen points. *)
Definition cross_product (x0 y0 x1 y1 x2 y2 : Z) : Z :=
  (x1 - x0) * (y2 - y0) - (y1 - y0) * (x2 - x0).

(** Coordinates for which the [int] arithmetic of the cross product is exact. *)
Definition small_coord (c : Z) : Prop := -16383 <= c <= 16383.

(** The guard of the morph trigger as the tick that starts in [st] evaluates it. *)
Definition tick_starts_morph (st : render_state) : bool :=
  morph_starts (depth (lateral_offset (direction_reversal st))).

(** Progress after [k] increments of 0.05f from 0.0f. *)
Fixpoint progress_after (k : nat) : F32.t :=
  match k with
  | O => F32.zero
  | S k' => F32.add (progress_after k') f_0_05
  end.

(** No morph is under way and none has completed. *)
Definition before_first_morph (st : render_state) : Prop :=
  is_morphing st = false /\ morphing_progress st = F32.zero.

(** While a morph is under way, the progress is one of the 19 values that
    0.05f, added repeatedly to 0.0f, takes below 1.0f. *)
Definition morph_invariant (st : render_state) : Prop :=
  is_morphing st = true ->
  exists k : nat, (1 <= k <= 19)%nat /\ morphing_progress st = progress_after k.

(** Every line of the output is drawn with opacity [opa]. *)
Definition lines_have_opa (opa : Z) (out : list event) : Prop :=
  Forall (fun e => is_line e = true -> line_opa e = Some opa) out.

(** The arrays of a mesh have the sizes that its counts announce, and the
    index expressions of the loops over them are [int]s. *)
Definition mesh_ok (p : pentacube_data_t) : Prop :=
  0 <= vertex_count p
  /\ Z.of_nat (length (vertices p)) = 3 * vertex_count p
  /\ 0 <= edge_count p
  /\ Z.of_nat (length (edges p)) = 2 * edge_count p
  /\ 3 * vertex_count p <= Int.max_signed
  /\ 2 * edge_count p <= Int.max_signed.

(** The lateral direction is one of the two unit signs. *)
Definition unit_direction (d : F32.t) : Prop := d = f_1 \/ d = F32.opp f_1.

Definition within_bounds (x : F32.t) : Prop :=
  F32.le (F32.opp f_15) x = true /\ F32.le x f_15 = true.

(** The states of a run: the initial state, closed under the assignments of
    startup and under what a frame and the timer callback do to the state
    (a tick of the state machine, the two statics of the frame, the frame
    counter). *)
Inductive reachable : render_state -> Prop :=
| reachable_initial : reachable initial_state
| reachable_startup pentacube_data st st1 :
    reachable st -> startup_state pentacube_data st = Ok st1 -> reachable st1
| reachable_update st :
    reachable st -> reachable (update_animation_state st)
| reachable_statics st logged dbg :
    reachable st -> reachable (set_frame_statics logged dbg st)
| reachable_frame_counter st f :
    reachable st -> reachable (set_current_frame f st).

(** ** Meshes and states used as concrete inputs *)

(** Two triangles on the same three vertices, with opposite windings. *)
Definition wedge : pentacube_data_t := {|
  vertices := [];
  vertex_count := 3;
  edges := [];
  edge_count := 0;
  face_vertices := [0; 1; 2; 0; 2; 1];
  face_vertex_counts := [3; 3];
  face_count := 2;
  name := "wedge"
|}.

(** A freshly allocated edge set, here zero-filled. *)
Definition zeroed_edge_set : list edge_t := replicate 256 {| v1 := 0; v2 := 0 |}.

Definition empty_faces : face_acc := {|
  face_vert_idx := 0;
  visible_edges := zeroed_edge_set;
  visible_edge_count := 0;
  visible_faces := 0;
  total_faces_checked := 0;
  face_log := []
|}.

(** The straight pentacube, five unit cubes along x, on eight vertices. *)
Definition bar : pentacube_data_t := {|
  vertices :=
    F32.of_int <$> [0; 0; 0;  5; 0; 0;  5; 1; 0;  0; 1; 0;
                    0; 0; 1;  5; 0; 1;  5; 1; 1;  0; 1; 1];
  vertex_count := 8;
  edges := [0; 1; 1; 2; 2; 3; 3; 0; 4; 5; 5; 6; 6; 7; 7; 4; 0; 4; 1; 5; 2; 6; 3; 7];
  edge_count := 12;
  face_vertices :=
    [0; 3; 2; 1;  4; 5; 6; 7;  0; 1; 5; 4;  2; 3; 7; 6;  1; 2; 6; 5;  0; 4; 7; 3];
  face_vertex_counts := [4; 4; 4; 4; 4; 4];
  face_count := 6;
  name := "I"
|}.

(** The unit cube. *)
Definition cube : pentacube_data_t := {|
  vertices :=
    F32.of_int <$> [0; 0; 0;  1; 0; 0;  1; 1; 0;  0; 1; 0;
                    0; 0; 1;  1; 0; 1;  1; 1; 1;  0; 1; 1];
  vertex_count := 8;
  edges := [0; 1; 1; 2; 2; 3; 3; 0; 4; 5; 5; 6; 6; 7; 7; 4; 0; 4; 1; 5; 2; 6; 3; 7];
  edge_count := 12;
  face_vertices :=
    [0; 3; 2; 1;  4; 5; 6; 7;  0; 1; 5; 4;  2; 3; 7; 6;  1; 2; 6; 5;  0; 4; 7; 3];
  face_vertex_counts := [4; 4; 4; 4; 4; 4];
  face_count := 6;
  name := "cube"
|}.

(** The cube with a three-entry edge list whose middle edge names index 8,
    the vertex count. *)
Definition cube_off_by_one : pentacube_data_t := {|
  vertices := vertices cube;
  vertex_count := 8;
  edges := [0; 1;  1; 8;  1; 2];
  edge_count := 3;
  face_vertices := face_vertices cube;
  face_vertex_counts := face_vertex_counts cube;
  face_count := 6;
  name := "cube"
|}.

(** The cube with an edge list whose first edge names index -1. *)
Definition cube_negative_index : pentacube_data_t := {|
  vertices := vertices cube;
  vertex_count := 8;
  edges := [-1; 0;  1; 2];
  edge_count := 2;
  face_vertices := face_vertices cube;
  face_vertex_counts := face_vertex_counts cube;
  face_count := 6;
  name := "cube"
|}.

(** The state that startup establishes, before its first frame, on a mesh
    table that holds the straight pentacube only. *)
Definition started_on_bar : render_state :=
  match startup_state (replicate 29 bar) initial_state with
  | Ok st => st
  | Undef _ => initial_state
  end.

(** Cosine and sine at angle 0, the only angle of the frames drawn while
    [current_frame] is 0. *)
Definition cos_at_0 (a : F32.t) : F32.t := f_1.
Definition sin_at_0 (a : F32.t) : F32.t := F32.zero.

(** ** Notions used to state further properties *)

(** The rotation flags that three successive draws modulo 2 can give. *)
Definition alternating_axes (a : Z * Z * Z) : Prop :=
  a = (0, 1, 0) \/ a = (1, 0, 1).

(** The rotation flags of a run: the initialiser, or a reselection. *)
Definition run_axes (a : Z * Z * Z) : Prop :=
  a = (1, 0, 0) \/ alternating_axes a.

(** An index into the mesh table [pentacube_data[PENTACUBE_COUNT]]. *)
Definition mesh_index (i : Z) : Prop := 0 <= i < PENTACUBE_COUNT.

(** A value that [simple_rand] can leave in its static [seed]. *)
Definition seed_range (s : Z) : Prop := 0 <= s < 2 ^ 31.

(** What a run keeps true of the generator's seed, of the two mesh indices
    and of the rotation axes. *)
Definition run_invariant (st : render_state) : Prop :=
  seed_range (seed st)
  /\ mesh_index (current_pentacube st)
  /\ mesh_index (next_pentacube st)
  /\ 0 <= axis_change_counter st <= 16
  /\ run_axes (rotation_axes st).

(** While no morph is under way the progress is the initial 0.0 or the 1.0
    of a completed morph. *)
Definition idle_progress (st : render_state) : Prop :=
  is_morphing st = false ->
  morphing_progress st = F32.zero \/ morphing_progress st = f_1.

(** The values that the progress takes in a run. *)
Definition progress_values : list F32.t :=
  F32.zero :: f_1 :: (progress_after <$> seq 1 19).

(** The opacity cast is defined for cover [opa] at progress [p], its value
    is within 0..[opa], and it is [opa] at 1.0 and 0 at 0.0. *)
Definition opacity_ok (opa : Z) (p : F32.t) : bool :=
  match F32.to_uint8 (F32.mul (F32.of_int opa) p) with
  | Ok o =>
      (0 <=? o) && (o <=? opa)
      && (if SFeqb p f_1 then o =? opa else true)
      && (if SFeqb p F32.zero then o =? 0 else true)
  | Undef _ => false
  end.

(** The x coordinates of an array of (x, y, z) triplets. *)
Fixpoint x_coordinates (verts : list F32.t) : list F32.t :=
  match verts with
  | x :: _ :: _ :: verts' => x :: x_coordinates verts'
  | _ => []
  end.

(** What a sequence of calls of [add_edge_to_set] does to the entries. *)
Definition add_entries (l : list (Z * Z)) (pairs : list (Z * Z)) : list (Z * Z) :=
  foldl (fun l p => add_entry l p.1 p.2) l pairs.

(** The pair is stored smaller index first. *)
Definition ordered (p : Z * Z) : Prop := p.1 <= p.2.

(** Number of lines that an output draws. *)
Definition line_count (out : list event) : Z :=
  Z.of_nat (length (filter (fun e => is_line e = true) out)).

(** The two conditions that a frame evaluates on the state that the tick
    left: whether it prints the debugging dump (before the counter of
    frames is incremented), and whether it prints the PENTACUBE line. *)
Definition should_debug (st : render_state) : bool :=
  (Int.rem (debug_frame_count st) 32 =? 0) && F32.gt (morphing_progress st) f_0_9.

Definition reports (st : render_state) : bool :=
  F32.gt (morphing_progress st) f_0_9
  && negb (current_pentacube st =? last_logged_pentacube st).

(** The face loop starts on an empty set in the fresh block. *)
Definition no_faces (fresh_edge_set : list edge_t) : face_acc := {|
  face_vert_idx := 0;
  visible_edges := fresh_edge_set;
  visible_edge_count := 0;
  visible_faces := 0;
  total_faces_checked := 0;
  face_log := []
|}.

(** The PENTACUBE line of the culling renderer. *)
Definition is_report (e : event) : bool :=
  match e with PrintPentacube _ _ _ _ _ => true | _ => false end.

(** The rotation angle of frame [f]: [(float)f * 2.0f * M_PI / FRAME_COUNT]. *)
Definition angle_of_frame (f : Z) : F32.t :=
  F64.to_f32
    (F64.div (F64.mul (F64.of_f32 (F32.mul (F32.of_int f) f_2)) F64.M_PI)
       (F64.of_int FRAME_COUNT)).

(** For the angle of frame [f], the product by the flag 1 is the angle and
    the product by the flag 0 is 0.0. *)
Definition flag_products_ok (f : Z) : bool :=
  match F32.mul (angle_of_frame f) (F32.of_int 1),
        F32.mul (angle_of_frame f) (F32.of_int 0),
        angle_of_frame f with
  | S754_finite s1 m1 e1, S754_zero false, S754_finite s m e =>
      Bool.eqb s1 s && (m1 =? m)%positive && (e1 =? e)
  | S754_zero false, S754_zero false, S754_zero false => true
  | _, _, _ => false
  end.

(** The report of an edge with an invalid vertex index, and the number of
    such reports in an output. *)
Definition is_skip (e : event) : bool :=
  match e with PrintInvalidVertex _ _ _ _ _ => true | _ => false end.

Definition skip_count (out : list event) : Z :=
  Z.of_nat (length (filter (fun e => is_skip e = true) out)).

(** The factor [scale] that [project_point] computes for a point of depth
    [z]: PERSPECTIVE_DISTANCE over the perspective depth, the latter raised
    to 0.1 when it is at most 0.1. *)
Definition perspective_scale (st : render_state) (z : F32.t) : F32.t :=
  let perspective_z :=
    F32.add (F32.add z (z_position st)) (F32.of_int PERSPECTIVE_DISTANCE) in
  let perspective_z :=
    if F32.le perspective_z f_0_1 then f_0_1 else perspective_z in
  F32.div (F32.of_int PERSPECTIVE_DISTANCE) perspective_z.

(** A float that is a number and is not negative: +0.0, a positive finite
    value or +infinity. *)
Definition non_negative (x : F32.t) : Prop :=
  match x with
  | S754_zero false | S754_infinity false | S754_finite false _ _ => True
  | _ => False
  end.

(** An access outside the block of the visible edge set. *)
Definition edge_set_fault (f : fault) : bool :=
  match f with
  | OutOfBounds ArrEdgeSet _ => true
  | _ => false
  end.

(** The lines of an output, in the order in which they are drawn. *)
Definition lines_of (out : list event) : list event :=
  filter (fun e => is_line e = true) out.

(** The line that the drawing loop emits for an entry of the edge set: it
    joins the screen positions of the two vertices of the entry. *)
Definition edge_line (screen_coords : list Z) (opacity : Z) (e : Z * Z) : event :=
  CanvasDrawLine
    (screen_coords !!! Z.to_nat (e.1 * 2))
    (screen_coords !!! Z.to_nat (e.1 * 2 + 1))
    (screen_coords !!! Z.to_nat (e.2 * 2))
    (screen_coords !!! Z.to_nat (e.2 * 2 + 1))
    opacity.

(** The sum of the counts of a list of faces. *)
Definition total (counts : list Z) : Z := foldr Z.add 0 counts.

(** The index of a vertex of the mesh. *)
Definition vertex_index (p : pentacube_data_t) (v : Z) : Prop :=
  0 <= v < vertex_count p.

(** The face list of a mesh is well formed: one count, of at least three
    vertices, per face; as many vertex indices as the counts add up to;
    each of them the index of a vertex; and the subscripts are [int]s. *)
Definition faces_ok (p : pentacube_data_t) : Prop :=
  Z.of_nat (length (face_vertex_counts p)) = face_count p
  /\ Forall (fun c => 3 <= c) (face_vertex_counts p)
  /\ Z.of_nat (length (face_vertices p)) = total (face_vertex_counts p)
  /\ Forall (vertex_index p) (face_vertices p)
  /\ total (face_vertex_counts p) <= Int.max_signed
  /\ 2 * vertex_count p <= Int.max_signed.

(** Both ends of an entry of the edge set are indices of vertices. *)
Definition valid_entry (p : pentacube_data_t) (e : Z * Z) : Prop :=
  vertex_index p e.1 /\ vertex_index p e.2.

(** ** Further meshes and states used as concrete inputs *)

(** A mesh without vertices. *)
Definition no_vertices : pentacube_data_t := {|
  vertices := [];
  vertex_count := 0;
  edges := [];
  edge_count := 0;
  face_vertices := [];
  face_vertex_counts := [];
  face_count := 0;
  name := "none"
|}.

(** The state that startup establishes on a mesh table of meshes without
    vertices. *)
Definition started_on_no_vertices : render_state :=
  match startup_state (replicate 29 no_vertices) initial_state with
  | Ok st => st
  | Undef _ => initial_state
  end.

(** The state seventeen ticks after startup on the straight pentacube: the
    morph that the first tick started is at 0.85. *)
Definition late_in_morph : render_state :=
  Nat.iter 17 update_animation_state started_on_bar.

(** The cube with a face list whose first face names index 8, the vertex
    count. *)
Definition cube_bad_face : pentacube_data_t := {|
  vertices := vertices cube;
  vertex_count := 8;
  edges := edges cube;
  edge_count := 12;
  face_vertices :=
    [8; 3; 2; 1;  4; 5; 6; 7;  0; 1; 5; 4;  2; 3; 7; 6;  1; 2; 6; 5;  0; 4; 7; 3];
  face_vertex_counts := face_vertex_counts cube;
  face_count := 6;
  name := "cube"
|}.


(** * Properties *)

(** ** Machine integers *)

Section IntFacts.

Lemma wrap_range z : Int.in_range (Int.wrap z).
Proof.
  unfold Int.in_range, Int.wrap, Int.min_signed, Int.max_signed.
  pose proof (Z.mod_pos_bound (z + 2 ^ 31) (2 ^ 32)). lia.
Qed.

Lemma wrap_small z : Int.in_range z -> Int.wrap z = z.
Proof.
  unfold Int.in_range, Int.wrap, Int.min_signed, Int.max_signed. intros H.
  rewrite Z.mod_small; lia.
Qed.

Lemma wrap_mod z : Int.wrap z mod 2 ^ 32 = z mod 2 ^ 32.
Proof.
  unfold Int.wrap.
  rewrite <- (Zminus_mod_idemp_l ((z + 2 ^ 31) mod 2 ^ 32)).
  rewrite Z.mod_mod by lia.
  rewrite Zminus_mod_idemp_l. f_equal. lia.
Qed.

Lemma wrap_mod31 z : Int.wrap z mod 2 ^ 31 = z mod 2 ^ 31.
Proof.
  assert (D : (2 ^ 31 | 2 ^ 32)) by (exists 2; lia).
  rewrite <- (Z.mod_mod_divide (Int.wrap z) _ _ D), wrap_mod.
  now apply Z.mod_mod_divide.
Qed.

(** Congruence modulo 2^32 is all that [wrap] sees. *)
Lemma wrap_congr a b : a mod 2 ^ 32 = b mod 2 ^ 32 -> Int.wrap a = Int.wrap b.
Proof.
  intros H. unfold Int.wrap. f_equal.
  rewrite <- (Zplus_mod_idemp_l a), H, Zplus_mod_idemp_l. reflexivity.
Qed.

Lemma wrap_add_l a b : Int.wrap (Int.wrap a + b) = Int.wrap (a + b).
Proof.
  apply wrap_congr.
  now rewrite <- Zplus_mod_idemp_l, wrap_mod, Zplus_mod_idemp_l.
Qed.

Lemma wrap_sub a b : Int.wrap (Int.wrap a - Int.wrap b) = Int.wrap (a - b).
Proof.
  apply wrap_congr.
  now rewrite Zminus_mod, !wrap_mod, <- Zminus_mod.
Qed.

Lemma wrap_mul a b : Int.wrap (Int.wrap a * Int.wrap b) = Int.wrap (a * b).
Proof.
  apply wrap_congr.
  now rewrite Zmult_mod, !wrap_mod, <- Zmult_mod.
Qed.

End IntFacts.

(** ** Pseudo-random sequence generator *)

Lemma simple_rand_value s :
  fst (simple_rand s) = (s * 1103515245 + 12345) mod 2 ^ 31.
Proof.
  unfold simple_rand, Int.add, Int.mul. cbn [fst].
  change 0x7fffffff with (Z.ones 31).
  rewrite Z.land_ones by lia.
  now rewrite wrap_mod31, <- Zplus_mod_idemp_l, wrap_mod31, Zplus_mod_idemp_l.
Qed.

Example simple_rand_first_draws :
  simple_rand initial_seed = (1406932606, 1406932606)
  /\ random_pentacube initial_seed = (13, 1406932606)
  /\ random_pentacube 1406932606 = (9, 654583775).
Proof. repeat split. Qed.

(** C8. [simple_rand] is a function of the seed alone; it stores and returns
    (seed * 1103515245 + 12345) mod 2^31, a value of [0, 2^31);
    [random_pentacube] returns that value modulo [PENTACUBE_COUNT], which is
    a mesh index of [0, 29), and leaves the same seed behind. *)
Theorem simple_rand_is_lcg_mod_2_31 (s : Z) :
  let r := (s * 1103515245 + 12345) mod 2 ^ 31 in
  simple_rand s = (r, r)
  /\ 0 <= r < 2 ^ 31
  /\ random_pentacube s = (r mod PENTACUBE_COUNT, r)
  /\ 0 <= r mod PENTACUBE_COUNT < 29.
Proof.
  intros r.
  assert (Hr : 0 <= r < 2 ^ 31) by (apply Z.mod_pos_bound; lia).
  assert (Hs : simple_rand s = (r, r)).
  { pose proof (simple_rand_value s) as H. unfold simple_rand in *.
    cbn [fst] in H. now rewrite H. }
  repeat split; try tauto.
  - unfold random_pentacube. rewrite Hs. unfold Int.rem.
    rewrite Z.rem_mod_nonneg; [reflexivity | lia | unfold PENTACUBE_COUNT; lia].
  - apply Z.mod_pos_bound. unfold PENTACUBE_COUNT. lia.
  - apply Z.mod_pos_bound. unfold PENTACUBE_COUNT. lia.
Qed.

(** ** Arrays and loops *)

Lemma read_Some {A : Type} (a : array_id) (l : list A) (i : nat) (x : A) :
  l !! i = Some x -> Z.of_nat i <= Int.max_signed -> read a l (Z.of_nat i) = Ok x.
Proof.
  intros Hl Hi. unfold read.
  rewrite Nat2Z.id, Hl.
  destruct (0 <=? Z.of_nat i) eqn:E1; [|lia].
  destruct (Z.of_nat i <=? Int.max_signed) eqn:E2; [reflexivity|lia].
Qed.

Lemma read_inv {A : Type} (a : array_id) (l : list A) (i : Z) (x : A) :
  read a l i = Ok x -> 0 <= i <= Int.max_signed /\ l !! Z.to_nat i = Some x.
Proof.
  unfold read. intros H.
  destruct (0 <=? i) eqn:E1; [|discriminate].
  destruct (i <=? Int.max_signed) eqn:E2; [|discriminate].
  cbn [andb] in H.
  destruct (l !! Z.to_nat i) eqn:E; [|discriminate].
  split; [lia|congruence].
Qed.

Lemma read_negative {A : Type} (a : array_id) (l : list A) (i : Z) :
  i < 0 -> read a l i = Undef (OutOfBounds a i).
Proof.
  intros H. unfold read. destruct (0 <=? i) eqn:E; [lia|reflexivity].
Qed.

Lemma for_loop_nonpos {S : Type} (n : Z) (body : Z -> S -> exec S) (acc : S) :
  n <= 0 -> for_loop n body acc = Ok acc.
Proof.
  intros H. unfold for_loop, seqZ.
  replace (Z.to_nat n) with 0%nat by lia. reflexivity.
Qed.

Lemma iterate_app {S : Type} (body : Z -> S -> exec S) (l1 l2 : list Z) (acc : S) :
  iterate body (l1 ++ l2) acc = s ← iterate body l1 acc; iterate body l2 s.
Proof.
  revert acc. induction l1 as [|i l1 IH]; intros acc; cbn; [reflexivity|].
  destruct (body i acc) as [s|e]; cbn; [apply IH|reflexivity].
Qed.

(** ** The edge set *)

Lemma canonical_sym a b : canonical a b = canonical b a.
Proof.
  unfold canonical.
  destruct (a >? b) eqn:E1, (b >? a) eqn:E2; try reflexivity; try lia.
  f_equal; lia.
Qed.

Lemma canonical_min_max a b : canonical a b = (Z.min a b, Z.max a b).
Proof. unfold canonical. destruct (a >? b) eqn:E; f_equal; lia. Qed.

Lemma edge_eqb_true e a b : edge_eqb e a b = true <-> (v1 e, v2 e) = (a, b).
Proof.
  unfold edge_eqb. rewrite andb_true_iff, !Z.eqb_eq.
  split; [intros [-> ->]; reflexivity | intros [= -> ->]; auto].
Qed.

Lemma scan_edges_spec edge_set a b (k i : nat) :
  (i + k <= length edge_set)%nat ->
  Z.of_nat (i + k) <= Int.max_signed ->
  scan_edges edge_set a b (seqZ (Z.of_nat i) (Z.of_nat k))
  = Ok (existsb (fun e => edge_eqb e a b) (take k (drop i edge_set))).
Proof.
  revert i. induction k as [|k IH]; intros i Hlen Hmax.
  - reflexivity.
  - rewrite seqZ_cons by lia. cbn [scan_edges].
    destruct (lookup_lt_is_Some_2 edge_set i ltac:(lia)) as [e He].
    rewrite (read_Some _ _ _ _ He) by lia. cbn.
    rewrite (drop_S _ _ _ He). cbn [take existsb].
    destruct (edge_eqb e a b); [reflexivity|]. cbn [orb].
    replace (Z.succ (Z.of_nat i)) with (Z.of_nat (S i)) by lia.
    replace (Z.pred (Z.of_nat (S k))) with (Z.of_nat k) by lia.
    apply IH; lia.
Qed.

Lemma existsb_entries edge_set count a b :
  existsb (fun e => edge_eqb e a b) (take (Z.to_nat count) edge_set)
  = bool_decide ((a, b) ∈ entries edge_set count).
Proof.
  unfold entries. generalize (take (Z.to_nat count) edge_set) as l.
  induction l as [|e l IH]; [reflexivity|].
  cbn [existsb fmap list_fmap]. rewrite IH.
  destruct (edge_eqb e a b) eqn:E.
  - apply edge_eqb_true in E. symmetry. apply bool_decide_eq_true.
    rewrite E. left.
  - cbn [orb]. apply bool_decide_ext. rewrite elem_of_cons.
    split; [auto|]. intros [H|H]; [|exact H].
    symmetry in H. apply edge_eqb_true in H. congruence.
Qed.

Lemma length_entries edge_set count :
  set_ok edge_set count -> Z.of_nat (length (entries edge_set count)) = count.
Proof.
  intros [Hl Hc]. unfold entries. rewrite length_fmap, length_take. lia.
Qed.

(** [add_edge_to_set] never faults on a well-formed set; it returns false
    exactly at capacity, keeps every cell in use, and changes the entries
    as [add_entry] says. *)
Lemma add_edge_to_set_spec edge_set count a b :
  set_ok edge_set count ->
  exists edge_set' count',
    add_edge_to_set edge_set count a b
    = Ok (negb (count >=? MAX_EDGE_SET), edge_set', count')
    /\ set_ok edge_set' count'
    /\ count <= count'
    /\ take (Z.to_nat count) edge_set' = take (Z.to_nat count) edge_set
    /\ entries edge_set' count' = add_entry (entries edge_set count) a b
    /\ (count >= MAX_EDGE_SET -> edge_set' = edge_set /\ count' = count).
Proof.
  intros Hok. pose proof (length_entries _ _ Hok) as Hlen.
  destruct Hok as [Hl Hc].
  unfold add_edge_to_set, add_entry. rewrite Hlen.
  destruct (count >=? MAX_EDGE_SET) eqn:Ecap.
  { exists edge_set, count. cbn [negb]. repeat split; auto; lia. }
  unfold set_ok.
  assert (Hlt : count < MAX_EDGE_SET) by lia.
  unfold MAX_EDGE_SET in *.
  replace (if a >? b then (b, a) else (a, b)) with (canonical a b) by reflexivity.
  destruct (canonical a b) as [a' b'] eqn:Ecan.
  pose proof (scan_edges_spec edge_set a' b' (Z.to_nat count) 0) as Hscan.
  change (drop 0 edge_set) with edge_set in Hscan.
  rewrite Z2Nat.id in Hscan by lia.
  change (Z.of_nat 0) with 0 in Hscan.
  rewrite Hscan. 2:{ cbn [Nat.add]. lia. } 2:{ cbn [Nat.add]. unfold Int.max_signed. lia. } clear Hscan.
  rewrite existsb_entries. cbn [mbind exec_bind].
  destruct (bool_decide ((a', b') ∈ entries edge_set count)) eqn:Efound.
  { exists edge_set, count. cbn [negb]. unfold set_ok, MAX_EDGE_SET. repeat split; auto; lia. }
  rewrite Hl.
  destruct (0 <=? count) eqn:E0; [|lia].
  destruct (count <? 256) eqn:E1; [|lia]. cbn [andb negb].
  eexists _, _. split; [reflexivity|].
  assert (Hw : Int.add count 1 = count + 1)
    by (apply wrap_small; unfold Int.in_range, Int.min_signed, Int.max_signed; lia).
  rewrite Hw.
  repeat split.
  - rewrite length_insert. exact Hl.
  - lia.
  - lia.
  - lia.
  - apply take_insert_ge. lia.
  - unfold entries.
    replace (Z.to_nat (count + 1)) with (S (Z.to_nat count)) by lia.
    erewrite take_S_r by (apply list_lookup_insert_eq; lia).
    rewrite fmap_app, take_insert_ge by lia. reflexivity.
  - lia.
  - lia.
Qed.

Lemma add_edge_to_set_present edge_set count a b :
  set_ok edge_set count ->
  canonical a b ∈ entries edge_set count ->
  add_edge_to_set edge_set count a b
  = Ok (negb (count >=? MAX_EDGE_SET), edge_set, count).
Proof.
  intros Hok Hin.
  destruct (add_edge_to_set_spec edge_set count a b Hok)
    as (es' & n' & Hadd & _ & _ & _ & _ & Hcap).
  destruct (count >=? MAX_EDGE_SET) eqn:Ecap.
  - destruct Hcap as [-> ->]; [lia|exact Hadd].
  - destruct Hok as [Hl Hc]. clear Hadd Hcap es' n'.
    unfold add_edge_to_set. rewrite Ecap.
    replace (if a >? b then (b, a) else (a, b)) with (canonical a b) by reflexivity.
    destruct (canonical a b) as [a' b'].
    pose proof (scan_edges_spec edge_set a' b' (Z.to_nat count) 0) as Hscan.
    change (drop 0 edge_set) with edge_set in Hscan.
    rewrite Z2Nat.id in Hscan by lia. change (Z.of_nat 0) with 0 in Hscan.
    unfold MAX_EDGE_SET in *.
    rewrite Hscan, existsb_entries.
    + rewrite bool_decide_eq_true_2 by exact Hin. reflexivity.
    + cbn [Nat.add]. lia.
    + cbn [Nat.add]. unfold Int.max_signed. lia.
Qed.

Lemma add_entry_elem l a b :
  Z.of_nat (length l) < MAX_EDGE_SET \/ canonical a b ∈ l ->
  canonical a b ∈ add_entry l a b.
Proof.
  intros H. unfold add_entry.
  destruct (bool_decide (canonical a b ∈ l)) eqn:E.
  - apply bool_decide_eq_true in E. now destruct (_ >=? _).
  - apply bool_decide_eq_false in E. destruct H as [H|H]; [|contradiction].
    destruct (_ >=? _) eqn:E2; [lia|]. apply elem_of_app. right. left.
Qed.

Lemma add_entry_NoDup l a b : NoDup l -> NoDup (add_entry l a b).
Proof.
  intros H. unfold add_entry.
  destruct (_ >=? _); [exact H|].
  destruct (bool_decide (canonical a b ∈ l)) eqn:E; [exact H|].
  apply bool_decide_eq_false in E.
  apply NoDup_app. repeat split; [exact H| |apply NoDup_singleton].
  intros x Hx Hx'. apply list_elem_of_singleton in Hx'. subst x. contradiction.
Qed.

Lemma occurrences_entries edge_set count a b :
  occurrences edge_set count a b
  = length (filter (fun p => p = (a, b)) (entries edge_set count)).
Proof.
  unfold occurrences, entries.
  generalize (take (Z.to_nat count) edge_set) as l.
  induction l as [|e l IH]; [reflexivity|].
  cbn [fmap list_fmap]. rewrite !filter_cons.
  destruct (decide (edge_eqb e a b = true)) as [H|H];
    destruct (decide ((v1 e, v2 e) = (a, b))) as [H'|H'];
    cbn [length]; rewrite ?IH; try reflexivity.
  - apply edge_eqb_true in H. contradiction.
  - apply edge_eqb_true in H'. contradiction.
Qed.

Lemma filter_eq_absent {A : Type} `{EqDecision A} (l : list A) (x : A) :
  x ∉ l -> filter (fun y => y = x) l = [].
Proof.
  induction l as [|y l IH]; intros Hx; [reflexivity|].
  apply not_elem_of_cons in Hx. destruct Hx as [Hne Hx].
  rewrite filter_cons. destruct (decide (y = x)); [congruence|auto].
Qed.

Lemma NoDup_filter_eq_length {A : Type} `{EqDecision A} (l : list A) (x : A) :
  NoDup l -> x ∈ l -> length (filter (fun y => y = x) l) = 1%nat.
Proof.
  induction 1 as [|y l Hy Hnd IH]; intros Hin.
  - inversion Hin.
  - rewrite filter_cons. destruct (decide (y = x)) as [->|Hne].
    + cbn [length]. f_equal.
      now rewrite filter_eq_absent.
    + apply IH. apply elem_of_cons in Hin. destruct Hin; congruence.
Qed.

(** C3. Whatever the sequence of insertions, on a set whose array has
    MAX_EDGE_SET cells, no call faults, the counter never decreases and never
    exceeds MAX_EDGE_SET (256), and the cells that were in use keep their
    contents; at capacity a call returns false and changes neither the array
    nor the counter. *)
Theorem edge_set_cardinality_bounded edge_set count pairs :
  set_ok edge_set count ->
  exists edge_set' count',
    add_edges edge_set count pairs = Ok (edge_set', count')
    /\ count <= count' <= MAX_EDGE_SET
    /\ Z.of_nat (length edge_set') = MAX_EDGE_SET
    /\ take (Z.to_nat count) edge_set' = take (Z.to_nat count) edge_set
    /\ (count = MAX_EDGE_SET ->
        edge_set' = edge_set /\ count' = count
        /\ forall a b,
             add_edge_to_set edge_set count a b = Ok (false, edge_set, count)).
Proof.
  revert edge_set count. induction pairs as [|[a b] pairs IH]; intros es n Hok.
  - exists es, n. cbn. destruct Hok as [Hl Hc].
    repeat split; try tauto; try lia.
    intros a b.
    destruct (add_edge_to_set_spec es n a b (conj Hl Hc))
      as (es' & n' & Hadd & _ & _ & _ & _ & Hcap).
    destruct Hcap as [-> ->]; [lia|]. rewrite Hadd.
    destruct (n >=? MAX_EDGE_SET) eqn:E; [reflexivity|lia].
  - destruct (add_edge_to_set_spec es n a b Hok)
      as (es1 & n1 & Hadd & Hok1 & Hle & Htake & _ & Hcap).
    destruct (IH es1 n1 Hok1) as (es2 & n2 & Hrun & Hle2 & Hlen2 & Htake2 & Hcap2).
    exists es2, n2. cbn [add_edges]. rewrite Hadd. cbn.
    split; [exact Hrun|]. split; [lia|]. split; [exact Hlen2|]. split.
    + rewrite <- Htake.
      assert (Hmin : (Z.to_nat n `min` Z.to_nat n1)%nat = Z.to_nat n) by lia.
      rewrite <- Hmin, <- !take_take. now rewrite Htake2.
    + intros ->. destruct Hcap as [-> ->]; [lia|].
      destruct (Hcap2 eq_refl) as (-> & -> & Hfalse). auto.
Qed.

Lemma edge_set_cardinality_bounded_witness :
  exists edge_set' count',
    add_edges zeroed_edge_set 0 [(3, 1); (1, 3); (2, 5)]
    = Ok (edge_set', count')
    /\ 0 <= count' <= MAX_EDGE_SET.
Proof.
  destruct (edge_set_cardinality_bounded
              zeroed_edge_set 0 [(3, 1); (1, 3); (2, 5)])
    as (es & n & H1 & H2 & _).
  - split; [reflexivity | unfold MAX_EDGE_SET; lia].
  - exists es, n. split; assumption.
Defined.

(** C2, as amended. On a set without repeated entries that is below capacity,
    or that already holds the pair, inserting the pair and then inserting it
    again, in the same or in the swapped order, faults neither time; the
    second call changes neither the array nor the counter; and the set then
    holds exactly one entry for the pair, stored smaller index first. *)
Theorem edge_insertion_idempotent edge_set count a b a' b' :
  set_ok edge_set count ->
  NoDup (entries edge_set count) ->
  count < MAX_EDGE_SET \/ (Z.min a b, Z.max a b) ∈ entries edge_set count ->
  (a', b') = (a, b) \/ (a', b') = (b, a) ->
  exists r1 r2 edge_set' count',
    add_edge_to_set edge_set count a b = Ok (r1, edge_set', count')
    /\ add_edge_to_set edge_set' count' a' b' = Ok (r2, edge_set', count')
    /\ occurrences edge_set' count' (Z.min a b) (Z.max a b) = 1%nat
    /\ NoDup (entries edge_set' count').
Proof.
  intros Hok Hnd Hroom Hsame.
  rewrite <- canonical_min_max in *.
  destruct (add_edge_to_set_spec edge_set count a b Hok)
    as (es1 & n1 & Hadd & Hok1 & _ & _ & Hent & _).
  assert (Hin : canonical a b ∈ entries es1 n1).
  { rewrite Hent. apply add_entry_elem.
    rewrite (length_entries _ _ Hok). exact Hroom. }
  assert (Hnd1 : NoDup (entries es1 n1))
    by (rewrite Hent; now apply add_entry_NoDup).
  assert (Hcan : canonical a' b' = canonical a b).
  { destruct Hsame as [[= -> ->]|[= -> ->]]; [reflexivity|apply canonical_sym]. }
  eexists _, _, es1, n1. split; [exact Hadd|]. split.
  - apply add_edge_to_set_present; [exact Hok1|]. now rewrite Hcan.
  - split; [|exact Hnd1].
    rewrite canonical_min_max in Hin.
    rewrite occurrences_entries. now apply NoDup_filter_eq_length.
Qed.

Lemma edge_insertion_idempotent_witness :
  exists r1 r2 edge_set' count',
    add_edge_to_set zeroed_edge_set 0 7 4
    = Ok (r1, edge_set', count')
    /\ add_edge_to_set edge_set' count' 4 7 = Ok (r2, edge_set', count')
    /\ occurrences edge_set' count' 4 7 = 1%nat.
Proof.
  destruct (edge_insertion_idempotent
              zeroed_edge_set 0 7 4 4 7)
    as (r1 & r2 & es & n & H1 & H2 & H3 & _).
  - split; [reflexivity | unfold MAX_EDGE_SET; lia].
  - apply NoDup_nil_2.
  - left. unfold MAX_EDGE_SET. lia.
  - right. reflexivity.
  - exists r1, r2, es, n. auto.
Defined.

(** C2, counterexample to the claim as stated. The set built from the empty
    set by inserting the 256 pairs (0,1) ... (0,256) is at capacity; inserting
    (300,301) and then (301,300) leaves no entry for that pair. *)
Lemma full_set_drops_both_insertions :
  exists edge_set,
    add_edges zeroed_edge_set 0
      ((fun k => (0, k)) <$> seqZ 1 256)
    = Ok (edge_set, 256)
    /\ add_edge_to_set edge_set 256 300 301 = Ok (false, edge_set, 256)
    /\ add_edge_to_set edge_set 256 301 300 = Ok (false, edge_set, 256)
    /\ occurrences edge_set 256 300 301 = 0%nat.
Proof.
  eexists. split; [vm_compute; reflexivity|].
  repeat split; vm_compute; reflexivity.
Qed.

(** ** Visibility *)

Lemma is_face_visible_debug_cross x0 y0 x1 y1 x2 y2 :
  is_face_visible_debug x0 y0 x1 y1 x2 y2
  = (Int.wrap (cross_product x0 y0 x1 y1 x2 y2) >? 0,
     Int.wrap (cross_product x0 y0 x1 y1 x2 y2)).
Proof.
  unfold is_face_visible_debug, cross_product, Int.sub, Int.mul.
  now rewrite !wrap_mul, wrap_sub.
Qed.

Lemma cross_product_exact x0 y0 x1 y1 x2 y2 :
  Forall small_coord [x0; y0; x1; y1; x2; y2] ->
  Int.wrap (cross_product x0 y0 x1 y1 x2 y2) = cross_product x0 y0 x1 y1 x2 y2.
Proof.
  intros H. repeat (apply Forall_cons in H; destruct H as [? H]).
  unfold small_coord in *. apply wrap_small.
  unfold Int.in_range, Int.min_signed, Int.max_signed, cross_product.
  assert (B : forall a b, -32766 <= a <= 32766 -> -32766 <= b <= 32766 ->
                          -1073610756 <= a * b <= 1073610756) by (intros; nia).
  pose proof (B (x1 - x0) (y2 - y0) ltac:(lia) ltac:(lia)).
  pose proof (B (y1 - y0) (x2 - x0) ltac:(lia) ltac:(lia)).
  lia.
Qed.

Ltac step_exec H :=
  match type of H with
  | context [mbind _ ?m] =>
      let E := fresh "E" in
      destruct m eqn:E; cbn [mbind exec_bind] in H; [|discriminate H]
  end.

(** C1. For every face that the face loop processes, with (x0,y0), (x1,y1),
    (x2,y2) the projected integer coordinates of the first three vertices of
    its loop and [cross] the [int] value of (v1 - v0) x (v2 - v0) (equal to
    the mathematical cross product whenever the coordinates stay within
    +-16383): the face is counted as visible and its loop of edges is
    inserted in the visible edge set iff 0 < cross; when cross <= 0, and so
    for an edge-on face (cross = 0), the array and the counter of the edge
    set are left as they were. *)
Theorem face_visible_iff_cross_positive
    (p : pentacube_data_t) (screen_coords : list Z) (should_debug : bool)
    (face_idx : Z) (acc acc' : face_acc) :
  Culled.process_face p screen_coords should_debug face_idx acc = Ok acc' ->
  exists n v0 v1 v2 x0 y0 x1 y1 x2 y2,
    read ArrFaceVertexCounts (face_vertex_counts p) face_idx = Ok n
    /\ read ArrFaceVertices (face_vertices p) (face_vert_idx acc) = Ok v0
    /\ read ArrFaceVertices (face_vertices p) (face_vert_idx acc + 1) = Ok v1
    /\ read ArrFaceVertices (face_vertices p) (face_vert_idx acc + 2) = Ok v2
    /\ read ArrScreenCoords screen_coords (v0 * 2) = Ok x0
    /\ read ArrScreenCoords screen_coords (v0 * 2 + 1) = Ok y0
    /\ read ArrScreenCoords screen_coords (v1 * 2) = Ok x1
    /\ read ArrScreenCoords screen_coords (v1 * 2 + 1) = Ok y1
    /\ read ArrScreenCoords screen_coords (v2 * 2) = Ok x2
    /\ read ArrScreenCoords screen_coords (v2 * 2 + 1) = Ok y2
    /\ let cross := Int.wrap (cross_product x0 y0 x1 y1 x2 y2) in
       (Forall small_coord [x0; y0; x1; y1; x2; y2] ->
        cross = cross_product x0 y0 x1 y1 x2 y2)
       /\ is_face_visible_debug x0 y0 x1 y1 x2 y2 = (0 <? cross, cross)
       /\ (0 < cross ->
           visible_faces acc' = Int.add (visible_faces acc) 1
           /\ for_loop n (Culled.add_face_edge p (face_vert_idx acc) n)
                (visible_edges acc, visible_edge_count acc)
              = Ok (visible_edges acc', visible_edge_count acc'))
       /\ (cross <= 0 ->
           visible_faces acc' = visible_faces acc
           /\ visible_edges acc' = visible_edges acc
           /\ visible_edge_count acc' = visible_edge_count acc)
       /\ (should_debug = true ->
           face_log acc'
           = face_log acc ++ [PrintFace face_idx n cross (0 <? cross) v0 v1 v2]).
Proof.
  intros H. unfold Culled.process_face in H.
  step_exec H. rename a into n.
  destruct (Culled.face_cross p screen_coords (face_vert_idx acc))
    as [[[vis cross] [[v0 v1] v2]]|] eqn:Ecross;
    cbn [mbind exec_bind] in H; [|discriminate H].
  unfold Culled.face_cross in Ecross.
  do 9 step_exec Ecross.
  rewrite is_face_visible_debug_cross in Ecross.
  injection Ecross as <- <- <- <- <-.
  exists n, a, a0, a1, a2, a3, a4, a5, a6, a7.
  repeat (split; [first [assumption | reflexivity]|]).
  cbn zeta.
  set (cross := Int.wrap (cross_product a2 a3 a4 a5 a6 a7)) in *.
  assert (Egt : (cross >? 0) = (0 <? cross))
    by (rewrite Z.gtb_ltb; reflexivity).
  rewrite Egt in H.
  split; [apply cross_product_exact|].
  split; [rewrite is_face_visible_debug_cross; fold cross; now rewrite Egt|].
  destruct (0 <? cross) eqn:Evis.
  - step_exec H. destruct a8 as [es cnt].
    injection H as <-. cbn.
    split; [intros _; split; [reflexivity|reflexivity]|].
    split; [intros; lia|].
    intros ->. reflexivity.
  - cbn [mbind exec_bind] in H. injection H as <-. cbn.
    split; [intros; lia|].
    split; [intros _; auto|].
    intros ->. reflexivity.
Qed.

Lemma face_visible_iff_cross_positive_witness :
  exists acc',
    Culled.process_face wedge [10; 10; 20; 10; 10; 20] true 0 empty_faces = Ok acc'
    /\ visible_faces acc' = 1.
Proof.
  destruct (Culled.process_face wedge [10; 10; 20; 10; 10; 20] true 0 empty_faces)
    as [acc'|] eqn:E; [|vm_compute in E; discriminate E].
  exists acc'. split; [reflexivity|].
  destruct (face_visible_iff_cross_positive _ _ _ _ _ _ E)
    as (n & v0 & v1 & v2 & x0 & y0 & x1 & y1 & x2 & y2 & H).
  repeat match goal with
         | H : read _ _ _ = Ok _ /\ _ |- _ =>
             let R := fresh "R" in
             destruct H as [R H]; vm_compute in R; injection R as <-
         end.
  destruct H as (_ & _ & Hpos & _).
  destruct Hpos as [-> _]; [vm_compute|]; reflexivity.
Defined.

(** ** Floating point *)

Section FloatFacts.

Variables prec emax : Z.

Lemma shr_1_nonneg mrs : 0 <= shr_m mrs -> 0 <= shr_m (shr_1 mrs).
Proof.
  destruct mrs as [m r s]. cbn [shr_m]. intros H.
  destruct m as [|[q|q|]|q]; cbn; lia.
Qed.

Lemma iter_pos_invariant {A : Type} (f : A -> A) (P : A -> Prop) :
  (forall x, P x -> P (f x)) -> forall p x, P x -> P (SpecFloat.iter_pos f p x).
Proof.
  intros Hf. induction p as [p IH|p IH|]; intros x Hx; cbn; auto.
Qed.

Lemma shr_fexp_nonneg m e l :
  0 <= m -> 0 <= shr_m (fst (shr_fexp prec emax m e l)).
Proof.
  intros Hm. unfold shr_fexp, shr.
  assert (H0 : 0 <= shr_m (shr_record_of_loc m l))
    by (destruct l as [|[]]; exact Hm).
  destruct (fexp prec emax (Zdigits2 m + e) - e); cbn [fst]; try exact H0.
  apply (iter_pos_invariant shr_1 (fun mrs => 0 <= shr_m mrs));
    [apply shr_1_nonneg|exact H0].
Qed.

Lemma round_nearest_even_nonneg m l : 0 <= m -> 0 <= round_nearest_even m l.
Proof.
  intros H. unfold round_nearest_even.
  destruct l as [|[]]; try lia. destruct (Z.even m); lia.
Qed.

Lemma binary_round_aux_not_nan sx mx ex lx :
  0 <= mx -> binary_round_aux prec emax sx mx ex lx <> S754_nan.
Proof.
  intros Hm. unfold binary_round_aux.
  pose proof (shr_fexp_nonneg mx ex lx Hm) as H1.
  destruct (shr_fexp prec emax mx ex lx) as [mrs' e']. cbn [fst] in H1.
  pose proof (shr_fexp_nonneg _ e' loc_Exact
                (round_nearest_even_nonneg _ (loc_of_shr_record mrs') H1)) as H2.
  destruct (shr_fexp prec emax _ e' loc_Exact) as [mrs'' e'']. cbn [fst] in H2.
  destruct (shr_m mrs''); [discriminate| |lia].
  destruct (e'' <=? emax - prec); discriminate.
Qed.

Lemma binary_normalize_not_nan m e sz :
  binary_normalize prec emax m e sz <> S754_nan.
Proof.
  unfold binary_normalize, binary_round.
  destruct m; [discriminate| |];
    destruct (shl_align _ _ _); apply binary_round_aux_not_nan; lia.
Qed.

(** Adding a finite number to a number gives a number. *)
Lemma SFadd_finite_not_nan x s m e :
  x <> S754_nan -> SFadd prec emax x (S754_finite s m e) <> S754_nan.
Proof.
  intros Hx. destruct x as [sx|sx| |sx mx ex]; cbn; try discriminate;
    try congruence.
  apply binary_normalize_not_nan.
Qed.

End FloatFacts.

Lemma SFcompare_antisym a b c :
  SFcompare a b = Some c -> SFcompare b a = Some (CompOpp c).
Proof.
  destruct a as [sa|sa| |sa ma ea], b as [sb|sb| |sb mb eb]; cbn;
    try discriminate; intros [= <-];
    try (destruct sa; reflexivity); try (destruct sb; reflexivity);
    try (destruct sa, sb; reflexivity).
  destruct sa, sb; cbn; try reflexivity;
    rewrite (Z.compare_antisym ea eb);
    destruct (ea ?= eb); cbn; try reflexivity;
    rewrite (Pos.compare_cont_antisym ma mb Eq); cbn;
    destruct (Pos.compare_cont Eq mb ma); reflexivity.
Qed.

Lemma SFcompare_number a b :
  a <> S754_nan -> b <> S754_nan -> exists c, SFcompare a b = Some c.
Proof.
  intros Ha Hb.
  destruct a as [sa|sa| |sa ma ea], b as [sb|sb| |sb mb eb]; cbn;
    try congruence; eauto.
Qed.

(** On numbers, [not (a < b)] is [b <= a]. *)
Lemma not_lt_le a b :
  a <> S754_nan -> b <> S754_nan -> F32.lt a b = false -> F32.le b a = true.
Proof.
  intros Ha Hb. unfold F32.lt, F32.le, SFltb, SFleb.
  destruct (SFcompare_number a b Ha Hb) as [c Hc].
  rewrite Hc, (SFcompare_antisym _ _ _ Hc).
  destruct c; cbn; congruence.
Qed.

Lemma is_nan_false x : F32.is_nan x = false <-> x <> S754_nan.
Proof. destruct x; cbn; split; congruence. Qed.

(** ** Animation state machine: what each block leaves unchanged *)

Lemma morph_trigger_lateral st :
  x_offset (morph_trigger st) = x_offset st
  /\ x_direction (morph_trigger st) = x_direction st
  /\ direction_change_counter (morph_trigger st) = direction_change_counter st.
Proof.
  unfold morph_trigger. destruct (morph_starts st); [|auto].
  destruct (random_pentacube (seed st)). auto.
Qed.

Lemma morph_progress_lateral st :
  x_offset (morph_progress st) = x_offset st
  /\ x_direction (morph_progress st) = x_direction st
  /\ direction_change_counter (morph_progress st) = direction_change_counter st.
Proof.
  unfold morph_progress. destruct (is_morphing st); [|auto].
  destruct (F32.ge _ _); auto.
Qed.

Lemma axis_reselection_fields st :
  x_offset (axis_reselection st) = x_offset st
  /\ x_direction (axis_reselection st) = x_direction st
  /\ direction_change_counter (axis_reselection st) = direction_change_counter st
  /\ morphing_progress (axis_reselection st) = morphing_progress st
  /\ is_morphing (axis_reselection st) = is_morphing st
  /\ current_pentacube (axis_reselection st) = current_pentacube st.
Proof.
  unfold axis_reselection. destruct (_ >? 16); [|cbn; auto 10].
  destruct (simple_rand (seed st)) as [r0 s0].
  destruct (simple_rand s0) as [r1 s1].
  destruct (simple_rand s1) as [r2 s2]. cbn. auto 10.
Qed.

Lemma lateral_offset_fields st :
  direction_change_counter (lateral_offset st) = direction_change_counter st
  /\ morphing_progress (lateral_offset st) = morphing_progress st
  /\ is_morphing (lateral_offset st) = is_morphing st
  /\ current_pentacube (lateral_offset st) = current_pentacube st.
Proof.
  unfold lateral_offset.
  destruct (F32.gt _ _); [cbn; auto|]. destruct (F32.lt _ _); cbn; auto.
Qed.

Lemma direction_reversal_fields st :
  x_offset (direction_reversal st) = x_offset st
  /\ morphing_progress (direction_reversal st) = morphing_progress st
  /\ is_morphing (direction_reversal st) = is_morphing st
  /\ current_pentacube (direction_reversal st) = current_pentacube st.
Proof.
  unfold direction_reversal. destruct (_ >? 8); [|cbn; auto].
  destruct (simple_rand (seed st)). cbn. auto.
Qed.

(** The lateral fields after a tick are those the second block computes. *)
Lemma update_lateral st :
  let s2 := lateral_offset (direction_reversal st) in
  x_offset (update_animation_state st) = x_offset s2
  /\ x_direction (update_animation_state st) = x_direction s2
  /\ direction_change_counter (update_animation_state st)
     = direction_change_counter (direction_reversal st).
Proof.
  intros s2. unfold update_animation_state. fold s2.
  destruct (axis_reselection_fields (morph_progress (morph_trigger (depth s2))))
    as (-> & -> & -> & _).
  destruct (morph_progress_lateral (morph_trigger (depth s2))) as (-> & -> & ->).
  destruct (morph_trigger_lateral (depth s2)) as (-> & -> & ->).
  cbn [depth x_offset x_direction direction_change_counter].
  destruct (lateral_offset_fields (direction_reversal st)) as (E & _).
  fold s2 in E. auto.
Qed.

(** The morph fields after a tick are those the fifth block computes from
    the morph fields of the state the tick started in. *)
Lemma update_morph st :
  let s3 := depth (lateral_offset (direction_reversal st)) in
  morphing_progress (update_animation_state st)
  = morphing_progress (morph_progress (morph_trigger s3))
  /\ is_morphing (update_animation_state st)
     = is_morphing (morph_progress (morph_trigger s3))
  /\ current_pentacube (update_animation_state st)
     = current_pentacube (morph_progress (morph_trigger s3))
  /\ morphing_progress s3 = morphing_progress st
  /\ is_morphing s3 = is_morphing st
  /\ current_pentacube s3 = current_pentacube st.
Proof.
  intros s3. unfold update_animation_state. fold s3.
  destruct (axis_reselection_fields (morph_progress (morph_trigger s3)))
    as (_ & _ & _ & -> & -> & ->).
  subst s3. cbn [depth morphing_progress is_morphing current_pentacube].
  destruct (lateral_offset_fields (direction_reversal st)) as (_ & -> & -> & ->).
  destruct (direction_reversal_fields st) as (_ & -> & -> & ->).
  auto 10.
Qed.

(** ** Lateral offset *)

Lemma unit_direction_reversal st :
  unit_direction (x_direction st) ->
  unit_direction (x_direction (direction_reversal st)).
Proof.
  intros H. unfold direction_reversal. destruct (_ >? 8); [|exact H].
  destruct (simple_rand (seed st)) as [r s]. cbn.
  destruct (Int.rem r 3 =? 0); [|exact H].
  destruct H as [-> | ->]; [right|left]; reflexivity.
Qed.

Lemma advanced_offset_number st :
  x_offset st <> S754_nan -> unit_direction (x_direction st) ->
  advanced_offset st <> S754_nan.
Proof.
  intros Hx Hd. unfold advanced_offset.
  destruct Hd as [-> | ->].
  - change (F32.mul f_1 f_0_6) with (S754_finite false 10066330 (-24)).
    now apply SFadd_finite_not_nan.
  - change (F32.mul (F32.opp f_1) f_0_6) with (S754_finite true 10066330 (-24)).
    now apply SFadd_finite_not_nan.
Qed.

Lemma lateral_offset_spec st :
  x_offset st <> S754_nan -> unit_direction (x_direction st) ->
  let x := advanced_offset st in
  let st' := lateral_offset st in
  within_bounds (x_offset st')
  /\ unit_direction (x_direction st')
  /\ x_offset st' <> S754_nan
  /\ (F32.gt x f_15 = true ->
      x_offset st' = f_15 /\ x_direction st' = F32.opp f_1)
  /\ (F32.gt x f_15 = false -> F32.lt x (F32.opp f_15) = true ->
      x_offset st' = F32.opp f_15 /\ x_direction st' = f_1)
  /\ (F32.gt x f_15 = false -> F32.lt x (F32.opp f_15) = false ->
      x_offset st' = x /\ x_direction st' = x_direction st).
Proof.
  intros Hx Hd x st'.
  pose proof (advanced_offset_number st Hx Hd) as Hn. fold x in Hn.
  subst st'. unfold lateral_offset. fold x.
  destruct (F32.gt x f_15) eqn:Egt; [|destruct (F32.lt x (F32.opp f_15)) eqn:Elt];
    cbn [set_lateral x_offset x_direction].
  - split; [split; reflexivity|]. split; [right; reflexivity|].
    split; [discriminate|]. repeat split; discriminate.
  - split; [split; reflexivity|]. split; [left; reflexivity|].
    split; [discriminate|]. repeat split; discriminate.
  - split; [split|].
    + apply not_lt_le; [exact Hn|discriminate|exact Elt].
    + apply not_lt_le; [discriminate|exact Hn|exact Egt].
    + split; [exact Hd|]. split; [exact Hn|]. repeat split; discriminate.
Qed.

Lemma culled_frame_state cosf sinf opa db fresh st st2 out :
  Culled.draw_pentacube_frame cosf sinf opa db fresh st = Ok (st2, out) ->
  exists logged dbg, st2 = set_frame_statics logged dbg (update_animation_state st).
Proof.
  unfold Culled.draw_pentacube_frame. intros H. cbv zeta in H.
  remember (update_animation_state st) as st1 eqn:Est1.
  do 3 step_exec H. destruct a1 as [rotated_verts screen_coords].
  do 2 step_exec H. destruct a2 as [drawn lines_drawn].
  injection H as <- _. subst st1. eauto.
Qed.

Lemma set_frame_statics_fields logged dbg st :
  x_offset (set_frame_statics logged dbg st) = x_offset st
  /\ x_direction (set_frame_statics logged dbg st) = x_direction st
  /\ morphing_progress (set_frame_statics logged dbg st) = morphing_progress st
  /\ is_morphing (set_frame_statics logged dbg st) = is_morphing st
  /\ current_pentacube (set_frame_statics logged dbg st) = current_pentacube st.
Proof. repeat split. Qed.

(** ** Morph progress *)

Lemma progress_chain (k : nat) :
  (1 <= k <= 19)%nat ->
  let p := progress_after k in
  let q := F32.add p f_0_05 in
  F32.le p q = true
  /\ F32.le p f_1 = true
  /\ (F32.ge q f_1 = true -> k = 19%nat)
  /\ (F32.ge q f_1 = false -> (k < 19)%nat).
Proof.
  intros Hk.
  do 20 (destruct k as [|k]; [first [lia | vm_compute; repeat split; intros;
                                       first [reflexivity | discriminate | lia]]|]).
  lia.
Qed.

(** From 0.0f, the twentieth addition of 0.05f is the first to reach 1.0f. *)
Example morph_completes_on_the_twentieth_tick :
  F32.lt (progress_after 19) f_1 = true
  /\ F32.ge (progress_after 20) f_1 = true.
Proof. split; vm_compute; reflexivity. Qed.

Lemma morph_blocks st :
  let s := morph_progress (morph_trigger st) in
  let q := F32.add (morphing_progress st) f_0_05 in
  (morph_starts st = true ->
   morphing_progress (morph_trigger st) = F32.zero
   /\ is_morphing (morph_trigger st) = true
   /\ current_pentacube (morph_trigger st) = next_pentacube st
   /\ morphing_progress s = F32.add F32.zero f_0_05
   /\ is_morphing s = true)
  /\ (morph_starts st = false -> is_morphing st = true ->
      (F32.ge q f_1 = true -> morphing_progress s = f_1 /\ is_morphing s = false)
      /\ (F32.ge q f_1 = false -> morphing_progress s = q /\ is_morphing s = true))
  /\ (morph_starts st = false -> is_morphing st = false ->
      morphing_progress s = morphing_progress st
      /\ is_morphing s = false
      /\ current_pentacube s = current_pentacube st).
Proof.
  cbv zeta. unfold morph_trigger.
  destruct (morph_starts st) eqn:Es.
  - split; [intros _|split; discriminate].
    destruct (random_pentacube (seed st)) as [r s']. cbn. auto.
  - split; [discriminate|]. unfold morph_progress.
    destruct (is_morphing st) eqn:Em.
    + split; [intros _ _|intros _; discriminate].
      destruct (F32.ge _ _); cbn; split; intros; try discriminate; auto.
    + split; [intros _; discriminate|]. intros _ _. auto.
Qed.

(** ** Direction reversal *)

Lemma direction_reversal_counter st :
  0 <= direction_change_counter st <= 8 ->
  let s1 := direction_reversal st in
  (direction_change_counter st < 8 ->
   direction_change_counter s1 = direction_change_counter st + 1
   /\ x_direction s1 = x_direction st
   /\ seed s1 = seed st)
  /\ (direction_change_counter st = 8 ->
      direction_change_counter s1 = 0
      /\ seed s1 = snd (simple_rand (seed st))
      /\ x_direction s1
         = if Int.rem (fst (simple_rand (seed st))) 3 =? 0
           then F32.opp (x_direction st) else x_direction st).
Proof.
  intros Hc. cbv zeta. unfold direction_reversal.
  assert (Hw : Int.add (direction_change_counter st) 1
               = direction_change_counter st + 1)
    by (apply wrap_small;
        unfold Int.in_range, Int.min_signed, Int.max_signed; lia).
  rewrite Hw.
  destruct (direction_change_counter st + 1 >? 8) eqn:E.
  - split; [intros; lia|]. intros _.
    destruct (simple_rand (seed st)) as [r s']. cbn. auto.
  - split; [|intros; lia]. intros _. cbn. auto.
Qed.


(** ** Reachable states *)

Lemma morph_invariant_update st :
  morph_invariant st -> morph_invariant (update_animation_state st).
Proof.
  intros Hinv. unfold morph_invariant in *.
  destruct (update_morph st) as (-> & -> & _ & Ep & Em & _).
  set (s3 := depth (lateral_offset (direction_reversal st))) in *.
  destruct (morph_blocks s3) as (Hstart & Hrun & Hidle).
  rewrite Ep, Em in *.
  intros Hm'. destruct (morph_starts s3) eqn:Es.
  - destruct (Hstart eq_refl) as (_ & _ & _ & -> & _).
    exists 1%nat. split; [lia|reflexivity].
  - destruct (is_morphing st) eqn:Emst.
    + destruct (Hinv eq_refl) as (k & Hk & Epk).
      destruct (Hrun eq_refl eq_refl) as (Hge & Hlt).
      destruct (progress_chain k Hk) as (_ & _ & _ & Hk').
      rewrite Epk in *.
      destruct (F32.ge (F32.add (progress_after k) f_0_05) f_1) eqn:Eq.
      * destruct (Hge eq_refl) as [_ E]. congruence.
      * destruct (Hlt eq_refl) as [-> _].
        exists (S k). split; [specialize (Hk' eq_refl); lia|reflexivity].
    + destruct (Hidle eq_refl eq_refl) as (_ & E & _). congruence.
Qed.

Lemma counter_range_update st :
  0 <= direction_change_counter st <= 8 ->
  0 <= direction_change_counter (update_animation_state st) <= 8.
Proof.
  intros Hc. destruct (update_lateral st) as (_ & _ & ->).
  destruct (direction_reversal_counter st Hc) as (Hlt & Heq).
  destruct (Z.eq_dec (direction_change_counter st) 8) as [E|E].
  - destruct (Heq E) as [-> _]. lia.
  - destruct Hlt as [-> _]; lia.
Qed.

Lemma unit_direction_update st :
  unit_direction (x_direction st) ->
  unit_direction (x_direction (update_animation_state st)).
Proof.
  intros Hd. destruct (update_lateral st) as (_ & -> & _).
  pose proof (unit_direction_reversal st Hd) as Hd1.
  unfold lateral_offset.
  destruct (F32.gt _ _); [right; reflexivity|].
  destruct (F32.lt _ _); [left; reflexivity|exact Hd1].
Qed.

(** Every state of a run has a unit direction, a reversal counter in 0..8
    and, while morphing, a progress on the chain of 0.05 steps. *)
Lemma reachable_invariants st :
  reachable st ->
  unit_direction (x_direction st)
  /\ 0 <= direction_change_counter st <= 8
  /\ morph_invariant st.
Proof.
  induction 1 as [|db st st1 Hr IH Hs|st Hr IH|st l d Hr IH|st f Hr IH].
  - split; [left; reflexivity|]. split; [cbn; lia|]. intros H. discriminate H.
  - destruct IH as (Hd & Hc & Hm).
    unfold startup_state in Hs.
    destruct (random_pentacube (seed st)) as [cur s1].
    destruct (random_pentacube s1) as [next s2].
    step_exec Hs. injection Hs as <-. repeat split; assumption || apply Hc.
  - destruct IH as (Hd & Hc & Hm).
    split; [now apply unit_direction_update|].
    split; [now apply counter_range_update|now apply morph_invariant_update].
  - exact IH.
  - exact IH.
Qed.

(** The states that the frames and the timer callback return are reachable. *)
Lemma culled_frame_reachable cosf sinf opa db fresh st st' out :
  reachable st ->
  Culled.draw_pentacube_frame cosf sinf opa db fresh st = Ok (st', out) ->
  reachable st'.
Proof.
  intros Hr Hf. destruct (culled_frame_state _ _ _ _ _ _ _ _ Hf) as (l & d & ->).
  now apply reachable_statics, reachable_update.
Qed.

Lemma culled_timer_cb_reachable cosf sinf opa db fresh st st' out :
  reachable st ->
  Culled.animation_timer_cb cosf sinf opa db fresh st = Ok (st', out) ->
  reachable st'.
Proof.
  intros Hr. unfold Culled.animation_timer_cb. intros H.
  destruct (Culled.draw_pentacube_frame cosf sinf opa db fresh st)
    as [[s o]|] eqn:Hf; cbn [mbind exec_bind] in H; [|discriminate H].
  injection H as <- _.
  apply reachable_frame_counter. eapply culled_frame_reachable; eauto.
Qed.

(** ** Lateral offset, continued *)

(** C4, as amended. From every reachable state whose lateral offset is a
    number, a tick ends with -15.0 <= x_offset <= 15.0 and a unit direction;
    when the advanced offset is above 15.0 (below -15.0) the offset is set to
    that bound and the direction to -1.0 (to 1.0), which points inward for
    the next tick. The state that [draw_pentacube_frame] returns has the same
    lateral fields, so this holds after each frame, the first frame of
    startup included. Nothing bounds the value assigned at startup before
    that first tick. *)
Theorem lateral_offset_bounded_after_tick (st : render_state) :
  reachable st ->
  F32.is_nan (x_offset st) = false ->
  let x := advanced_offset (direction_reversal st) in
  let st' := update_animation_state st in
  within_bounds (x_offset st')
  /\ unit_direction (x_direction st')
  /\ F32.is_nan (x_offset st') = false
  /\ (F32.gt x f_15 = true ->
      x_offset st' = f_15 /\ x_direction st' = F32.opp f_1)
  /\ (F32.gt x f_15 = false -> F32.lt x (F32.opp f_15) = true ->
      x_offset st' = F32.opp f_15 /\ x_direction st' = f_1)
  /\ (F32.gt x f_15 = false -> F32.lt x (F32.opp f_15) = false ->
      x_offset st' = x)
  /\ (forall cosf sinf opa db fresh st2 out,
        Culled.draw_pentacube_frame cosf sinf opa db fresh st = Ok (st2, out) ->
        x_offset st2 = x_offset st' /\ x_direction st2 = x_direction st').
Proof.
  intros Hr Hx. destruct (reachable_invariants st Hr) as (Hd & _).
  cbv zeta. apply is_nan_false in Hx.
  destruct (update_lateral st) as (Ex & Ed & _).
  destruct (direction_reversal_fields st) as (Ex1 & _).
  destruct (lateral_offset_spec (direction_reversal st))
    as (Hb & Hu & Hn & Hhi & Hlo & Hmid).
  { now rewrite Ex1. }
  { now apply unit_direction_reversal. }
  rewrite Ex, Ed.
  split; [exact Hb|]. split; [exact Hu|]. split; [now apply is_nan_false|].
  split; [exact Hhi|]. split; [exact Hlo|].
  split; [intros H1 H2; now destruct (Hmid H1 H2)|].
  intros cosf sinf opa db fresh st2 out Hf.
  destruct (culled_frame_state _ _ _ _ _ _ _ _ Hf) as (l & d & ->).
  destruct (set_frame_statics_fields l d (update_animation_state st))
    as (-> & -> & _).
  rewrite Ex, Ed. split; reflexivity.
Qed.

Lemma lateral_offset_bounded_after_tick_witness :
  within_bounds (x_offset (update_animation_state initial_state)).
Proof.
  destruct (lateral_offset_bounded_after_tick initial_state) as [H _].
  - apply reachable_initial.
  - reflexivity.
  - exact H.
Defined.

(** C4, counterexample to the claim as stated. With a mesh table that holds
    the straight pentacube, whose vertices have mean x = 2.5, the state that
    startup establishes before its first frame is reachable and has
    x_offset = -20.0, which is below -15.0; the first tick then clamps it. *)
Lemma startup_offset_below_bound :
  exists st1,
    startup_state (replicate 29 bar) initial_state = Ok st1
    /\ reachable st1
    /\ x_offset st1 = F32.opp (F32.of_int 20)
    /\ F32.lt (x_offset st1) (F32.opp f_15) = true
    /\ ~ within_bounds (x_offset st1).
Proof.
  assert (Hs : startup_state (replicate 29 bar) initial_state = Ok started_on_bar)
    by (vm_compute; reflexivity).
  exists started_on_bar. split; [exact Hs|].
  split; [exact (reachable_startup _ _ _ reachable_initial Hs)|].
  split; [vm_compute; reflexivity|]. split; [vm_compute; reflexivity|].
  intros [H _]. vm_compute in H. discriminate H.
Qed.

(** ** Morph progress, continued *)

(** C5. In every reachable state with the morphing flag set, a tick never
    lowers the progress: it becomes progress + 0.05, or exactly 1.0 with the
    flag cleared as soon as that sum reaches or exceeds 1.0. On the tick
    where the depth exceeds the threshold while the flag is clear, the
    trigger block sets the progress to exactly 0.0 and sets the flag; the
    progress block of the same tick then adds its first 0.05 to that zero.
    On the other ticks with the flag clear the progress is left as it is. *)
Theorem morph_progress_monotone_clamped_reset (st : render_state) :
  reachable st ->
  let st' := update_animation_state st in
  let q := F32.add (morphing_progress st) f_0_05 in
  (is_morphing st = true ->
   F32.le (morphing_progress st) (morphing_progress st') = true
   /\ (F32.ge q f_1 = true ->
       morphing_progress st' = f_1 /\ is_morphing st' = false)
   /\ (F32.ge q f_1 = false ->
       morphing_progress st' = q /\ is_morphing st' = true))
  /\ (is_morphing st = false -> tick_starts_morph st = true ->
      morphing_progress
        (morph_trigger (depth (lateral_offset (direction_reversal st))))
      = F32.zero
      /\ is_morphing
           (morph_trigger (depth (lateral_offset (direction_reversal st))))
         = true
      /\ morphing_progress st' = F32.add F32.zero f_0_05
      /\ is_morphing st' = true)
  /\ (is_morphing st = false -> tick_starts_morph st = false ->
      morphing_progress st' = morphing_progress st /\ is_morphing st' = false).
Proof.
  intros Hr. destruct (reachable_invariants st Hr) as (_ & _ & Hinv).
  cbv zeta. unfold tick_starts_morph, morph_invariant in *.
  destruct (update_morph st) as (-> & -> & _ & Ep & Em & _).
  set (s3 := depth (lateral_offset (direction_reversal st))) in *.
  destruct (morph_blocks s3) as (Hstart & Hrun & Hidle).
  rewrite Ep, Em in *.
  assert (Hs : is_morphing st = true -> morph_starts s3 = false).
  { intros H. unfold morph_starts. rewrite Em, H. apply andb_false_r. }
  split; [|split].
  - intros Hm. specialize (Hs Hm).
    destruct (Hrun Hs Hm) as (Hge & Hlt).
    split; [|split; assumption].
    destruct (Hinv Hm) as (k & Hk & Epk).
    destruct (progress_chain k Hk) as (Hle & Hle1 & _).
    rewrite Epk in *.
    destruct (F32.ge (F32.add (progress_after k) f_0_05) f_1) eqn:Eq.
    + destruct (Hge eq_refl) as [-> _]. exact Hle1.
    + destruct (Hlt eq_refl) as [-> _]. exact Hle.
  - intros _ Hst. destruct (Hstart Hst) as (H1 & H2 & _ & H3 & H4). auto.
  - intros Hm Hst. destruct (Hidle Hst Hm) as (H1 & H2 & _). auto.
Qed.

Lemma started_on_bar_reachable :
  startup_state (replicate 29 bar) initial_state = Ok started_on_bar.
Proof. vm_compute. reflexivity. Qed.

Lemma morph_progress_monotone_clamped_reset_witness :
  is_morphing (update_animation_state started_on_bar) = true
  /\ F32.le (morphing_progress (update_animation_state started_on_bar))
       (morphing_progress
          (update_animation_state (update_animation_state started_on_bar)))
     = true.
Proof.
  split; [vm_compute; reflexivity|].
  destruct (morph_progress_monotone_clamped_reset
              (update_animation_state started_on_bar)) as (H & _).
  - apply reachable_update.
    apply (reachable_startup (replicate 29 bar) initial_state);
      [apply reachable_initial|apply started_on_bar_reachable].
  - destruct H as [Hle _]; [vm_compute; reflexivity|exact Hle].
Defined.

(** ** Direction reversal, continued *)

(** C6, as amended. In every reachable state the counter is within 0..8
    and is incremented on each tick. The draw takes
    place on the tick where the incremented counter exceeds 8, which, from a
    counter of 0, is every ninth tick and not every eighth: on the first
    eight ticks the counter goes from 1 to 8 and neither the direction nor
    the seed is touched by this block; on the ninth, [simple_rand() % 3 == 0]
    decides whether the sign of the direction is flipped, and the counter is
    set to 0 whether or not it was. *)
Theorem direction_reversal_every_ninth_tick (st : render_state) :
  reachable st ->
  let s1 := direction_reversal st in
  direction_change_counter (update_animation_state st)
  = direction_change_counter s1
  /\ (direction_change_counter st < 8 ->
      direction_change_counter s1 = direction_change_counter st + 1
      /\ x_direction s1 = x_direction st
      /\ seed s1 = seed st)
  /\ (direction_change_counter st = 8 ->
      direction_change_counter s1 = 0
      /\ seed s1 = snd (simple_rand (seed st))
      /\ x_direction s1
         = if Int.rem (fst (simple_rand (seed st))) 3 =? 0
           then F32.opp (x_direction st) else x_direction st)
  /\ (direction_change_counter st = 0 ->
      (forall k : nat, (k <= 8)%nat ->
         direction_change_counter (Nat.iter k update_animation_state st)
         = Z.of_nat k)
      /\ direction_change_counter (Nat.iter 9 update_animation_state st) = 0).
Proof.
  intros Hr. destruct (reachable_invariants st Hr) as (_ & Hc & _).
  cbv zeta.
  destruct (update_lateral st) as (_ & _ & Ecnt).
  destruct (direction_reversal_counter st Hc) as (Hlt & Heq).
  split; [exact Ecnt|]. split; [exact Hlt|]. split; [exact Heq|].
  intros H0.
  assert (Hk : forall k : nat, (k <= 8)%nat ->
             direction_change_counter (Nat.iter k update_animation_state st)
             = Z.of_nat k).
  { induction k as [|k IH]; intros Hk8; [exact H0|].
    rewrite Nat.iter_succ. specialize (IH ltac:(lia)).
    destruct (update_lateral (Nat.iter k update_animation_state st))
      as (_ & _ & ->).
    destruct (direction_reversal_counter
                (Nat.iter k update_animation_state st)) as ([-> _] & _); lia. }
  split; [exact Hk|].
  rewrite Nat.iter_succ. specialize (Hk 8%nat ltac:(lia)).
  match goal with
  | |- direction_change_counter (update_animation_state ?s) = _ =>
      destruct (update_lateral s) as (_ & _ & ->);
      destruct (direction_reversal_counter s) as (_ & Hnine)
  end.
  - rewrite Hk. lia.
  - destruct Hnine as [-> _]; [exact Hk|reflexivity].
Qed.

Lemma direction_reversal_every_ninth_tick_witness :
  direction_change_counter (Nat.iter 9 update_animation_state initial_state) = 0.
Proof.
  destruct (direction_reversal_every_ninth_tick initial_state)
    as (_ & _ & _ & H).
  - apply reachable_initial.
  - destruct H as [_ H]; [reflexivity|exact H].
Defined.

(** C6, counterexample to the claim as stated. From the initial state, eight
    ticks leave the counter at 8 and the seed at its initial value: no draw
    has taken place and nothing was reset. The ninth tick draws and resets. *)
Lemma no_draw_on_the_eighth_tick :
  let st8 := Nat.iter 8 update_animation_state initial_state in
  direction_change_counter st8 = 8
  /\ seed st8 = initial_seed
  /\ direction_change_counter (update_animation_state st8) = 0
  /\ seed (update_animation_state st8) = fst (simple_rand initial_seed).
Proof. vm_compute. repeat split. Qed.

(** ** Frames *)

Lemma iterate_invariant {S : Type} (P : S -> Prop) (body : Z -> S -> exec S) :
  (forall i s s', P s -> body i s = Ok s' -> P s') ->
  forall idx acc r, P acc -> iterate body idx acc = Ok r -> P r.
Proof.
  intros Hbody. induction idx as [|i idx IH]; intros acc r Hacc H; cbn in H.
  - now injection H as <-.
  - destruct (body i acc) as [s|] eqn:E; [|discriminate H].
    cbn in H. eapply IH; [|exact H]. eapply Hbody; eauto.
Qed.

Lemma lines_have_opa_app opa out1 out2 :
  lines_have_opa opa out1 -> lines_have_opa opa out2 ->
  lines_have_opa opa (out1 ++ out2).
Proof. apply Forall_app_2. Qed.

Lemma no_line_have_opa opa out :
  Forall (fun e => is_line e = false) out -> lines_have_opa opa out.
Proof.
  intros H. eapply Forall_impl; [exact H|]. intros e H1 H2. congruence.
Qed.

Lemma culled_draw_edge_lines sc es opa n r :
  for_loop n (Culled.draw_edge sc es opa) ([], 0) = Ok r ->
  lines_have_opa opa (fst r).
Proof.
  unfold for_loop.
  apply (iterate_invariant (fun acc => lines_have_opa opa (fst acc))).
  - intros i [drawn k] s' Hacc H. unfold Culled.draw_edge in H.
    do 5 step_exec H. injection H as <-. cbn [fst] in *.
    apply lines_have_opa_app; [exact Hacc|]. repeat constructor.
  - constructor.
Qed.

Lemma culled_face_log_no_line p sc dbg n acc r :
  Forall (fun e => is_line e = false) (face_log acc) ->
  for_loop n (Culled.process_face p sc dbg) acc = Ok r ->
  Forall (fun e => is_line e = false) (face_log r).
Proof.
  intros Hacc. unfold for_loop.
  apply (iterate_invariant
           (fun a => Forall (fun e => is_line e = false) (face_log a)));
    [|exact Hacc].
  intros i s s' Hs H. unfold Culled.process_face in H.
  step_exec H.
  destruct (Culled.face_cross p sc (face_vert_idx s))
    as [[[vis cross] [[v0 v1] v2]]|]; cbn [mbind exec_bind] in H;
    [|discriminate H].
  step_exec H. destruct a0 as [es cnt]. injection H as <-. cbn [face_log].
  apply Forall_app_2; [exact Hs|]. destruct dbg; repeat constructor.
Qed.

Lemma opacity_of_zero_progress opa :
  0 <= opa <= 255 ->
  F32.to_uint8 (F32.mul (F32.of_int opa) F32.zero) = Ok 0.
Proof.
  intros H.
  assert (Hall : forallb
                   (fun n => match F32.to_uint8 (F32.mul (F32.of_int n) F32.zero) with
                             | Ok 0 => true
                             | _ => false
                             end) (seqZ 0 256) = true) by (vm_compute; reflexivity).
  rewrite forallb_forall in Hall. specialize (Hall opa).
  destruct (F32.to_uint8 (F32.mul (F32.of_int opa) F32.zero)) as [[| |]|];
    try reflexivity; exfalso;
    (assert (Hin : In opa (seqZ 0 256))
       by (apply list_elem_of_In, elem_of_seqZ; lia));
    specialize (Hall Hin); discriminate Hall.
Qed.

Lemma culled_frame_lines cosf sinf opa db fresh st st2 out o :
  Culled.frame_opacity opa (update_animation_state st) = Ok o ->
  Culled.draw_pentacube_frame cosf sinf opa db fresh st = Ok (st2, out) ->
  lines_have_opa o out.
Proof.
  intros Ho. unfold Culled.draw_pentacube_frame. intros H. cbv zeta in H.
  remember (update_animation_state st) as st1 eqn:Est1.
  step_exec H. rewrite Ho in H. cbn [mbind exec_bind] in H.
  step_exec H. destruct a0 as [rotated_verts screen_coords].
  step_exec H. step_exec H. destruct a1 as [drawn lines_drawn].
  injection H as _ Hout. subst out.
  apply culled_draw_edge_lines in E2. cbn [fst] in E2.
  apply culled_face_log_no_line in E1; [|constructor].
  apply (no_line_have_opa o) in E1.
  unfold lines_have_opa in *.
  repeat match goal with
         | |- context [if ?b then _ else _] => destruct b
         end;
    repeat first [ assumption
                 | apply Forall_nil_2
                 | apply Forall_cons_2; [intros Hl; discriminate Hl|]
                 | apply Forall_app_2 ].
Qed.

Lemma before_first_morph_tick st :
  before_first_morph st ->
  let st' := update_animation_state st in
  (tick_starts_morph st = false ->
   before_first_morph st' /\ current_pentacube st' = current_pentacube st)
  /\ (tick_starts_morph st = true ->
      is_morphing st' = true /\ current_pentacube st' = next_pentacube st).
Proof.
  intros [Hm Hp]. cbv zeta. unfold tick_starts_morph, before_first_morph.
  destruct (update_morph st) as (-> & -> & -> & Ep & Em & Ec).
  set (s3 := depth (lateral_offset (direction_reversal st))) in *.
  destruct (morph_blocks s3) as (Hstart & _ & Hidle).
  split; intros Hs.
  - destruct (Hidle Hs) as (-> & -> & ->); [congruence|].
    rewrite Ep, Ec. auto.
  - destruct (Hstart Hs) as (_ & _ & Hc & _ & ->). split; [reflexivity|].
    unfold morph_progress, morph_trigger. rewrite Hs.
    destruct (random_pentacube (seed s3)) as [r s'].
    cbn [is_morphing morphing_progress].
    change (F32.ge (F32.add F32.zero f_0_05) f_1) with false.
    cbn [set_morph current_pentacube].
    subst s3. cbn [depth next_pentacube].
    unfold lateral_offset, direction_reversal.
    repeat match goal with
           | |- context [if ?b then _ else _] => destruct b
           | |- context [let '(_, _) := ?p in _] => destruct p
           end; reflexivity.
Qed.

Lemma startup_state_fields db st st1 :
  startup_state db st = Ok st1 ->
  morphing_progress st1 = morphing_progress st
  /\ is_morphing st1 = is_morphing st
  /\ x_direction st1 = x_direction st.
Proof.
  unfold startup_state. intros H.
  destruct (random_pentacube (seed st)) as [cur s1].
  destruct (random_pentacube s1) as [next s2].
  step_exec H. injection H as <-. repeat split.
Qed.

Lemma culled_timer_cb_inv cosf sinf opa db fresh st st1 out :
  Culled.animation_timer_cb cosf sinf opa db fresh st = Ok (st1, out) ->
  exists st', Culled.draw_pentacube_frame cosf sinf opa db fresh st = Ok (st', out)
    /\ morphing_progress st1 = morphing_progress st'
    /\ is_morphing st1 = is_morphing st'
    /\ current_pentacube st1 = current_pentacube st'.
Proof.
  unfold Culled.animation_timer_cb. intros H.
  destruct (Culled.draw_pentacube_frame cosf sinf opa db fresh st)
    as [[st' out']|]; cbn [mbind exec_bind] in H; [|discriminate H].
  injection H as <- <-. exists st'. repeat split.
Qed.

Lemma culled_frame_before_first_morph cosf sinf opa db fresh st st' out :
  0 <= opa <= 255 ->
  before_first_morph st ->
  Culled.draw_pentacube_frame cosf sinf opa db fresh st = Ok (st', out) ->
  (tick_starts_morph st = false ->
   before_first_morph st'
   /\ current_pentacube st' = current_pentacube st
   /\ Culled.frame_opacity opa st' = Ok 0
   /\ lines_have_opa 0 out)
  /\ (tick_starts_morph st = true ->
      is_morphing st' = true
      /\ current_pentacube st' = next_pentacube st).
Proof.
  intros Hopa Hb Hf.
  destruct (culled_frame_state _ _ _ _ _ _ _ _ Hf) as (l & d & Est).
  destruct (before_first_morph_tick st Hb) as (Hidle & Hstart).
  destruct (set_frame_statics_fields l d (update_animation_state st))
    as (_ & _ & Ep & Em & Ec).
  rewrite <- Est in Ep, Em, Ec.
  split.
  - intros Hs. destruct (Hidle Hs) as ([Hm Hp] & Hc).
    assert (Ho : Culled.frame_opacity opa (update_animation_state st) = Ok 0).
    { unfold Culled.frame_opacity. rewrite Hp.
      now apply opacity_of_zero_progress. }
    split; [split; congruence|]. split; [congruence|]. split.
    + unfold Culled.frame_opacity in *. rewrite Ep. exact Ho.
    + eapply culled_frame_lines; [exact Ho|exact Hf].
  - intros Hs. destruct (Hstart Hs) as [H1 H2]. split; congruence.
Qed.

Lemma culled_run_ticks_S cosf sinf opa db fresh n st :
  Culled.run_ticks cosf sinf opa db fresh (S n) st
  = '(st1, out1) ← Culled.animation_timer_cb cosf sinf opa db fresh st;
    '(st2, out2) ← Culled.run_ticks cosf sinf opa db fresh n st1;
    Ok (st2, out1 ++ out2).
Proof. reflexivity. Qed.

(** C9. The initial state has the morphing flag clear and a progress of
    exactly 0.0, and startup keeps both. From such a state, as long as no
    tick has started a morph, every frame leaves the flag clear, the progress
    at 0.0 and the current mesh unchanged, computes an opacity of 0 (for an
    [LV_OPA_COVER] in 0..255), and draws each of its lines with that opacity:
    the mesh selected at startup is drawn fully transparent. The tick that
    starts the first morph replaces the current mesh by the next one. *)
Theorem first_shape_transparent_until_first_morph
    (cosf sinf : F32.t -> F32.t) (LV_OPA_COVER : Z)
    (pentacube_data : list pentacube_data_t) (fresh_edge_set : list edge_t) :
  0 <= LV_OPA_COVER <= 255 ->
  before_first_morph initial_state
  /\ (forall st st1,
        before_first_morph st -> startup_state pentacube_data st = Ok st1 ->
        before_first_morph st1)
  /\ (forall st st' out,
        before_first_morph st ->
        Culled.draw_pentacube_frame cosf sinf LV_OPA_COVER pentacube_data
          fresh_edge_set st = Ok (st', out) ->
        (tick_starts_morph st = false ->
         before_first_morph st'
         /\ current_pentacube st' = current_pentacube st
         /\ Culled.frame_opacity LV_OPA_COVER st' = Ok 0
         /\ lines_have_opa 0 out)
        /\ (tick_starts_morph st = true ->
            is_morphing st' = true
            /\ current_pentacube st' = next_pentacube st))
  /\ (forall n st st' out,
        before_first_morph st ->
        (forall k stk outk, (k < n)%nat ->
           Culled.run_ticks cosf sinf LV_OPA_COVER pentacube_data
             fresh_edge_set k st = Ok (stk, outk) ->
           tick_starts_morph stk = false) ->
        Culled.run_ticks cosf sinf LV_OPA_COVER pentacube_data
          fresh_edge_set n st = Ok (st', out) ->
        before_first_morph st'
        /\ current_pentacube st' = current_pentacube st
        /\ lines_have_opa 0 out).
Proof.
  intros Hopa.
  split; [split; exact eq_refl|]. split; [|split].
  - intros st st1 [Hm Hp] Hs.
    destruct (startup_state_fields _ _ _ Hs) as (Ep & Em & _).
    split; congruence.
  - intros st st' out Hb Hf.
    exact (culled_frame_before_first_morph _ _ _ _ _ _ _ _ Hopa Hb Hf).
  - induction n as [|n IH]; intros st st' out Hb Hquiet Hrun.
    + injection Hrun as <- <-.
      split; [exact Hb|]. split; [reflexivity|constructor].
    + rewrite culled_run_ticks_S in Hrun.
      destruct (Culled.animation_timer_cb cosf sinf LV_OPA_COVER pentacube_data
                  fresh_edge_set st) as [[st1 out1]|] eqn:Ecb;
        cbn [mbind exec_bind] in Hrun; [|discriminate Hrun].
      destruct (Culled.run_ticks cosf sinf LV_OPA_COVER pentacube_data
                  fresh_edge_set n st1) as [[st2 out2]|] eqn:Erun;
        cbn [mbind exec_bind] in Hrun; [|discriminate Hrun].
      injection Hrun as <- <-.
      destruct (culled_timer_cb_inv _ _ _ _ _ _ _ _ Ecb)
        as (sf & Hf & Ep & Em & Ec).
      destruct (culled_frame_before_first_morph _ _ _ _ _ _ _ _ Hopa Hb Hf)
        as (Hidle & _).
      destruct Hidle as ([Hm Hp] & Hc & _ & Hl).
      { apply (Hquiet 0%nat st []); [lia|reflexivity]. }
      assert (Hb1 : before_first_morph st1) by (split; congruence).
      destruct (IH st1 st2 out2 Hb1) as (Hb2 & Hc2 & Hl2).
      * intros k stk outk Hk Hrk.
        apply (Hquiet (S k) stk (out1 ++ outk)); [lia|].
        rewrite culled_run_ticks_S, Ecb. cbn [mbind exec_bind].
        rewrite Hrk. reflexivity.
      * exact Erun.
      * split; [exact Hb2|]. split; [congruence|].
        now apply lines_have_opa_app.
Qed.

Lemma first_shape_transparent_until_first_morph_witness :
  exists st1 st' out,
    startup_state (replicate 29 cube) initial_state = Ok st1
    /\ Culled.draw_pentacube_frame cos_at_0 sin_at_0 255 (replicate 29 cube)
         zeroed_edge_set st1 = Ok (st', out)
    /\ lines_have_opa 0 out
    /\ length (filter (fun e => is_line e = true) out) = 4%nat.
Proof.
  destruct (startup_state (replicate 29 cube) initial_state) as [st1|] eqn:Es;
    [|vm_compute in Es; discriminate Es].
  destruct (Culled.draw_pentacube_frame cos_at_0 sin_at_0 255 (replicate 29 cube)
              zeroed_edge_set st1) as [[st' out]|] eqn:Ef.
  2:{ vm_compute in Es. injection Es as <-. vm_compute in Ef. discriminate Ef. }
  exists st1, st', out. split; [reflexivity|]. split; [exact Ef|].
  destruct (first_shape_transparent_until_first_morph
              cos_at_0 sin_at_0 255 (replicate 29 cube) zeroed_edge_set)
    as (Hinit & Hstart & Hframe & _); [lia|].
  destruct (Hframe st1 st' out (Hstart _ _ Hinit Es) Ef) as (Hidle & _).
  vm_compute in Es. injection Es as <-.
  destruct Hidle as (_ & _ & _ & Hl); [vm_compute; reflexivity|].
  split; [exact Hl|].
  vm_compute in Ef. injection Ef as <- <-. reflexivity.
Defined.

(** ** The un-culled renderer *)

Section FallbackFacts.

Variables cosf sinf : F32.t -> F32.t.
Variable st : render_state.
Variable p : pentacube_data_t.
Variable angles : F32.t * F32.t * F32.t.
Variable opacity : Z.


Lemma invalid_vertex_index_iff a b n :
  Fallback.invalid_vertex_index a b n = true <-> a >= n \/ b >= n.
Proof. unfold Fallback.invalid_vertex_index. rewrite orb_true_iff. lia. Qed.

Lemma read_lookup_total {A : Type} `{Inhabited A} (a : array_id) (l : list A) (i : Z) :
  0 <= i <= Int.max_signed -> i < Z.of_nat (length l) ->
  read a l i = Ok (l !!! Z.to_nat i).
Proof.
  intros Hi Hl.
  destruct (lookup_lt_is_Some_2 l (Z.to_nat i) ltac:(lia)) as [x Hx].
  rewrite (list_lookup_total_correct _ _ _ Hx).
  rewrite <- (Z2Nat.id i) at 1 by lia. apply read_Some; [exact Hx|lia].
Qed.

(** One turn of the edge loop appends what [edge_output] says, and counts
    the line if there is one. *)
Lemma fallback_draw_edge_spec (edge_idx : Z) (out : list event) (n : Z) :
  mesh_ok p ->
  Forall (fun v => 0 <= v) (edges p) ->
  (forall v, 0 <= v < vertex_count p -> exists xy, Fallback.vertex_screen cosf sinf st p angles v = Ok xy) ->
  0 <= edge_idx < edge_count p ->
  Fallback.draw_edge cosf sinf st p angles opacity edge_idx (out, n)
  = Ok (out ++ Fallback.edge_output cosf sinf st p angles opacity edge_idx,
        if Fallback.edge_passes p edge_idx then Int.add n 1 else n).
Proof.
  intros (Hvc & Hvl & Hec & Hel & Hvm & Hem) Hnn Hproj Hk.
  unfold Fallback.draw_edge, Fallback.edge_output, Fallback.edge_passes.
  destruct angles as [[angle_x angle_y] angle_z] eqn:Eang.
  rewrite !read_lookup_total by lia. cbn [mbind exec_bind].
  set (a := edges p !!! Z.to_nat (edge_idx * 2)).
  set (b := edges p !!! Z.to_nat (edge_idx * 2 + 1)).
  destruct (Fallback.invalid_vertex_index a b (vertex_count p)) eqn:Einv;
    [reflexivity|].
  assert (Hab : a < vertex_count p /\ b < vertex_count p).
  { destruct (Z_lt_ge_dec a (vertex_count p)), (Z_lt_ge_dec b (vertex_count p));
      try (split; assumption);
      exfalso; assert (Fallback.invalid_vertex_index a b (vertex_count p) = true)
        by (apply invalid_vertex_index_iff; auto); congruence. }
  assert (Ha : 0 <= a).
  { rewrite Forall_forall in Hnn. apply Hnn. subst a.
    apply list_elem_of_lookup_total_2. lia. }
  assert (Hb : 0 <= b).
  { rewrite Forall_forall in Hnn. apply Hnn. subst b.
    apply list_elem_of_lookup_total_2. lia. }
  destruct (Hproj a ltac:(lia)) as [[x1 y1] Hs1].
  destruct (Hproj b ltac:(lia)) as [[x2 y2] Hs2].
  rewrite Hs1, Hs2. unfold Fallback.vertex_screen in Hs1, Hs2.
  destruct (centred_vertex (vertices p) a) as [[[ax ay] az]|];
    cbn [mbind exec_bind] in Hs1 |- *; [|discriminate Hs1].
  destruct (centred_vertex (vertices p) b) as [[[bx b_y] bz]|];
    cbn [mbind exec_bind] in Hs2 |- *; [|discriminate Hs2].
  destruct (rotate_point cosf sinf ax ay az angle_x angle_y angle_z)
    as [[rax ray] raz].
  destruct (rotate_point cosf sinf bx b_y bz angle_x angle_y angle_z)
    as [[rbx rby] rbz].
  rewrite Hs1, Hs2. reflexivity.
Qed.

Lemma fallback_edge_loop (m : nat) :
  mesh_ok p ->
  Forall (fun v => 0 <= v) (edges p) ->
  (forall v, 0 <= v < vertex_count p -> exists xy, Fallback.vertex_screen cosf sinf st p angles v = Ok xy) ->
  Z.of_nat m <= edge_count p ->
  for_loop (Z.of_nat m) (Fallback.draw_edge cosf sinf st p angles opacity) ([], 0)
  = Ok (flat_map (Fallback.edge_output cosf sinf st p angles opacity) (seqZ 0 (Z.of_nat m)),
        Z.of_nat (length (filter (fun k => Fallback.edge_passes p k = true)
                            (seqZ 0 (Z.of_nat m))))).
Proof.
  intros Hok Hnn Hproj. unfold for_loop.
  induction m as [|m IH]; intros Hm; [reflexivity|].
  rewrite seqZ_S, iterate_app, IH by lia. cbn [mbind exec_bind iterate].
  rewrite Z.add_0_l.
  rewrite (fallback_draw_edge_spec _ _ _ Hok Hnn Hproj) by lia.
  cbn [mbind exec_bind]. rewrite flat_map_app, filter_app, length_app.
  cbn [flat_map]. rewrite app_nil_r. f_equal. f_equal.
  rewrite filter_cons, filter_nil.
  set (n := length (filter _ (seqZ 0 (Z.of_nat m)))).
  assert (Hn : (n <= m)%nat).
  { subst n. etransitivity; [apply length_filter|].
    rewrite length_seqZ. lia. }
  destruct Hok as (_ & _ & _ & _ & _ & Hmax).
  destruct (Fallback.edge_passes p (Z.of_nat m)) eqn:E.
  - rewrite decide_True by reflexivity. cbn [length].
    unfold Int.add. rewrite wrap_small; [lia|].
    unfold Int.in_range, Int.min_signed, Int.max_signed in *. lia.
  - rewrite decide_False by discriminate. cbn [length]. lia.
Qed.

End FallbackFacts.


Lemma fallback_draw_edge_invalid cosf sinf st p angles opacity edge_idx out n
    v1_idx v2_idx :
  read ArrEdges (edges p) (edge_idx * 2) = Ok v1_idx ->
  read ArrEdges (edges p) (edge_idx * 2 + 1) = Ok v2_idx ->
  Fallback.invalid_vertex_index v1_idx v2_idx (vertex_count p) = true ->
  Fallback.draw_edge cosf sinf st p angles opacity edge_idx (out, n)
  = Ok (out ++ [PrintInvalidVertex edge_idx v1_idx v2_idx
                  (vertex_count p) (name p)], n).
Proof.
  destruct angles as [[angle_x angle_y] angle_z]. intros Ha Hb Hinv.
  unfold Fallback.draw_edge. rewrite Ha, Hb. cbn [mbind exec_bind].
  now rewrite Hinv.
Qed.

(** C7. In the renderer that draws the precomputed edge list, a turn of the
    edge loop on an edge with an index at or above the vertex count (such as
    an index equal to it) appends one error report, draws nothing, leaves
    the line count alone and returns normally. On a mesh whose arrays have
    the announced sizes, whose edge indices are not negative and whose
    vertices all project, a frame never faults and its output is, edge by
    edge and in order, one error report for each such edge and one line for
    every other edge: the in-range edges after an out-of-range edge are
    drawn as if it were not there. The number of lines drawn is the number
    of in-range edges. *)
Theorem invalid_edge_skipped_and_rendering_continues
    (cosf sinf : F32.t -> F32.t) (LV_OPA_COVER : Z)
    (pentacube_data : list pentacube_data_t)
    (st : render_state) (p : pentacube_data_t) (opacity : Z) :
  let st1 := update_animation_state st in
  read ArrPentacubeData pentacube_data (current_pentacube st1) = Ok p ->
  Fallback.frame_opacity LV_OPA_COVER st1 = Ok opacity ->
  mesh_ok p ->
  Forall (fun v => 0 <= v) (edges p) ->
  (forall v, 0 <= v < vertex_count p ->
     exists xy, Fallback.vertex_screen cosf sinf st1 p (axis_angles st1) v = Ok xy) ->
  exists st' report,
    Fallback.draw_pentacube_frame cosf sinf LV_OPA_COVER pentacube_data st
    = Ok (st',
          [CanvasFillBg LV_OPA_COVER; LabelSetText (name p)]
          ++ flat_map
               (Fallback.edge_output cosf sinf st1 p (axis_angles st1) opacity)
               (seqZ 0 (edge_count p))
          ++ report)
    /\ (report = []
        \/ report
           = [PrintPentacubeEdges (name p) (edge_count p)
                (Z.of_nat
                   (length (filter (fun k => Fallback.edge_passes p k = true)
                              (seqZ 0 (edge_count p)))))])
    /\ (forall k, 0 <= k < edge_count p ->
        Fallback.edge_passes p k = false ->
        Fallback.edge_output cosf sinf st1 p (axis_angles st1) opacity k
        = [PrintInvalidVertex k
             (edges p !!! Z.to_nat (k * 2)) (edges p !!! Z.to_nat (k * 2 + 1))
             (vertex_count p) (name p)])
    /\ (forall k, 0 <= k < edge_count p ->
        Fallback.edge_passes p k = true ->
        exists x1 y1 x2 y2,
          Fallback.edge_output cosf sinf st1 p (axis_angles st1) opacity k
          = [CanvasDrawLine x1 y1 x2 y2 opacity])
    /\ (forall edge_idx out n v1_idx v2_idx,
        read ArrEdges (edges p) (edge_idx * 2) = Ok v1_idx ->
        read ArrEdges (edges p) (edge_idx * 2 + 1) = Ok v2_idx ->
        Fallback.invalid_vertex_index v1_idx v2_idx (vertex_count p) = true ->
        Fallback.draw_edge cosf sinf st1 p (axis_angles st1) opacity edge_idx
          (out, n)
        = Ok (out ++ [PrintInvalidVertex edge_idx v1_idx v2_idx
                        (vertex_count p) (name p)], n)).
Proof.
  intros st1 Hp Ho Hok Hnn Hproj.
  pose proof (fallback_edge_loop cosf sinf st1 p (axis_angles st1) opacity
                (Z.to_nat (edge_count p)) Hok Hnn Hproj) as Hloop.
  assert (Hec : 0 <= edge_count p) by (destruct Hok as (_ & _ & H & _); exact H).
  rewrite Z2Nat.id in Hloop by exact Hec. specialize (Hloop ltac:(lia)).
  unfold Fallback.draw_pentacube_frame. cbv zeta. fold st1.
  rewrite Hp. cbn [mbind exec_bind]. rewrite Ho. cbn [mbind exec_bind].
  rewrite Hloop. cbn [mbind exec_bind].
  eexists _, _. split; [reflexivity|]. split; [|split; [|split]].
  - destruct (_ && _); [right|left]; reflexivity.
  - intros k Hk Hpass. unfold Fallback.edge_output.
    unfold Fallback.edge_passes in Hpass. apply negb_false_iff in Hpass.
    now rewrite Hpass.
  - intros k Hk Hpass. unfold Fallback.edge_output.
    unfold Fallback.edge_passes in Hpass. apply negb_true_iff in Hpass.
    rewrite Hpass.
    destruct Hok as (_ & _ & _ & Hel & _).
    assert (Ha : 0 <= edges p !!! Z.to_nat (k * 2)).
    { rewrite Forall_forall in Hnn. apply Hnn.
      apply list_elem_of_lookup_total_2. clear -Hel Hk. lia. }
    assert (Hb : 0 <= edges p !!! Z.to_nat (k * 2 + 1)).
    { rewrite Forall_forall in Hnn. apply Hnn.
      apply list_elem_of_lookup_total_2. clear -Hel Hk. lia. }
    generalize dependent (edges p !!! Z.to_nat (k * 2 + 1)).
    generalize dependent (edges p !!! Z.to_nat (k * 2)).
    intros a Ha b Hpass Hb.
    assert (Hab : ~ (a >= vertex_count p \/ b >= vertex_count p)).
    { intros H. apply invalid_vertex_index_iff in H. congruence. }
    destruct (Hproj a ltac:(lia)) as [[x1 y1] ->].
    destruct (Hproj b ltac:(lia)) as [[x2 y2] ->].
    eauto.
  - intros. now apply fallback_draw_edge_invalid.
Qed.

Lemma invalid_edge_skipped_and_rendering_continues_witness :
  exists st' report,
    Fallback.draw_pentacube_frame cos_at_0 sin_at_0 255
      (replicate 29 cube_off_by_one) initial_state
    = Ok (st',
          [CanvasFillBg 255; LabelSetText "cube";
           CanvasDrawLine 39 8 47 8 0;
           PrintInvalidVertex 1 1 8 8 "cube";
           CanvasDrawLine 47 8 47 16 0] ++ report).
Proof.
  destruct (invalid_edge_skipped_and_rendering_continues
              cos_at_0 sin_at_0 255 (replicate 29 cube_off_by_one)
              initial_state cube_off_by_one 0)
    as (st' & report & Hframe & _).
  - vm_compute. reflexivity.
  - vm_compute. reflexivity.
  - unfold mesh_ok. repeat split; vm_compute; congruence.
  - repeat constructor; lia.
  - intros v Hv.
    assert (Hcases : v = 0 \/ v = 1 \/ v = 2 \/ v = 3 \/ v = 4 \/ v = 5
                     \/ v = 6 \/ v = 7) by (cbn in Hv; lia).
    repeat (destruct Hcases as [-> | Hcases]; [vm_compute; eauto|]).
    subst v. vm_compute. eauto.
  - exists st', report. rewrite Hframe. vm_compute. reflexivity.
Defined.

Lemma fallback_draw_edge_negative cosf sinf st p angles opacity edge_idx acc
    v1_idx v2_idx :
  read ArrEdges (edges p) (edge_idx * 2) = Ok v1_idx ->
  read ArrEdges (edges p) (edge_idx * 2 + 1) = Ok v2_idx ->
  v1_idx < 0 ->
  v1_idx < vertex_count p ->
  v2_idx < vertex_count p ->
  Fallback.invalid_vertex_index v1_idx v2_idx (vertex_count p) = false
  /\ Fallback.draw_edge cosf sinf st p angles opacity edge_idx acc
     = Undef (OutOfBounds ArrVertices (v1_idx * 3 + 0)).
Proof.
  destruct angles as [[angle_x angle_y] angle_z]. destruct acc as [out n].
  intros Ha Hb Hneg Ha' Hb'.
  assert (Hinv : Fallback.invalid_vertex_index v1_idx v2_idx (vertex_count p)
                 = false).
  { unfold Fallback.invalid_vertex_index. apply orb_false_iff. lia. }
  split; [exact Hinv|].
  unfold Fallback.draw_edge. rewrite Ha, Hb. cbn [mbind exec_bind].
  rewrite Hinv. unfold centred_vertex.
  rewrite (read_negative ArrVertices (vertices p) (v1_idx * 3 + 0)) by lia.
  reflexivity.
Qed.

Lemma fallback_frame_negative cosf sinf opa db st p o v1_idx v2_idx :
  read ArrPentacubeData db (current_pentacube (update_animation_state st)) = Ok p ->
  Fallback.frame_opacity opa (update_animation_state st) = Ok o ->
  0 < edge_count p ->
  read ArrEdges (edges p) (0 * 2) = Ok v1_idx ->
  read ArrEdges (edges p) (0 * 2 + 1) = Ok v2_idx ->
  v1_idx < 0 ->
  v1_idx < vertex_count p ->
  v2_idx < vertex_count p ->
  Fallback.draw_pentacube_frame cosf sinf opa db st
  = Undef (OutOfBounds ArrVertices (v1_idx * 3 + 0)).
Proof.
  intros Hp Ho Hec Ha Hb Hneg Ha' Hb'.
  unfold Fallback.draw_pentacube_frame. cbv zeta.
  remember (update_animation_state st) as st1 eqn:Est1.
  rewrite Hp. cbn [mbind exec_bind]. rewrite Ho. cbn [mbind exec_bind].
  unfold for_loop. rewrite seqZ_cons by lia. cbn [iterate].
  destruct (fallback_draw_edge_negative cosf sinf st1 p (axis_angles st1) o 0
              ([], 0) v1_idx v2_idx Ha Hb Hneg Ha' Hb') as [_ ->].
  reflexivity.
Qed.

(** C10. The bounds check of the edge loop rejects an edge iff one of its
    two indices is at or above the vertex count. An edge whose first index
    is negative, with both indices below the vertex count, is not rejected,
    and the loop then subscripts the vertex array with that index: the read
    is outside the array, and when the edge is the first of the mesh the
    whole frame is undefined. The mesh [cube_negative_index], with the edge
    (-1, 0) and eight vertices, is such an input. *)
Theorem negative_index_passes_bounds_check :
  (forall v1_idx v2_idx vertex_count,
     Fallback.invalid_vertex_index v1_idx v2_idx vertex_count = true
     <-> v1_idx >= vertex_count \/ v2_idx >= vertex_count)
  /\ (forall cosf sinf st p angles opacity edge_idx acc v1_idx v2_idx,
        read ArrEdges (edges p) (edge_idx * 2) = Ok v1_idx ->
        read ArrEdges (edges p) (edge_idx * 2 + 1) = Ok v2_idx ->
        v1_idx < 0 ->
        v1_idx < vertex_count p ->
        v2_idx < vertex_count p ->
        Fallback.invalid_vertex_index v1_idx v2_idx (vertex_count p) = false
        /\ Fallback.draw_edge cosf sinf st p angles opacity edge_idx acc
           = Undef (OutOfBounds ArrVertices (v1_idx * 3 + 0)))
  /\ (forall cosf sinf opa db st p o v1_idx v2_idx,
        read ArrPentacubeData db
          (current_pentacube (update_animation_state st)) = Ok p ->
        Fallback.frame_opacity opa (update_animation_state st) = Ok o ->
        0 < edge_count p ->
        read ArrEdges (edges p) (0 * 2) = Ok v1_idx ->
        read ArrEdges (edges p) (0 * 2 + 1) = Ok v2_idx ->
        v1_idx < 0 ->
        v1_idx < vertex_count p ->
        v2_idx < vertex_count p ->
        Fallback.draw_pentacube_frame cosf sinf opa db st
        = Undef (OutOfBounds ArrVertices (v1_idx * 3 + 0)))
  /\ (exists p v1_idx v2_idx,
        0 < edge_count p
        /\ read ArrEdges (edges p) (0 * 2) = Ok v1_idx
        /\ read ArrEdges (edges p) (0 * 2 + 1) = Ok v2_idx
        /\ v1_idx < 0
        /\ Fallback.invalid_vertex_index v1_idx v2_idx (vertex_count p) = false).
Proof.
  split; [|split; [|split]].
  - intros a b n. unfold Fallback.invalid_vertex_index.
    rewrite orb_true_iff. lia.
  - intros. now apply fallback_draw_edge_negative.
  - intros. eapply fallback_frame_negative; eassumption.
  - exists cube_negative_index, (-1), 0.
    split; [reflexivity|]. split; [reflexivity|]. split; [reflexivity|].
    split; [lia|reflexivity].
Qed.

Lemma negative_index_passes_bounds_check_witness :
  Fallback.draw_pentacube_frame cos_at_0 sin_at_0 255
    (replicate 29 cube_negative_index) initial_state
  = Undef (OutOfBounds ArrVertices (-3)).
Proof.
  destruct negative_index_passes_bounds_check as (_ & _ & H & _).
  apply (H cos_at_0 sin_at_0 255 (replicate 29 cube_negative_index)
           initial_state cube_negative_index 0 (-1) 0).
  - vm_compute. reflexivity.
  - vm_compute. reflexivity.
  - reflexivity.
  - reflexivity.
  - reflexivity.
  - lia.
  - cbn. lia.
  - cbn. lia.
Defined.

(** * Further properties *)

(** ** Pseudo-random sequence generator, continued *)

Lemma simple_rand_snd s : snd (simple_rand s) = fst (simple_rand s).
Proof. reflexivity. Qed.

Lemma simple_rand_range s : seed_range (fst (simple_rand s)).
Proof.
  rewrite simple_rand_value. apply Z.mod_pos_bound. lia.
Qed.

Lemma simple_rand_parity s : fst (simple_rand s) mod 2 = (s + 1) mod 2.
Proof.
  rewrite simple_rand_value.
  rewrite Z.mod_mod_divide by (exists (2 ^ 30); reflexivity).
  replace (s * 1103515245 + 12345)
    with (s + 1 + (s * 551757622 + 6172) * 2) by lia.
  apply Z.mod_add. lia.
Qed.

Lemma rem_2_draw s :
  Int.rem (fst (simple_rand s)) 2 = fst (simple_rand s) mod 2.
Proof.
  pose proof (simple_rand_range s) as [H _].
  unfold Int.rem. apply Z.rem_mod_nonneg; lia.
Qed.

Lemma simple_rand_low_bit s :
  Int.rem (fst (simple_rand (fst (simple_rand s)))) 2
  = 1 - Int.rem (fst (simple_rand s)) 2
  /\ (Int.rem (fst (simple_rand s)) 2 = 0 \/ Int.rem (fst (simple_rand s)) 2 = 1).
Proof.
  rewrite !rem_2_draw.
  rewrite (simple_rand_parity (fst (simple_rand s))).
  pose proof (Z.mod_pos_bound (fst (simple_rand s)) 2 ltac:(lia)) as Hb.
  rewrite Z.add_mod by lia.
  generalize dependent (fst (simple_rand s) mod 2). intros m Hb.
  assert (m = 0 \/ m = 1) as [-> | ->] by lia; (split; [reflexivity|lia]).
Qed.

(** X1. The lowest bit of the generator alternates: a draw has the parity
    opposite to that of the seed it was computed from, so that of two
    successive draws, reduced modulo 2 as the axis reselection does, one is
    0 and the other is 1. *)
Theorem simple_rand_low_bit_alternates (s : Z) :
  let r1 := fst (simple_rand s) in
  let r2 := fst (simple_rand (snd (simple_rand s))) in
  r1 mod 2 = (s + 1) mod 2
  /\ Int.rem r2 2 = 1 - Int.rem r1 2
  /\ (Int.rem r1 2 = 0 \/ Int.rem r1 2 = 1).
Proof.
  cbv zeta. rewrite simple_rand_snd.
  split; [apply simple_rand_parity|apply simple_rand_low_bit].
Qed.

Lemma random_pentacube_range s :
  mesh_index (fst (random_pentacube s)) /\ seed_range (snd (random_pentacube s)).
Proof.
  pose proof (simple_rand_range s) as Hr.
  unfold random_pentacube, simple_rand in *. cbn [fst snd] in *.
  split; [|exact Hr].
  unfold mesh_index, Int.rem, PENTACUBE_COUNT. destruct Hr as [Hr _].
  apply Z.rem_bound_pos; lia.
Qed.

(** ** Animation state machine: what a run keeps true *)

Lemma direction_reversal_run st :
  run_invariant st -> run_invariant (direction_reversal st).
Proof.
  intros H. unfold direction_reversal. destruct (_ >? 8); [|exact H].
  pose proof (simple_rand_range (seed st)) as Hs.
  destruct (simple_rand (seed st)) as [r s] eqn:E.
  assert (s = r) as -> by (unfold simple_rand in E; congruence).
  destruct H as (_ & H). split; [exact Hs|exact H].
Qed.

Lemma lateral_offset_run st :
  run_invariant st -> run_invariant (lateral_offset st).
Proof.
  intros H. unfold lateral_offset.
  destruct (F32.gt _ _); [exact H|]. destruct (F32.lt _ _); exact H.
Qed.

Lemma depth_run st : run_invariant st -> run_invariant (depth st).
Proof. intros H. exact H. Qed.

Lemma morph_trigger_run st :
  run_invariant st -> run_invariant (morph_trigger st).
Proof.
  intros H. unfold morph_trigger. destruct (morph_starts st); [|exact H].
  pose proof (random_pentacube_range (seed st)) as [Hr Hs].
  destruct (random_pentacube (seed st)) as [r s].
  destruct H as (_ & _ & Hn & Hc & Ha).
  split; [exact Hs|]. split; [exact Hn|]. split; [exact Hr|]. split; assumption.
Qed.

Lemma morph_progress_run st :
  run_invariant st -> run_invariant (morph_progress st).
Proof.
  intros H. unfold morph_progress. destruct (is_morphing st); [|exact H].
  destruct (F32.ge _ _); exact H.
Qed.

(** The three draws of a reselection, each reduced modulo 2. *)
Lemma three_draws_alternate s :
  alternating_axes
    (Int.rem (fst (simple_rand s)) 2,
     Int.rem (fst (simple_rand (fst (simple_rand s)))) 2,
     Int.rem (fst (simple_rand (fst (simple_rand (fst (simple_rand s)))))) 2).
Proof.
  destruct (simple_rand_low_bit s) as (H1 & H0).
  destruct (simple_rand_low_bit (fst (simple_rand s))) as (H2 & _).
  rewrite H2, H1. unfold alternating_axes.
  destruct H0 as [-> | ->]; [left|right]; reflexivity.
Qed.

Lemma axis_reselection_spec st :
  0 <= axis_change_counter st <= 16 ->
  let st' := axis_reselection st in
  (axis_change_counter st < 16 ->
   axis_change_counter st' = axis_change_counter st + 1
   /\ rotation_axes st' = rotation_axes st
   /\ seed st' = seed st)
  /\ (axis_change_counter st = 16 ->
      axis_change_counter st' = 0
      /\ alternating_axes (rotation_axes st')
      /\ seed st'
         = fst (simple_rand (fst (simple_rand (fst (simple_rand (seed st))))))).
Proof.
  intros Hc. cbv zeta. unfold axis_reselection, Int.add.
  rewrite wrap_small by (unfold Int.in_range, Int.min_signed, Int.max_signed; lia).
  split; intros H.
  - destruct (_ >? 16) eqn:E; [lia|]. cbn. auto.
  - destruct (_ >? 16) eqn:E; [|lia].
    pose proof (three_draws_alternate (seed st)) as Ha.
    destruct (simple_rand (seed st)) as [r0 s0] eqn:E0.
    assert (s0 = r0) as -> by (unfold simple_rand in E0; congruence).
    cbn [fst] in *.
    destruct (simple_rand r0) as [r1 s1] eqn:E1.
    assert (s1 = r1) as -> by (unfold simple_rand in E1; congruence).
    cbn [fst] in *.
    destruct (simple_rand r1) as [r2 s2] eqn:E2.
    assert (s2 = r2) as -> by (unfold simple_rand in E2; congruence).
    cbn [fst] in *. cbn. auto.
Qed.

Lemma axis_reselection_run st :
  run_invariant st -> run_invariant (axis_reselection st).
Proof.
  intros (Hs & Hcur & Hnext & Hc & Ha).
  destruct (axis_reselection_spec st Hc) as (Hlt & Heq).
  destruct (axis_reselection_fields st) as (_ & _ & _ & _ & _ & Ecur).
  assert (Enext : next_pentacube (axis_reselection st) = next_pentacube st).
  { unfold axis_reselection. destruct (_ >? 16); [|reflexivity].
    destruct (simple_rand (seed st)) as [r0 s0].
    destruct (simple_rand s0) as [r1 s1].
    destruct (simple_rand s1) as [r2 s2]. reflexivity. }
  unfold run_invariant. rewrite Ecur, Enext.
  destruct (Z.eq_dec (axis_change_counter st) 16) as [E|E].
  - destruct (Heq E) as (-> & Hax & ->).
    split; [apply simple_rand_range|]. split; [exact Hcur|].
    split; [exact Hnext|]. split; [lia|]. right. exact Hax.
  - destruct (Hlt ltac:(lia)) as (-> & -> & ->).
    split; [exact Hs|]. split; [exact Hcur|].
    split; [exact Hnext|]. split; [lia|exact Ha].
Qed.

Lemma update_run st :
  run_invariant st -> run_invariant (update_animation_state st).
Proof.
  intros H. unfold update_animation_state.
  apply axis_reselection_run, morph_progress_run, morph_trigger_run, depth_run,
    lateral_offset_run, direction_reversal_run, H.
Qed.

Lemma startup_state_run db st st1 :
  run_invariant st -> startup_state db st = Ok st1 -> run_invariant st1.
Proof.
  intros (_ & _ & _ & Hc & Ha) Hs. unfold startup_state in Hs.
  pose proof (random_pentacube_range (seed st)) as [Hr1 Hs1].
  destruct (random_pentacube (seed st)) as [cur s1].
  pose proof (random_pentacube_range s1) as [Hr2 Hs2].
  destruct (random_pentacube s1) as [next s2].
  destruct (get_pentacube_center_x db cur) as [c|f]; [|discriminate Hs].
  cbn in Hs. injection Hs as <-.
  repeat split; cbn; try apply Hr1; try apply Hr2; try apply Hs2; try apply Hc;
    exact Ha.
Qed.

Lemma reachable_run st : reachable st -> run_invariant st.
Proof.
  induction 1 as [|db st st1 _ IH Hs|st _ IH|st logged dbg _ IH|st f _ IH].
  - unfold run_invariant, seed_range, mesh_index, PENTACUBE_COUNT.
    cbn [initial_state seed current_pentacube next_pentacube
         axis_change_counter rotation_axes].
    unfold initial_seed. split; [lia|]. split; [lia|]. split; [lia|].
    split; [lia|]. left. reflexivity.
  - exact (startup_state_run _ _ _ IH Hs).
  - exact (update_run _ IH).
  - exact IH.
  - exact IH.
Qed.

(** ** Animation state machine: the blocks that touch each field *)

Ltac block_cases :=
  repeat match goal with
         | |- context [if ?c then _ else _] => destruct c
         | |- context [let '(_, _) := ?p in _] => destruct p
         end.

Lemma direction_reversal_keeps st :
  let s := direction_reversal st in
  rotation_axes s = rotation_axes st
  /\ axis_change_counter s = axis_change_counter st
  /\ next_pentacube s = next_pentacube st
  /\ last_logged_pentacube s = last_logged_pentacube st
  /\ z_position s = z_position st
  /\ current_frame s = current_frame st
  /\ debug_frame_count s = debug_frame_count st.
Proof.
  cbv zeta. unfold direction_reversal. block_cases; repeat split.
Qed.

Lemma lateral_offset_keeps st :
  let s := lateral_offset st in
  rotation_axes s = rotation_axes st
  /\ axis_change_counter s = axis_change_counter st
  /\ next_pentacube s = next_pentacube st
  /\ last_logged_pentacube s = last_logged_pentacube st
  /\ z_position s = z_position st
  /\ current_frame s = current_frame st
  /\ debug_frame_count s = debug_frame_count st
  /\ seed s = seed st.
Proof.
  cbv zeta. unfold lateral_offset. block_cases; repeat split.
Qed.

Lemma depth_keeps st :
  let s := depth st in
  rotation_axes s = rotation_axes st
  /\ axis_change_counter s = axis_change_counter st
  /\ next_pentacube s = next_pentacube st
  /\ last_logged_pentacube s = last_logged_pentacube st
  /\ current_frame s = current_frame st
  /\ debug_frame_count s = debug_frame_count st
  /\ seed s = seed st.
Proof. repeat split. Qed.

Lemma morph_trigger_keeps st :
  let s := morph_trigger st in
  rotation_axes s = rotation_axes st
  /\ axis_change_counter s = axis_change_counter st
  /\ z_position s = z_position st
  /\ current_frame s = current_frame st
  /\ debug_frame_count s = debug_frame_count st.
Proof.
  cbv zeta. unfold morph_trigger. block_cases; repeat split.
Qed.

Lemma morph_progress_keeps st :
  let s := morph_progress st in
  rotation_axes s = rotation_axes st
  /\ axis_change_counter s = axis_change_counter st
  /\ next_pentacube s = next_pentacube st
  /\ last_logged_pentacube s = last_logged_pentacube st
  /\ z_position s = z_position st
  /\ current_frame s = current_frame st
  /\ debug_frame_count s = debug_frame_count st.
Proof.
  cbv zeta. unfold morph_progress. block_cases; repeat split.
Qed.

Lemma axis_reselection_keeps st :
  let s := axis_reselection st in
  next_pentacube s = next_pentacube st
  /\ last_logged_pentacube s = last_logged_pentacube st
  /\ z_position s = z_position st
  /\ current_frame s = current_frame st
  /\ debug_frame_count s = debug_frame_count st.
Proof.
  cbv zeta. unfold axis_reselection. block_cases; repeat split.
Qed.

(** The axis fields reach the last block as the tick found them. *)
Lemma update_axes st :
  let s5 :=
    morph_progress
      (morph_trigger (depth (lateral_offset (direction_reversal st)))) in
  update_animation_state st = axis_reselection s5
  /\ rotation_axes s5 = rotation_axes st
  /\ axis_change_counter s5 = axis_change_counter st.
Proof.
  cbv zeta. split; [reflexivity|].
  destruct (morph_progress_keeps
              (morph_trigger (depth (lateral_offset (direction_reversal st)))))
    as (-> & -> & _).
  destruct (morph_trigger_keeps (depth (lateral_offset (direction_reversal st))))
    as (-> & -> & _).
  destruct (depth_keeps (lateral_offset (direction_reversal st)))
    as (-> & -> & _).
  destruct (lateral_offset_keeps (direction_reversal st)) as (-> & -> & _).
  destruct (direction_reversal_keeps st) as (-> & -> & _).
  split; reflexivity.
Qed.

(** The mesh indices, the log mark and the depth are those that the morph
    trigger leaves; the trigger finds the indices and the mark of the start
    of the tick, and the seed that the direction block left. *)
Lemma update_shape st :
  let s3 := depth (lateral_offset (direction_reversal st)) in
  let st' := update_animation_state st in
  next_pentacube st' = next_pentacube (morph_trigger s3)
  /\ last_logged_pentacube st' = last_logged_pentacube (morph_trigger s3)
  /\ z_position st' = z_position s3
  /\ next_pentacube s3 = next_pentacube st
  /\ last_logged_pentacube s3 = last_logged_pentacube st
  /\ seed s3 = seed (direction_reversal st).
Proof.
  cbv zeta. unfold update_animation_state.
  set (s3 := depth (lateral_offset (direction_reversal st))).
  destruct (axis_reselection_keeps (morph_progress (morph_trigger s3)))
    as (-> & -> & -> & _).
  destruct (morph_progress_keeps (morph_trigger s3))
    as (_ & _ & -> & -> & -> & _).
  destruct (morph_trigger_keeps s3) as (_ & _ & -> & _).
  subst s3.
  destruct (depth_keeps (lateral_offset (direction_reversal st)))
    as (_ & _ & -> & -> & _ & _ & ->).
  destruct (lateral_offset_keeps (direction_reversal st))
    as (_ & _ & -> & -> & _ & _ & _ & ->).
  destruct (direction_reversal_keeps st) as (_ & _ & -> & -> & _).
  repeat split.
Qed.

(** A tick leaves the frame counter and the counter of debugged frames
    alone. *)
Lemma update_counters st :
  current_frame (update_animation_state st) = current_frame st
  /\ debug_frame_count (update_animation_state st) = debug_frame_count st.
Proof.
  unfold update_animation_state.
  destruct (axis_reselection_keeps
              (morph_progress
                 (morph_trigger (depth (lateral_offset (direction_reversal st))))))
    as (_ & _ & _ & -> & ->).
  destruct (morph_progress_keeps
              (morph_trigger (depth (lateral_offset (direction_reversal st)))))
    as (_ & _ & _ & _ & _ & -> & ->).
  destruct (morph_trigger_keeps (depth (lateral_offset (direction_reversal st))))
    as (_ & _ & _ & -> & ->).
  destruct (depth_keeps (lateral_offset (direction_reversal st)))
    as (_ & _ & _ & _ & -> & -> & _).
  destruct (lateral_offset_keeps (direction_reversal st))
    as (_ & _ & _ & _ & _ & -> & -> & _).
  destruct (direction_reversal_keeps st) as (_ & _ & _ & _ & _ & -> & ->).
  split; reflexivity.
Qed.

Lemma morph_trigger_shape st :
  (morph_starts st = true ->
   current_pentacube (morph_trigger st) = next_pentacube st
   /\ next_pentacube (morph_trigger st) = fst (random_pentacube (seed st))
   /\ last_logged_pentacube (morph_trigger st) = -1)
  /\ (morph_starts st = false -> morph_trigger st = st).
Proof.
  unfold morph_trigger. destruct (morph_starts st); split; try discriminate.
  - intros _. destruct (random_pentacube (seed st)). repeat split.
  - reflexivity.
Qed.

Lemma morph_progress_current st :
  current_pentacube (morph_progress st) = current_pentacube st.
Proof. unfold morph_progress. block_cases; reflexivity. Qed.

(** What a tick does to the mesh indices and to the log mark. *)
Lemma tick_mesh_fields (st : render_state) :
  let st' := update_animation_state st in
  (tick_starts_morph st = true ->
   current_pentacube st' = next_pentacube st
   /\ next_pentacube st'
      = fst (random_pentacube (seed (direction_reversal st)))
   /\ mesh_index (next_pentacube st')
   /\ last_logged_pentacube st' = -1)
  /\ (tick_starts_morph st = false ->
      current_pentacube st' = current_pentacube st
      /\ next_pentacube st' = next_pentacube st
      /\ last_logged_pentacube st' = last_logged_pentacube st).
Proof.
  cbv zeta. unfold tick_starts_morph.
  destruct (update_shape st) as (-> & -> & _ & En & El & Es).
  destruct (update_morph st) as (_ & _ & -> & _ & Em & Ec).
  set (s3 := depth (lateral_offset (direction_reversal st))) in *.
  destruct (morph_trigger_shape s3) as (Hstart & Hidle).
  destruct (morph_blocks s3) as (Hb & _ & Hb').
  split; intros H.
  - destruct (Hstart H) as (_ & -> & ->). destruct (Hb H) as (_ & _ & Hc & _).
    assert (Hcur : current_pentacube (morph_progress (morph_trigger s3))
                   = current_pentacube (morph_trigger s3)).
    { unfold morph_progress. block_cases; reflexivity. }
    rewrite Hcur, Hc, En, Es.
    split; [reflexivity|]. split; [reflexivity|].
    split; [apply random_pentacube_range|reflexivity].
  - rewrite (Hidle H), En, El.
    assert (Hcur : current_pentacube (morph_progress s3) = current_pentacube s3).
    { unfold morph_progress. block_cases; reflexivity. }
    rewrite Hcur, Ec. auto.
Qed.

(** ** Rotation axes *)

(** X2. In every reachable state the three rotation flags are the initialiser
    (1, 0, 0) or one of (0, 1, 0) and (1, 0, 1). The tick that finds the axis
    counter at 16 redraws them with three successive draws modulo 2, whose
    lowest bits alternate, so it leaves (0, 1, 0) or (1, 0, 1); the other
    ticks leave the flags as they are. *)
Theorem rotation_axes_alternate (st : render_state) :
  reachable st ->
  let st' := update_animation_state st in
  run_axes (rotation_axes st)
  /\ (axis_change_counter st = 16 -> alternating_axes (rotation_axes st'))
  /\ (axis_change_counter st < 16 -> rotation_axes st' = rotation_axes st).
Proof.
  intros Hr. destruct (reachable_run st Hr) as (_ & _ & _ & Hc & Ha).
  cbv zeta. destruct (update_axes st) as (-> & Eax & Ec).
  set (s5 := morph_progress _) in *.
  destruct (axis_reselection_spec s5) as (Hlt & Heq); [rewrite Ec; exact Hc|].
  rewrite Ec, Eax in *.
  split; [exact Ha|]. split.
  - intros H. now destruct (Heq H) as (_ & H1 & _).
  - intros H. now destruct (Hlt H) as (_ & H1 & _).
Qed.

Lemma rotation_axes_alternate_witness :
  alternating_axes
    (rotation_axes
       (update_animation_state
          (Nat.iter 16 update_animation_state initial_state))).
Proof.
  destruct (rotation_axes_alternate
              (Nat.iter 16 update_animation_state initial_state))
    as (_ & H & _).
  - do 16 (apply reachable_update). apply reachable_initial.
  - refine (H _). vm_compute. reflexivity.
Defined.

(** X3. In every reachable state the axis counter is within 0..16; a tick adds
    one to it, and the tick that finds it at 16 sets it to 0: from a counter
    of 0 the axes are redrawn on every seventeenth tick. *)
Theorem axis_reselection_every_seventeenth_tick (st : render_state) :
  reachable st ->
  let st' := update_animation_state st in
  0 <= axis_change_counter st <= 16
  /\ (axis_change_counter st < 16 ->
      axis_change_counter st' = axis_change_counter st + 1)
  /\ (axis_change_counter st = 16 -> axis_change_counter st' = 0)
  /\ (axis_change_counter st = 0 ->
      (forall k : nat, (k <= 16)%nat ->
         axis_change_counter (Nat.iter k update_animation_state st)
         = Z.of_nat k)
      /\ axis_change_counter (Nat.iter 17 update_animation_state st) = 0).
Proof.
  intros Hr. cbv zeta.
  assert (Hstep : forall s, reachable s ->
            0 <= axis_change_counter s <= 16
            /\ (axis_change_counter s < 16 ->
                axis_change_counter (update_animation_state s)
                = axis_change_counter s + 1)
            /\ (axis_change_counter s = 16 ->
                axis_change_counter (update_animation_state s) = 0)).
  { intros s Hs. destruct (reachable_run s Hs) as (_ & _ & _ & Hc & _).
    destruct (update_axes s) as (-> & _ & Ec).
    set (s5 := morph_progress _) in *.
    destruct (axis_reselection_spec s5) as (Hlt & Heq); [rewrite Ec; exact Hc|].
    rewrite Ec in *. split; [exact Hc|]. split.
    - intros H. now destruct (Hlt H) as (H1 & _).
    - intros H. now destruct (Heq H) as (H1 & _). }
  assert (Hiter : forall k : nat, reachable (Nat.iter k update_animation_state st)).
  { induction k as [|k IH]; [exact Hr|]. rewrite Nat.iter_succ.
    now apply reachable_update. }
  destruct (Hstep st Hr) as (Hc & Hlt & Heq).
  split; [exact Hc|]. split; [exact Hlt|]. split; [exact Heq|].
  intros H0.
  assert (Hk : forall k : nat, (k <= 16)%nat ->
             axis_change_counter (Nat.iter k update_animation_state st)
             = Z.of_nat k).
  { induction k as [|k IH]; intros Hk16; [exact H0|].
    rewrite Nat.iter_succ. specialize (IH ltac:(lia)).
    destruct (Hstep _ (Hiter k)) as (_ & Hs & _). rewrite Hs; lia. }
  split; [exact Hk|].
  rewrite Nat.iter_succ. destruct (Hstep _ (Hiter 16%nat)) as (_ & _ & Hs).
  apply Hs. now rewrite Hk.
Qed.

Lemma axis_reselection_every_seventeenth_tick_witness :
  axis_change_counter (Nat.iter 17 update_animation_state initial_state) = 0.
Proof.
  destruct (axis_reselection_every_seventeenth_tick initial_state)
    as (_ & _ & _ & H).
  - apply reachable_initial.
  - destruct H as [_ H]; [reflexivity|exact H].
Defined.

(** ** Mesh indices *)

(** X4. In every reachable state the seed is within [0, 2^31) and the current
    and the next mesh index are within [0, PENTACUBE_COUNT), so that the
    frame's access to a mesh table of PENTACUBE_COUNT entries is in bounds. *)
Theorem mesh_indices_in_table (st : render_state) (db : list pentacube_data_t) :
  reachable st ->
  Z.of_nat (length db) = PENTACUBE_COUNT ->
  seed_range (seed st)
  /\ mesh_index (current_pentacube st)
  /\ mesh_index (next_pentacube st)
  /\ (exists p, read ArrPentacubeData db (current_pentacube st) = Ok p)
  /\ (exists p,
        read ArrPentacubeData db (current_pentacube (update_animation_state st))
        = Ok p).
Proof.
  intros Hr Hl.
  assert (Hread : forall i, mesh_index i ->
            exists p, read ArrPentacubeData db i = Ok p).
  { intros i Hi. unfold mesh_index, PENTACUBE_COUNT in *.
    destruct (lookup_lt_is_Some_2 db (Z.to_nat i) ltac:(lia)) as [p Hp].
    exists p. rewrite <- (Z2Nat.id i) at 1 by lia.
    apply read_Some; [exact Hp|]. unfold Int.max_signed. lia. }
  destruct (reachable_run st Hr) as (Hs & Hcur & Hnext & _).
  destruct (reachable_run _ (reachable_update _ Hr)) as (_ & Hcur' & _).
  auto 10.
Qed.

Lemma mesh_indices_in_table_witness :
  exists p,
    read ArrPentacubeData (replicate 29 bar) (current_pentacube started_on_bar)
    = Ok p.
Proof.
  destruct (mesh_indices_in_table started_on_bar (replicate 29 bar))
    as (_ & _ & _ & H & _).
  - apply (reachable_startup (replicate 29 bar) initial_state);
      [apply reachable_initial|vm_compute; reflexivity].
  - reflexivity.
  - exact H.
Defined.

(** X5. The tick that starts a morph makes the next mesh the current one, draws
    a new next mesh, an index of the table, from the seed as the direction
    block left it, and clears the mark of the last logged mesh; any other
    tick leaves the two indices and the mark as they are. *)
Theorem morph_start_advances_mesh (st : render_state) :
  let st' := update_animation_state st in
  (tick_starts_morph st = true ->
   current_pentacube st' = next_pentacube st
   /\ next_pentacube st'
      = fst (random_pentacube (seed (direction_reversal st)))
   /\ mesh_index (next_pentacube st')
   /\ last_logged_pentacube st' = -1)
  /\ (tick_starts_morph st = false ->
      current_pentacube st' = current_pentacube st
      /\ next_pentacube st' = next_pentacube st
      /\ last_logged_pentacube st' = last_logged_pentacube st).
Proof. exact (tick_mesh_fields st). Qed.

(** ** Morph, continued *)

Lemma tick_starts_morph_idle st :
  tick_starts_morph st = true -> is_morphing st = false.
Proof.
  unfold tick_starts_morph, morph_starts. intros H.
  destruct (update_morph st) as (_ & _ & _ & _ & Em & _).
  rewrite Em in H. apply andb_true_iff in H. destruct H as [_ H].
  now destruct (is_morphing st).
Qed.

Lemma morphing_no_start st :
  is_morphing st = true -> tick_starts_morph st = false.
Proof.
  intros H. destruct (tick_starts_morph st) eqn:E; [|reflexivity].
  apply tick_starts_morph_idle in E. congruence.
Qed.

(** One tick of a morph that has made [k] of its steps. *)
Lemma morphing_tick st (k : nat) :
  is_morphing st = true ->
  morphing_progress st = progress_after k ->
  (1 <= k <= 19)%nat ->
  let st' := update_animation_state st in
  current_pentacube st' = current_pentacube st
  /\ ((k < 19)%nat ->
      is_morphing st' = true /\ morphing_progress st' = progress_after (S k))
  /\ (k = 19%nat -> is_morphing st' = false /\ morphing_progress st' = f_1).
Proof.
  intros Hm Hp Hk. cbv zeta.
  pose proof (morphing_no_start st Hm) as Hns. unfold tick_starts_morph in Hns.
  destruct (update_morph st) as (-> & -> & -> & Ep & Em & Ec).
  set (s3 := depth (lateral_offset (direction_reversal st))) in *.
  destruct (morph_trigger_shape s3) as (_ & Hidle).
  destruct (morph_blocks s3) as (_ & Hrun & _).
  rewrite Em, Ep, Hp in Hrun. destruct (Hrun Hns Hm) as (Hge & Hlt).
  destruct (progress_chain k Hk) as (_ & _ & H19 & Hlt19).
  split.
  - rewrite morph_progress_current, (Hidle Hns). exact Ec.
  - split.
    + intros Hk19.
      destruct (F32.ge (F32.add (progress_after k) f_0_05) f_1) eqn:E.
      * specialize (H19 eq_refl). lia.
      * destruct (Hlt eq_refl) as (-> & ->). split; reflexivity.
    + intros ->.
      destruct (F32.ge (F32.add (progress_after 19) f_0_05) f_1) eqn:E.
      * destruct (Hge eq_refl) as (-> & ->). split; reflexivity.
      * specialize (Hlt19 eq_refl). lia.
Qed.

(** X6. A morph lasts twenty ticks. The tick that starts it makes the first
    step; after k ticks, k from 1 to 19, the flag is set and the progress is
    0.05f added k times to 0.0f; the twentieth tick sets the progress to
    exactly 1.0 and clears the flag. The current mesh is, throughout, the
    one that was next when the morph started. *)
Theorem morph_lasts_twenty_ticks (st : render_state) :
  tick_starts_morph st = true ->
  (forall k : nat, (1 <= k <= 19)%nat ->
     is_morphing (Nat.iter k update_animation_state st) = true
     /\ morphing_progress (Nat.iter k update_animation_state st)
        = progress_after k
     /\ current_pentacube (Nat.iter k update_animation_state st)
        = next_pentacube st)
  /\ is_morphing (Nat.iter 20 update_animation_state st) = false
  /\ morphing_progress (Nat.iter 20 update_animation_state st) = f_1
  /\ current_pentacube (Nat.iter 20 update_animation_state st)
     = next_pentacube st.
Proof.
  intros Hs.
  assert (Hk : forall k : nat, (1 <= k <= 19)%nat ->
     is_morphing (Nat.iter k update_animation_state st) = true
     /\ morphing_progress (Nat.iter k update_animation_state st)
        = progress_after k
     /\ current_pentacube (Nat.iter k update_animation_state st)
        = next_pentacube st).
  { induction k as [|k IH]; intros Hk; [lia|].
    rewrite Nat.iter_succ. destruct k as [|k].
    - change (Nat.iter 0 update_animation_state st) with st.
      unfold tick_starts_morph in Hs.
      destruct (update_morph st) as (-> & -> & -> & _).
      set (s3 := depth (lateral_offset (direction_reversal st))) in *.
      destruct (morph_blocks s3) as (Hb & _).
      destruct (Hb Hs) as (_ & _ & Hc & Hp & Hm).
      destruct (update_shape st) as (_ & _ & _ & En & _). fold s3 in En.
      rewrite morph_progress_current, Hc, En. repeat split; assumption.
    - destruct (IH ltac:(lia)) as (Hm & Hp & Hc).
      destruct (morphing_tick _ (S k) Hm Hp ltac:(lia)) as (Ec & Hlt & _).
      destruct (Hlt ltac:(lia)) as (Hm' & Hp').
      rewrite Ec. repeat split; assumption. }
  split; [exact Hk|].
  rewrite Nat.iter_succ. destruct (Hk 19%nat ltac:(lia)) as (Hm & Hp & Hc).
  destruct (morphing_tick _ 19%nat Hm Hp ltac:(lia)) as (Ec & _ & H19).
  destruct (H19 eq_refl) as (Hm' & Hp').
  rewrite Ec. repeat split; assumption.
Qed.

Lemma morph_lasts_twenty_ticks_witness :
  is_morphing (Nat.iter 20 update_animation_state started_on_bar) = false
  /\ morphing_progress (Nat.iter 20 update_animation_state started_on_bar) = f_1
  /\ current_pentacube (Nat.iter 20 update_animation_state started_on_bar)
     = next_pentacube started_on_bar.
Proof.
  destruct (morph_lasts_twenty_ticks started_on_bar) as (_ & H).
  - vm_compute. reflexivity.
  - exact H.
Defined.

(** ** Opacity *)

Lemma idle_progress_update st :
  morph_invariant st -> idle_progress st ->
  idle_progress (update_animation_state st).
Proof.
  intros Hinv Hidle. unfold idle_progress, morph_invariant in *.
  destruct (update_morph st) as (-> & -> & _ & Ep & Em & _).
  set (s3 := depth (lateral_offset (direction_reversal st))) in *.
  destruct (morph_blocks s3) as (Hstart & Hrun & Hrest).
  rewrite Ep, Em in *.
  destruct (morph_starts s3) eqn:Es.
  - destruct (Hstart eq_refl) as (_ & _ & _ & _ & ->). discriminate.
  - destruct (is_morphing st) eqn:Em'.
    + destruct (Hrun eq_refl eq_refl) as (Hge & Hlt).
      destruct (F32.ge (F32.add (morphing_progress st) f_0_05) f_1).
      * destruct (Hge eq_refl) as (-> & _). intros _. right. reflexivity.
      * destruct (Hlt eq_refl) as (_ & ->). discriminate.
    + destruct (Hrest eq_refl eq_refl) as (-> & _). intros _. auto.
Qed.

Lemma reachable_idle_progress st : reachable st -> idle_progress st.
Proof.
  induction 1 as [|db st st1 Hr IH Hs|st Hr IH|st logged dbg _ IH|st f _ IH].
  - intros _. left. reflexivity.
  - destruct (startup_state_fields _ _ _ Hs) as (Em & Ep & _).
    unfold idle_progress. rewrite Em, Ep. exact IH.
  - apply idle_progress_update; [|exact IH].
    now destruct (reachable_invariants st Hr) as (_ & _ & H).
  - exact IH.
  - exact IH.
Qed.

Lemma reachable_progress_values st :
  reachable st -> morphing_progress st ∈ progress_values.
Proof.
  intros Hr. pose proof (reachable_idle_progress st Hr) as Hidle.
  destruct (reachable_invariants st Hr) as (_ & _ & Hinv).
  unfold idle_progress, morph_invariant, progress_values in *.
  destruct (is_morphing st).
  - destruct (Hinv eq_refl) as (k & Hk & ->).
    do 2 apply list_elem_of_further. apply list_elem_of_fmap.
    exists k. split; [reflexivity|]. apply elem_of_seq. lia.
  - destruct (Hidle eq_refl) as [-> | ->].
    + apply list_elem_of_here.
    + apply list_elem_of_further, list_elem_of_here.
Qed.

Lemma opacity_table :
  forallb (fun opa => forallb (opacity_ok opa) progress_values) (seqZ 0 256)
  = true.
Proof. vm_compute. reflexivity. Qed.

Lemma opacity_ok_run st opa :
  reachable st -> 0 <= opa <= 255 -> opacity_ok opa (morphing_progress st) = true.
Proof.
  intros Hr Hopa. pose proof opacity_table as Ht.
  rewrite forallb_forall in Ht.
  assert (Hin : In opa (seqZ 0 256)).
  { apply list_elem_of_In, elem_of_seqZ. lia. }
  specialize (Ht opa Hin). rewrite forallb_forall in Ht. apply Ht.
  apply list_elem_of_In. now apply reachable_progress_values.
Qed.

(** X7. In every reachable state the progress is 0.0, 1.0 or one of the 19
    values of a morph under way, and for a cover value of 0..255 the cast of
    [LV_OPA_COVER * morphing_progress] to [lv_opa_t] is defined: the product
    is within 0..255. The opacity is at most the cover value; it is the
    cover value at progress 1.0 and 0 at progress 0.0. Both renderers
    compute it alike. *)
Theorem frame_opacity_defined (st : render_state) (LV_OPA_COVER : Z) :
  reachable st ->
  0 <= LV_OPA_COVER <= 255 ->
  morphing_progress st ∈ progress_values
  /\ exists o,
       Culled.frame_opacity LV_OPA_COVER st = Ok o
       /\ Fallback.frame_opacity LV_OPA_COVER st = Ok o
       /\ 0 <= o <= LV_OPA_COVER
       /\ (morphing_progress st = f_1 -> o = LV_OPA_COVER)
       /\ (morphing_progress st = F32.zero -> o = 0).
Proof.
  intros Hr Hopa. split; [now apply reachable_progress_values|].
  pose proof (opacity_ok_run st LV_OPA_COVER Hr Hopa) as Hok.
  unfold opacity_ok, Culled.frame_opacity, Fallback.frame_opacity in *.
  destruct (F32.to_uint8 _) as [o|f]; [|discriminate Hok].
  exists o. split; [reflexivity|]. split; [reflexivity|].
  apply andb_true_iff in Hok. destruct Hok as [Hok H0].
  apply andb_true_iff in Hok. destruct Hok as [Hok H1].
  split; [lia|]. split; intros E; rewrite E in *.
  - change (SFeqb f_1 f_1) with true in H1. cbv iota in H1. lia.
  - change (SFeqb F32.zero F32.zero) with true in H0. cbv iota in H0. lia.
Qed.

Lemma frame_opacity_defined_witness :
  exists o, Culled.frame_opacity 255 (update_animation_state started_on_bar) = Ok o.
Proof.
  destruct (frame_opacity_defined (update_animation_state started_on_bar) 255)
    as (_ & o & H & _).
  - apply reachable_update.
    apply (reachable_startup (replicate 29 bar) initial_state);
      [apply reachable_initial|vm_compute; reflexivity].
  - lia.
  - exists o. exact H.
Defined.

(** ** Depth *)

Lemma depth_at_bound st :
  x_offset st = f_15 \/ x_offset st = F32.opp f_15 ->
  z_position (depth st) = f_200.
Proof.
  intros [H | H]; unfold depth; cbn [z_position]; rewrite H;
    vm_compute; reflexivity.
Qed.

(** X8. A tick whose advanced offset passes a bound puts the depth at exactly
    200.0, which is above the trigger threshold of 180.0: the tick starts a
    morph unless one is under way, and the next mesh becomes the current
    one. *)
Theorem clamped_tick_starts_morph (st : render_state) :
  let x := advanced_offset (direction_reversal st) in
  let st' := update_animation_state st in
  F32.gt x f_15 = true \/ F32.lt x (F32.opp f_15) = true ->
  z_position st' = f_200
  /\ tick_starts_morph st = negb (is_morphing st)
  /\ (is_morphing st = false ->
      is_morphing st' = true
      /\ morphing_progress st' = F32.add F32.zero f_0_05
      /\ current_pentacube st' = next_pentacube st).
Proof.
  cbv zeta. intros H.
  assert (Hx : x_offset (lateral_offset (direction_reversal st)) = f_15
               \/ x_offset (lateral_offset (direction_reversal st))
                  = F32.opp f_15).
  { unfold lateral_offset.
    destruct (F32.gt _ _); [left; reflexivity|].
    destruct H as [H|H]; [discriminate H|]. rewrite H. right. reflexivity. }
  pose proof (depth_at_bound _ Hx) as Hz.
  destruct (update_shape st) as (_ & _ & -> & En & _).
  destruct (update_morph st) as (-> & -> & -> & _ & Em & _).
  set (s3 := depth (lateral_offset (direction_reversal st))) in *.
  assert (Hs : tick_starts_morph st = negb (is_morphing st)).
  { unfold tick_starts_morph. fold s3. unfold morph_starts.
    rewrite Hz, Em. reflexivity. }
  split; [exact Hz|]. split; [exact Hs|].
  intros Hm. rewrite Hm in Hs. unfold tick_starts_morph in Hs. fold s3 in Hs.
  destruct (morph_blocks s3) as (Hb & _).
  destruct (Hb Hs) as (_ & _ & Hc & Hp & Hm').
  rewrite morph_progress_current, Hc, En. auto.
Qed.

Lemma clamped_tick_starts_morph_witness :
  z_position (update_animation_state started_on_bar) = f_200
  /\ is_morphing (update_animation_state started_on_bar) = true.
Proof.
  destruct (clamped_tick_starts_morph started_on_bar) as (Hz & _ & H).
  - right. vm_compute. reflexivity.
  - split; [exact Hz|]. destruct H as (H & _); [vm_compute; reflexivity|exact H].
Defined.

(** ** An offset that is not a number *)

Lemma SFadd_nan_r x : F32.add x S754_nan = S754_nan.
Proof. now destruct x. Qed.

Lemma SFmul_nan_r x : F32.mul x S754_nan = S754_nan.
Proof. now destruct x. Qed.

Lemma is_nan_true x : F32.is_nan x = true <-> x = S754_nan.
Proof. destruct x; cbn; split; congruence. Qed.

(** X9. The bounds test does not catch an offset that is not a number: the
    tick leaves it as it is, the depth computed from it is not a number
    either, no morph starts, and the projection of any point then converts
    a NaN to [int], which is undefined in C. *)
Theorem nan_offset_is_never_repaired (st : render_state) :
  F32.is_nan (x_offset st) = true ->
  let st' := update_animation_state st in
  F32.is_nan (x_offset st') = true
  /\ F32.is_nan (z_position st') = true
  /\ tick_starts_morph st = false
  /\ forall x y z, project_point st' x y z = Undef (FloatToInt S754_nan).
Proof.
  intros Hx. apply is_nan_true in Hx. cbv zeta.
  destruct (update_lateral st) as (Ex & _).
  destruct (update_shape st) as (_ & _ & Ez & _).
  destruct (direction_reversal_fields st) as (Ex1 & _).
  assert (Hx2 : x_offset (lateral_offset (direction_reversal st)) = S754_nan).
  { unfold lateral_offset, advanced_offset. rewrite Ex1, Hx. reflexivity. }
  assert (Hz : z_position (depth (lateral_offset (direction_reversal st)))
               = S754_nan).
  { unfold depth. cbn [z_position]. rewrite Hx2. reflexivity. }
  rewrite Hx2 in Ex. rewrite Hz in Ez.
  split; [now apply is_nan_true|]. split; [now apply is_nan_true|].
  split.
  - unfold tick_starts_morph, morph_starts. rewrite Hz. reflexivity.
  - intros x y z. unfold project_point. rewrite Ex, Ez.
    rewrite SFadd_nan_r.
    change (F32.add S754_nan (F32.of_int PERSPECTIVE_DISTANCE)) with S754_nan.
    change (F32.le S754_nan f_0_1) with false. cbv iota.
    change (F32.div (F32.of_int PERSPECTIVE_DISTANCE) S754_nan) with S754_nan.
    rewrite SFmul_nan_r. reflexivity.
Qed.

(** ** Centre of a mesh *)

(** X10. A mesh without vertices has no centre: the loop of
    [get_pentacube_center_x] does not run and the function returns
    0.0f / 0, which is not a number; startup, when it picks such a mesh,
    leaves an offset that is not a number. *)
Theorem center_of_mesh_without_vertices (db : list pentacube_data_t)
    (i : Z) (p : pentacube_data_t) :
  0 <= i <= Int.max_signed ->
  db !! Z.to_nat i = Some p ->
  vertex_count p = 0 ->
  get_pentacube_center_x db i = Ok S754_nan
  /\ forall st,
       fst (random_pentacube (seed st)) = i ->
       exists st1,
         startup_state db st = Ok st1 /\ F32.is_nan (x_offset st1) = true.
Proof.
  intros Hi Hp Hv.
  assert (Hc : get_pentacube_center_x db i = Ok S754_nan).
  { unfold get_pentacube_center_x.
    rewrite <- (Z2Nat.id i) at 1 by lia.
    rewrite (read_Some _ _ _ _ Hp) by lia.
    cbn [mbind exec_bind]. rewrite Hv. reflexivity. }
  split; [exact Hc|].
  intros st Hst. unfold startup_state.
  destruct (random_pentacube (seed st)) as [cur s1]. cbn [fst] in Hst. subst cur.
  destruct (random_pentacube s1) as [next s2].
  rewrite Hc. eexists. split; reflexivity.
Qed.

Lemma nan_offset_is_never_repaired_witness :
  F32.is_nan (x_offset (update_animation_state started_on_no_vertices)) = true.
Proof.
  destruct (nan_offset_is_never_repaired started_on_no_vertices) as (H & _).
  - vm_compute. reflexivity.
  - exact H.
Defined.

Lemma center_of_mesh_without_vertices_witness :
  get_pentacube_center_x (replicate 29 no_vertices) 13 = Ok S754_nan.
Proof.
  destruct (center_of_mesh_without_vertices
              (replicate 29 no_vertices) 13 no_vertices) as (H & _).
  - unfold Int.max_signed. lia.
  - reflexivity.
  - reflexivity.
  - exact H.
Defined.

Lemma x_coordinates_lookup (n : nat) :
  forall verts, length verts = (3 * n)%nat ->
  length (x_coordinates verts) = n
  /\ forall i, (i < n)%nat -> x_coordinates verts !! i = verts !! (3 * i)%nat.
Proof.
  induction n as [|n IH]; intros verts Hl.
  - destruct verts; [|discriminate Hl]. split; [reflexivity|]. intros i Hi. lia.
  - destruct verts as [|x [|y [|z verts]]]; try (cbn in Hl; lia).
    destruct (IH verts) as (Hlen & Hlook); [cbn in Hl; lia|].
    cbn [x_coordinates length]. split; [lia|].
    intros [|i] Hi; [reflexivity|].
    replace (3 * S i)%nat with (S (S (S (3 * i)))) by lia.
    cbn [lookup list_lookup]. apply Hlook. lia.
Qed.

Lemma center_loop (verts : list F32.t) (n : nat) :
  length verts = (3 * n)%nat ->
  3 * Z.of_nat n <= Int.max_signed ->
  forall (k j : nat) (acc : F32.t),
    (j + k <= n)%nat ->
    iterate
      (fun i sum_x => x ← read ArrVertices verts (i * 3 + 0); Ok (F32.add sum_x x))
      (seqZ (Z.of_nat j) (Z.of_nat k)) acc
    = Ok (foldl F32.add acc (take k (drop j (x_coordinates verts)))).
Proof.
  intros Hl Hmax. destruct (x_coordinates_lookup n verts Hl) as (Hlen & Hlook).
  induction k as [|k IH]; intros j acc Hjk; [reflexivity|].
  rewrite seqZ_cons by lia. cbn [iterate].
  destruct (lookup_lt_is_Some_2 (x_coordinates verts) j ltac:(lia)) as [x Hx].
  pose proof Hx as Hv. rewrite Hlook in Hv by lia.
  replace (Z.of_nat j * 3 + 0) with (Z.of_nat (3 * j)) by lia.
  rewrite (read_Some _ _ _ _ Hv) by lia. cbn [mbind exec_bind].
  rewrite (drop_S _ _ _ Hx). cbn [take foldl].
  replace (Z.succ (Z.of_nat j)) with (Z.of_nat (S j)) by lia.
  replace (Z.pred (Z.of_nat (S k))) with (Z.of_nat k) by lia.
  apply IH. lia.
Qed.

(** X11. On a mesh whose vertex array has the announced size,
    [get_pentacube_center_x] reads inside the array, the x coordinate of
    each vertex and nothing else, and returns their float sum, accumulated
    from 0.0f in the order of the vertices, divided by the vertex count. *)
Theorem center_is_mean_of_x_coordinates (db : list pentacube_data_t)
    (i : Z) (p : pentacube_data_t) :
  0 <= i <= Int.max_signed ->
  db !! Z.to_nat i = Some p ->
  mesh_ok p ->
  get_pentacube_center_x db i
  = Ok (F32.div (foldl F32.add F32.zero (x_coordinates (vertices p)))
          (F32.of_int (vertex_count p))).
Proof.
  intros Hi Hp (Hv & Hl & _ & _ & Hmax & _).
  unfold get_pentacube_center_x.
  rewrite <- (Z2Nat.id i) at 1 by lia.
  rewrite (read_Some _ _ _ _ Hp) by lia. cbn [mbind exec_bind].
  unfold for_loop.
  assert (Hl' : length (vertices p) = (3 * Z.to_nat (vertex_count p))%nat) by lia.
  pose proof (center_loop (vertices p) (Z.to_nat (vertex_count p)) Hl'
                ltac:(lia) (Z.to_nat (vertex_count p)) 0%nat F32.zero
                ltac:(lia)) as Hloop.
  rewrite Z2Nat.id in Hloop by lia. change (Z.of_nat 0) with 0 in Hloop.
  rewrite Hloop. cbn [mbind exec_bind].
  destruct (x_coordinates_lookup _ _ Hl') as (Hlen & _).
  rewrite drop_0, take_ge by lia. reflexivity.
Qed.

Lemma center_is_mean_of_x_coordinates_witness :
  get_pentacube_center_x (replicate 29 bar) 13
  = Ok (F32.div (foldl F32.add F32.zero (x_coordinates (vertices bar)))
          (F32.of_int (vertex_count bar))).
Proof.
  apply (center_is_mean_of_x_coordinates (replicate 29 bar) 13 bar).
  - unfold Int.max_signed. lia.
  - reflexivity.
  - unfold mesh_ok, Int.max_signed. cbn. lia.
Defined.

(** ** Visibility, continued *)

Lemma wrap_opp z :
  Int.wrap z <> Int.min_signed -> Int.wrap (- z) = - Int.wrap z.
Proof.
  intros H. pose proof (wrap_range z) as Hr.
  rewrite <- (wrap_small (- Int.wrap z)).
  - apply wrap_congr. unfold Int.wrap.
    rewrite (Z.mod_eq (z + 2 ^ 31)) by lia.
    set (q := (z + 2 ^ 31) / 2 ^ 32).
    replace (- (z + 2 ^ 31 - 2 ^ 32 * q - 2 ^ 31)) with (- z + q * 2 ^ 32) by lia.
    symmetry. apply Z.mod_add. lia.
  - unfold Int.in_range, Int.min_signed, Int.max_signed in *. lia.
Qed.

Lemma cross_product_reversed x0 y0 x1 y1 x2 y2 :
  cross_product x0 y0 x2 y2 x1 y1 = - cross_product x0 y0 x1 y1 x2 y2.
Proof. unfold cross_product. ring. Qed.

(** X12. Reversing the winding of a face, that is exchanging its second and
    third vertex, negates the cross product: a face and its reverse are
    never both visible, whatever the [int] values (an overflow of the
    [int] arithmetic being taken to wrap around); an edge-on face is
    invisible from both sides; and when the coordinates are small enough
    for the [int] arithmetic to be exact, exactly one of the two windings
    of a face that is not edge-on is visible. *)
Theorem reversed_winding_is_culled (x0 y0 x1 y1 x2 y2 : Z) :
  let front := fst (is_face_visible_debug x0 y0 x1 y1 x2 y2) in
  let back := fst (is_face_visible_debug x0 y0 x2 y2 x1 y1) in
  (front = true -> back = false)
  /\ (cross_product x0 y0 x1 y1 x2 y2 = 0 -> front = false /\ back = false)
  /\ (Forall small_coord [x0; y0; x1; y1; x2; y2] ->
      cross_product x0 y0 x1 y1 x2 y2 <> 0 -> back = negb front).
Proof.
  cbv zeta. rewrite !is_face_visible_debug_cross. cbn [fst].
  rewrite (cross_product_reversed x0 y0 x1 y1 x2 y2).
  set (c := cross_product x0 y0 x1 y1 x2 y2).
  split; [|split].
  - intros H. assert (Hc : Int.wrap c > 0) by lia.
    rewrite wrap_opp by (unfold Int.min_signed; lia). lia.
  - intros ->. split; reflexivity.
  - intros Hs Hc. pose proof (cross_product_exact _ _ _ _ _ _ Hs) as He.
    fold c in He.
    rewrite wrap_opp by (pose proof (wrap_range c);
                         rewrite He; repeat (apply Forall_cons in Hs; destruct Hs as [? Hs]);
                         unfold small_coord, Int.min_signed, cross_product in *; nia).
    rewrite He. destruct (c >? 0) eqn:E; cbn [negb]; lia.
Qed.

(** X13. The test depends on the differences of the coordinates only: moving the
    three points by the same amount, as the constants CENTER_X and CENTER_Y
    do, changes neither the flag nor the cross product (also where the
    [int] arithmetic overflows, which is taken to wrap around); and the test
    does not depend on which of the three vertices comes first, as long as
    their cyclic order is kept. *)
Theorem visibility_of_moved_and_rotated_face (x0 y0 x1 y1 x2 y2 dx dy : Z) :
  is_face_visible_debug (Int.add dx x0) (Int.add dy y0) (Int.add dx x1)
    (Int.add dy y1) (Int.add dx x2) (Int.add dy y2)
  = is_face_visible_debug x0 y0 x1 y1 x2 y2
  /\ is_face_visible_debug x1 y1 x2 y2 x0 y0
     = is_face_visible_debug x0 y0 x1 y1 x2 y2.
Proof.
  split.
  - assert (H : forall d a b, Int.sub (Int.add d a) (Int.add d b) = Int.sub a b).
    { intros d a b. unfold Int.sub, Int.add. rewrite wrap_sub.
      f_equal. lia. }
    unfold is_face_visible_debug. rewrite !H. reflexivity.
  - rewrite !is_face_visible_debug_cross.
    replace (cross_product x1 y1 x2 y2 x0 y0)
      with (cross_product x0 y0 x1 y1 x2 y2) by (unfold cross_product; ring).
    reflexivity.
Qed.

(** ** The edge set, continued *)

Lemma add_edges_entries pairs :
  forall edge_set count,
    set_ok edge_set count ->
    exists edge_set' count',
      add_edges edge_set count pairs = Ok (edge_set', count')
      /\ set_ok edge_set' count'
      /\ entries edge_set' count' = add_entries (entries edge_set count) pairs.
Proof.
  induction pairs as [|[a b] pairs IH]; intros es n Hok.
  - exists es, n. auto.
  - destruct (add_edge_to_set_spec es n a b Hok)
      as (es1 & n1 & Hadd & Hok1 & _ & _ & Hent & _).
    destruct (IH es1 n1 Hok1) as (es2 & n2 & Hadds & Hok2 & Hent2).
    exists es2, n2. cbn [add_edges]. rewrite Hadd. cbn [mbind exec_bind].
    rewrite Hadds. split; [reflexivity|]. split; [exact Hok2|].
    rewrite Hent2, Hent. reflexivity.
Qed.

Lemma canonical_ordered a b : ordered (canonical a b).
Proof. unfold ordered, canonical. destruct (a >? b) eqn:E; cbn; lia. Qed.

Lemma add_entry_incl l a b p : p ∈ l -> p ∈ add_entry l a b.
Proof.
  intros H. unfold add_entry. destruct (_ >=? _); [exact H|].
  destruct (bool_decide _); [exact H|]. apply elem_of_app. now left.
Qed.

Lemma add_entry_inv l a b p :
  p ∈ add_entry l a b -> p ∈ l \/ p = canonical a b.
Proof.
  unfold add_entry. destruct (_ >=? _); [auto|].
  destruct (bool_decide _); [auto|]. intros H.
  apply elem_of_app in H. destruct H as [H|H]; [auto|].
  apply list_elem_of_singleton in H. auto.
Qed.

Lemma add_entry_length l a b :
  (length l <= length (add_entry l a b))%nat.
Proof.
  unfold add_entry. destruct (_ >=? _); [lia|].
  destruct (bool_decide _); [lia|]. rewrite length_app. lia.
Qed.

Lemma add_entries_length pairs :
  forall l, (length l <= length (add_entries l pairs))%nat.
Proof.
  induction pairs as [|[a b] pairs IH]; intros l; [cbn; lia|].
  cbn [add_entries foldl fst snd]. etransitivity; [apply (add_entry_length l a b)|].
  apply IH.
Qed.

Lemma add_entries_spec pairs :
  forall l,
    (NoDup l -> NoDup (add_entries l pairs))
    /\ (forall p, p ∈ add_entries l pairs ->
          p ∈ l \/ exists x y, (x, y) ∈ pairs /\ canonical x y = p)
    /\ (forall p, p ∈ l -> p ∈ add_entries l pairs)
    /\ (Z.of_nat (length (add_entries l pairs)) < MAX_EDGE_SET ->
        forall x y, (x, y) ∈ pairs -> canonical x y ∈ add_entries l pairs).
Proof.
  induction pairs as [|[a b] pairs IH]; intros l.
  - cbn. repeat split; auto. intros _ x y H. inversion H.
  - destruct (IH (add_entry l a b)) as (Hnd & Hfrom & Hkeep & Hall).
    change (add_entries l ((a, b) :: pairs))
      with (add_entries (add_entry l a b) pairs).
    split; [|split; [|split]].
    + intros H. now apply Hnd, add_entry_NoDup.
    + intros p Hp. destruct (Hfrom p Hp) as [H|(x & y & H & E)].
      * destruct (add_entry_inv _ _ _ _ H) as [H'|H']; [auto|].
        right. exists a, b. split; [left|auto].
      * right. exists x, y. split; [now right|exact E].
    + intros p Hp. now apply Hkeep, add_entry_incl.
    + intros Hlen x y Hxy. apply elem_of_cons in Hxy.
      destruct Hxy as [E|Hxy]; [|now apply Hall].
      injection E as -> ->. apply Hkeep, add_entry_elem. left.
      pose proof (add_entries_length pairs (add_entry l a b)).
      pose proof (add_entry_length l a b). lia.
Qed.

(** X14. Whatever the sequence of insertions into an empty set, the entries of
    the set are pairwise distinct, each is stored smaller index first, and
    each is one of the inserted pairs; as long as the set has not filled
    up, every inserted pair is an entry. *)
Theorem edge_set_holds_each_inserted_pair_once
    (edge_set : list edge_t) (pairs : list (Z * Z)) :
  set_ok edge_set 0 ->
  exists edge_set' count',
    add_edges edge_set 0 pairs = Ok (edge_set', count')
    /\ NoDup (entries edge_set' count')
    /\ (forall p, p ∈ entries edge_set' count' ->
          ordered p /\ exists x y, (x, y) ∈ pairs /\ canonical x y = p)
    /\ (count' < MAX_EDGE_SET ->
        forall x y, (x, y) ∈ pairs -> canonical x y ∈ entries edge_set' count').
Proof.
  intros Hok.
  destruct (add_edges_entries pairs edge_set 0 Hok) as (es & n & Hadd & Hok' & Hent).
  exists es, n. split; [exact Hadd|].
  change (entries edge_set 0) with (@nil (Z * Z)) in Hent.
  destruct (add_entries_spec pairs []) as (Hnd & Hfrom & _ & Hall).
  pose proof (length_entries _ _ Hok') as Hlen.
  rewrite Hent in *.
  split; [apply Hnd, NoDup_nil_2|]. split.
  - intros p Hp. destruct (Hfrom p Hp) as [H|(x & y & H & E)]; [inversion H|].
    split; [subst p; apply canonical_ordered|]. exists x, y. auto.
  - intros Hn. apply Hall. lia.
Qed.

Lemma edge_set_holds_each_inserted_pair_once_witness :
  exists edge_set' count',
    add_edges zeroed_edge_set 0 [(0, 1); (1, 0); (2, 1)] = Ok (edge_set', count')
    /\ NoDup (entries edge_set' count').
Proof.
  destruct (edge_set_holds_each_inserted_pair_once zeroed_edge_set
              [(0, 1); (1, 0); (2, 1)]) as (es & n & H & Hnd & _).
  - split; [reflexivity|unfold MAX_EDGE_SET; lia].
  - exists es, n. split; assumption.
Defined.

(** X15. The flag that [add_edge_to_set] returns tells whether the set had room,
    not whether the edge is in the set. When it is true the pair is an
    entry of the set afterwards. When the set is full it is false, also for
    a pair that the set already holds. *)
Theorem add_edge_to_set_flag (edge_set : list edge_t) (count a b : Z) :
  set_ok edge_set count ->
  exists flag edge_set' count',
    add_edge_to_set edge_set count a b = Ok (flag, edge_set', count')
    /\ (flag = true <-> count < MAX_EDGE_SET)
    /\ (flag = true -> canonical a b ∈ entries edge_set' count')
    /\ (flag = false -> edge_set' = edge_set /\ count' = count).
Proof.
  intros Hok.
  destruct (add_edge_to_set_spec edge_set count a b Hok)
    as (es & n & Hadd & Hok' & _ & _ & Hent & Hcap).
  exists (negb (count >=? MAX_EDGE_SET)), es, n.
  split; [exact Hadd|].
  pose proof (length_entries _ _ Hok) as Hlen.
  destruct (count >=? MAX_EDGE_SET) eqn:E; cbn [negb].
  - split; [split; [discriminate|lia]|]. split; [discriminate|].
    intros _. apply Hcap. lia.
  - split; [split; [lia|reflexivity]|]. split; [|discriminate].
    intros _. rewrite Hent. apply add_entry_elem. left. lia.
Qed.

Lemma add_edge_to_set_flag_witness :
  exists flag edge_set' count',
    add_edge_to_set zeroed_edge_set 0 2 1 = Ok (flag, edge_set', count')
    /\ (flag = true -> canonical 2 1 ∈ entries edge_set' count').
Proof.
  destruct (add_edge_to_set_flag zeroed_edge_set 0 2 1)
    as (f & es & n & H & _ & Hin & _).
  - split; [reflexivity|unfold MAX_EDGE_SET; lia].
  - exists f, es, n. split; assumption.
Defined.

(** ** Loops with a counter *)

Lemma iterate_counted {T : Type} (P : Z -> T -> Prop) (body : Z -> T -> exec T)
    (n : Z) :
  (forall i s s', 0 <= i < n -> P i s -> body i s = Ok s' -> P (i + 1) s') ->
  forall (k : nat) (j : Z) acc r,
    0 <= j -> j + Z.of_nat k <= n -> P j acc ->
    iterate body (seqZ j (Z.of_nat k)) acc = Ok r -> P (j + Z.of_nat k) r.
Proof.
  intros Hbody. induction k as [|k IH]; intros j acc r Hj Hjk Hacc H.
  - cbn in H. injection H as <-. now rewrite Z.add_0_r.
  - rewrite seqZ_cons in H by lia. cbn [iterate] in H.
    destruct (body j acc) as [s|] eqn:E; cbn [mbind exec_bind] in H;
      [|discriminate H].
    replace (Z.pred (Z.of_nat (S k))) with (Z.of_nat k) in H by lia.
    replace (j + Z.of_nat (S k)) with (Z.succ j + Z.of_nat k) by lia.
    apply (IH (Z.succ j) s r); [lia|lia| |exact H].
    replace (Z.succ j) with (j + 1) by lia.
    apply (Hbody j acc s); [lia|exact Hacc|exact E].
Qed.

Lemma for_loop_counted {T : Type} (P : Z -> T -> Prop) (body : Z -> T -> exec T)
    (n : Z) :
  (forall i s s', 0 <= i < n -> P i s -> body i s = Ok s' -> P (i + 1) s') ->
  forall acc r, P 0 acc -> for_loop n body acc = Ok r -> P (Z.max 0 n) r.
Proof.
  intros Hbody acc r Hacc H. destruct (Z.le_gt_cases n 0) as [Hn|Hn].
  - rewrite for_loop_nonpos in H by exact Hn. injection H as <-.
    now rewrite Z.max_l by lia.
  - unfold for_loop in H. rewrite Z.max_r by lia.
    pose proof (iterate_counted P body n Hbody (Z.to_nat n) 0 acc r) as Hit.
    rewrite Z2Nat.id in Hit by lia. rewrite Z.add_0_l in Hit.
    apply Hit; [lia|lia|exact Hacc|exact H].
Qed.

(** ** The frame of the culling renderer, continued *)

(** The steps of a frame that returns, with the state [st1] that its tick
    left. *)
Lemma culled_frame_steps cosf sinf opa db fresh st st2 out :
  Culled.draw_pentacube_frame cosf sinf opa db fresh st = Ok (st2, out) ->
  exists p o sc faces drawn lines_drawn,
    let st1 := update_animation_state st in
    read ArrPentacubeData db (current_pentacube st1) = Ok p
    /\ Culled.frame_opacity opa st1 = Ok o
    /\ for_loop (face_count p) (Culled.process_face p sc (should_debug st1))
         (no_faces fresh) = Ok faces
    /\ for_loop (visible_edge_count faces)
         (Culled.draw_edge sc (visible_edges faces) o) ([], 0)
       = Ok (drawn, lines_drawn)
    /\ st2 = set_frame_statics
               (if reports st1 then current_pentacube st1
                else last_logged_pentacube st1)
               (Int.add (debug_frame_count st1) 1) st1
    /\ out = [CanvasFillBg opa; LabelSetText (name p)]
             ++ (if should_debug st1 then [PrintDebugHeader (name p)] else [])
             ++ face_log faces
             ++ (if should_debug st1
                 then [PrintResult (visible_faces faces)
                         (total_faces_checked faces) (visible_edge_count faces)]
                 else [])
             ++ drawn
             ++ (if reports st1
                 then [PrintPentacube (name p) (edge_count p) lines_drawn
                         (visible_faces faces) (total_faces_checked faces)]
                 else []).
Proof.
  unfold Culled.draw_pentacube_frame. intros H. cbv zeta in H |- *.
  unfold should_debug, reports, no_faces.
  remember (update_animation_state st) as st1 eqn:Est1.
  step_exec H. step_exec H. step_exec H. destruct a1 as [rotated_verts sc].
  step_exec H. step_exec H. destruct a2 as [drawn lines_drawn].
  injection H as <- <-.
  exists a, a0, sc, a1, drawn, lines_drawn.
  split; [reflexivity|]. split; [reflexivity|]. split; [exact E2|].
  split; [exact E3|]. split; reflexivity.
Qed.

Lemma add_face_edge_set_ok p fvi fvc n acc r :
  set_ok acc.1 acc.2 ->
  for_loop n (Culled.add_face_edge p fvi fvc) acc = Ok r ->
  set_ok r.1 r.2.
Proof.
  intros Hacc. unfold for_loop.
  apply (iterate_invariant (fun a => set_ok a.1 a.2)); [|exact Hacc].
  intros i [es c] s' Hs H. unfold Culled.add_face_edge in H. cbn [fst snd] in Hs.
  step_exec H. step_exec H.
  destruct (add_edge_to_set_spec es c a a0 Hs)
    as (es' & c' & Hadd & Hok & _).
  rewrite Hadd in H. cbn [mbind exec_bind] in H. injection H as <-. exact Hok.
Qed.

(** The face loop keeps the edge set well formed. *)
Lemma culled_face_loop_set_ok p sc dbg n acc faces :
  set_ok (visible_edges acc) (visible_edge_count acc) ->
  for_loop n (Culled.process_face p sc dbg) acc = Ok faces ->
  set_ok (visible_edges faces) (visible_edge_count faces).
Proof.
  intros Hacc. unfold for_loop.
  apply (iterate_invariant
           (fun a => set_ok (visible_edges a) (visible_edge_count a)));
    [|exact Hacc].
  intros i s s' Hok Hb. unfold Culled.process_face in Hb.
  step_exec Hb.
  destruct (Culled.face_cross p sc (face_vert_idx s))
    as [[[vis cross] [[v0 v1] v2]]|]; cbn [mbind exec_bind] in Hb;
    [|discriminate Hb].
  step_exec Hb. destruct a0 as [es cnt]. injection Hb as <-.
  cbn [visible_edges visible_edge_count].
  destruct vis.
  - apply add_face_edge_set_ok in E0; [exact E0|exact Hok].
  - injection E0 as <- <-. exact Hok.
Qed.

(** The events of the face loop are face reports. *)
Lemma culled_face_log_all (P : event -> Prop) p sc dbg n acc r :
  (forall i c x v a b d, P (PrintFace i c x v a b d)) ->
  Forall P (face_log acc) ->
  for_loop n (Culled.process_face p sc dbg) acc = Ok r ->
  Forall P (face_log r).
Proof.
  intros HP Hacc. unfold for_loop.
  apply (iterate_invariant (fun a => Forall P (face_log a))); [|exact Hacc].
  intros i s s' Hs H. unfold Culled.process_face in H.
  step_exec H.
  destruct (Culled.face_cross p sc (face_vert_idx s))
    as [[[vis cross] [[v0 v1] v2]]|]; cbn [mbind exec_bind] in H;
    [|discriminate H].
  step_exec H. destruct a0 as [es cnt]. injection H as <-. cbn [face_log].
  apply Forall_app_2; [exact Hs|]. destruct dbg; repeat constructor. apply HP.
Qed.

(** What the face loop keeps true at face [i]. *)
Lemma culled_face_loop p sc dbg fresh faces :
  Z.of_nat (length fresh) = MAX_EDGE_SET ->
  Int.in_range (face_count p) ->
  for_loop (face_count p) (Culled.process_face p sc dbg) (no_faces fresh)
  = Ok faces ->
  set_ok (visible_edges faces) (visible_edge_count faces)
  /\ total_faces_checked faces = Z.max 0 (face_count p)
  /\ 0 <= visible_faces faces <= total_faces_checked faces.
Proof.
  intros Hl Hn H.
  pose proof (for_loop_counted
                (fun i a =>
                   set_ok (visible_edges a) (visible_edge_count a)
                   /\ total_faces_checked a = i
                   /\ 0 <= visible_faces a <= i)
                (Culled.process_face p sc dbg) (face_count p)) as Hloop.
  cbv beta in Hloop.
  destruct (Hloop) with (acc := no_faces fresh) (r := faces) as (H1 & H2 & H3).
  - intros i s s' Hi (Hok & Ht & Hv) Hb. unfold Culled.process_face in Hb.
    step_exec Hb.
    destruct (Culled.face_cross p sc (face_vert_idx s))
      as [[[vis cross] [[v0 v1] v2]]|]; cbn [mbind exec_bind] in Hb;
      [|discriminate Hb].
    step_exec Hb. destruct a0 as [es cnt]. injection Hb as <-.
    cbn [visible_edges visible_edge_count total_faces_checked visible_faces].
    unfold Int.in_range, Int.min_signed, Int.max_signed in Hn.
    unfold Int.add.
    rewrite (wrap_small (total_faces_checked s + 1))
      by (unfold Int.in_range, Int.min_signed, Int.max_signed; lia).
    split; [|split; [lia|]].
    + destruct vis.
      * apply add_face_edge_set_ok in E0; [exact E0|exact Hok].
      * injection E0 as <- <-. exact Hok.
    + destruct vis; [|lia].
      rewrite wrap_small
        by (unfold Int.in_range, Int.min_signed, Int.max_signed; lia).
      lia.
  - cbn. split; [|lia]. split; [exact Hl|unfold MAX_EDGE_SET; lia].
  - exact H.
  - rewrite H2. auto.
Qed.

(** The drawing loop emits one line per turn and counts it. *)
Lemma culled_draw_loop sc es o n drawn lines_drawn :
  n <= MAX_EDGE_SET ->
  for_loop n (Culled.draw_edge sc es o) ([], 0) = Ok (drawn, lines_drawn) ->
  lines_drawn = Z.max 0 n
  /\ Z.of_nat (length drawn) = Z.max 0 n
  /\ Forall (fun e => is_line e = true) drawn.
Proof.
  intros Hn H.
  pose proof (for_loop_counted
                (fun i (a : list event * Z) =>
                   a.2 = i /\ Z.of_nat (length a.1) = i
                   /\ Forall (fun e => is_line e = true) a.1)
                (Culled.draw_edge sc es o) n) as Hloop.
  cbv beta in Hloop.
  apply (Hloop) with (acc := ([], 0)) (r := (drawn, lines_drawn)).
  - intros i [d k] s' Hi (Hk & Hlen & Hall) Hb. cbn [fst snd] in *.
    unfold Culled.draw_edge in Hb. do 5 step_exec Hb. injection Hb as <-.
    cbn [fst snd]. subst k. unfold Int.add, MAX_EDGE_SET in *.
    rewrite wrap_small
      by (unfold Int.in_range, Int.min_signed, Int.max_signed; lia).
    split; [reflexivity|]. rewrite length_app. cbn [length].
    split; [lia|]. apply Forall_app_2; [exact Hall|]. repeat constructor.
  - cbn. auto.
  - exact H.
Qed.

Lemma filter_all {A : Type} (P : A -> Prop) `{forall x, Decision (P x)} (l : list A) :
  Forall P l -> filter P l = l.
Proof.
  induction 1 as [|x l Hx _ IH]; [reflexivity|].
  rewrite filter_cons_True by exact Hx. now rewrite IH.
Qed.

Lemma filter_none {A : Type} (P : A -> Prop) `{forall x, Decision (P x)} (l : list A) :
  Forall (fun x => ~ P x) l -> filter P l = [].
Proof.
  induction 1 as [|x l Hx _ IH]; [reflexivity|].
  now rewrite filter_cons_False by exact Hx.
Qed.

Lemma line_count_app out1 out2 :
  line_count (out1 ++ out2) = line_count out1 + line_count out2.
Proof. unfold line_count. rewrite filter_app, length_app. lia. Qed.

Lemma line_count_lines out :
  Forall (fun e => is_line e = true) out -> line_count out = Z.of_nat (length out).
Proof. intros H. unfold line_count. now rewrite filter_all. Qed.

Lemma line_count_no_line out :
  Forall (fun e => is_line e = false) out -> line_count out = 0.
Proof.
  intros H. unfold line_count. rewrite filter_none; [reflexivity|].
  eapply Forall_impl; [exact H|]. intros e He. cbv beta. congruence.
Qed.


Lemma no_faces_set_ok fresh :
  Z.of_nat (length fresh) = MAX_EDGE_SET ->
  set_ok (visible_edges (no_faces fresh)) (visible_edge_count (no_faces fresh)).
Proof. intros H. split; [exact H|]. cbn. unfold MAX_EDGE_SET. lia. Qed.

(** The lines of a frame are those of its drawing loop, one per entry of
    the visible edge set. *)
Lemma culled_lines fresh p sc dbg o faces drawn lines_drawn
    (l1 l2 l3 l4 : list event) :
  Z.of_nat (length fresh) = MAX_EDGE_SET ->
  for_loop (face_count p) (Culled.process_face p sc dbg) (no_faces fresh)
  = Ok faces ->
  for_loop (visible_edge_count faces)
    (Culled.draw_edge sc (visible_edges faces) o) ([], 0)
  = Ok (drawn, lines_drawn) ->
  Forall (fun e => is_line e = false) (l1 ++ l2 ++ l3 ++ l4) ->
  0 <= visible_edge_count faces <= MAX_EDGE_SET
  /\ lines_drawn = visible_edge_count faces
  /\ line_count (l1 ++ l2 ++ face_log faces ++ l3 ++ drawn ++ l4)
     = visible_edge_count faces.
Proof.
  intros Hl Hfaces Hdraw Hno.
  pose proof (culled_face_loop_set_ok _ _ _ _ _ _ (no_faces_set_ok _ Hl) Hfaces)
    as [Hlen Hc].
  destruct (culled_draw_loop sc (visible_edges faces) o (visible_edge_count faces)
              drawn lines_drawn ltac:(lia) Hdraw) as (Hld & Hlen' & Hall).
  rewrite Z.max_r in Hld, Hlen' by lia.
  split; [exact Hc|]. split; [exact Hld|].
  assert (Hlog : Forall (fun e => is_line e = false) (face_log faces)).
  { eapply culled_face_log_all; [| |exact Hfaces]; [reflexivity|constructor]. }
  apply Forall_app in Hno. destruct Hno as [H1 Hno].
  apply Forall_app in Hno. destruct Hno as [H2 Hno].
  apply Forall_app in Hno. destruct Hno as [H3 H4].
  rewrite !line_count_app.
  rewrite (line_count_no_line l1), (line_count_no_line l2),
    (line_count_no_line l3), (line_count_no_line l4),
    (line_count_no_line (face_log faces)), (line_count_lines drawn)
    by assumption.
  lia.
Qed.

Ltac no_line_events :=
  repeat match goal with
         | |- context [if ?b then _ else _] => destruct b
         end;
  repeat constructor.

Lemma culled_face_loop_counters p sc dbg fresh faces :
  Int.in_range (face_count p) ->
  for_loop (face_count p) (Culled.process_face p sc dbg) (no_faces fresh)
  = Ok faces ->
  total_faces_checked faces = Z.max 0 (face_count p)
  /\ 0 <= visible_faces faces <= total_faces_checked faces.
Proof.
  intros Hn H.
  pose proof (for_loop_counted
                (fun i a => total_faces_checked a = i /\ 0 <= visible_faces a <= i)
                (Culled.process_face p sc dbg) (face_count p)) as Hloop.
  cbv beta in Hloop.
  destruct (Hloop) with (acc := no_faces fresh) (r := faces) as (H2 & H3).
  - intros i s s' Hi (Ht & Hv) Hb. unfold Culled.process_face in Hb.
    step_exec Hb.
    destruct (Culled.face_cross p sc (face_vert_idx s))
      as [[[vis cross] [[v0 v1] v2]]|]; cbn [mbind exec_bind] in Hb;
      [|discriminate Hb].
    step_exec Hb. destruct a0 as [es cnt]. injection Hb as <-.
    cbn [total_faces_checked visible_faces].
    unfold Int.in_range, Int.min_signed, Int.max_signed in Hn.
    unfold Int.add.
    rewrite (wrap_small (total_faces_checked s + 1))
      by (unfold Int.in_range, Int.min_signed, Int.max_signed; lia).
    split; [lia|]. destruct vis; [|lia].
    rewrite wrap_small
      by (unfold Int.in_range, Int.min_signed, Int.max_signed; lia).
    lia.
  - cbn. lia.
  - exact H.
  - rewrite H2. auto.
Qed.

(** The only event of a frame that is a PENTACUBE line is the one that the
    end of the frame prints when it reports. *)
Lemma culled_report_event fresh p sc dbg o faces drawn lines_drawn
    (l1 l2 l3 : list event) (rep : bool) (r e : event) :
  Z.of_nat (length fresh) = MAX_EDGE_SET ->
  for_loop (face_count p) (Culled.process_face p sc dbg) (no_faces fresh)
  = Ok faces ->
  for_loop (visible_edge_count faces)
    (Culled.draw_edge sc (visible_edges faces) o) ([], 0)
  = Ok (drawn, lines_drawn) ->
  Forall (fun e => is_report e = false) (l1 ++ l2 ++ l3) ->
  e ∈ l1 ++ l2 ++ face_log faces ++ l3 ++ drawn ++ (if rep then [r] else []) ->
  is_report e = true ->
  rep = true /\ e = r.
Proof.
  intros Hl Hfaces Hdraw Hno He Hr.
  pose proof (culled_face_loop_set_ok _ _ _ _ _ _ (no_faces_set_ok _ Hl) Hfaces)
    as [_ Hc].
  destruct (culled_draw_loop sc (visible_edges faces) o (visible_edge_count faces)
              drawn lines_drawn ltac:(lia) Hdraw) as (_ & _ & Hall).
  assert (Hlog : Forall (fun e => is_report e = false) (face_log faces)).
  { eapply culled_face_log_all; [| |exact Hfaces]; [reflexivity|constructor]. }
  apply Forall_app in Hno. destruct Hno as [H1 Hno].
  apply Forall_app in Hno. destruct Hno as [H2 H3].
  rewrite Forall_forall in H1, H2, H3, Hlog, Hall.
  repeat (apply elem_of_app in He; destruct He as [He|He]);
    try (first [apply H1 in He | apply H2 in He | apply H3 in He
               | apply Hlog in He]; congruence).
  - apply Hall in He. destruct e; discriminate.
  - destruct rep; [|inversion He].
    apply list_elem_of_singleton in He. auto.
Qed.

(** X16. The PENTACUBE line that a frame of the culling renderer prints tells
    the truth about that frame: it names the current mesh and its edge
    count, its Drawn figure is the number of lines of the frame, and its
    Faces figures are the number of faces of the mesh and, at most that,
    the number of those found visible. *)
Theorem pentacube_line_is_accurate cosf sinf (LV_OPA_COVER : Z)
    (pentacube_data : list pentacube_data_t) (fresh_edge_set : list edge_t)
    (st st2 : render_state) (out : list event) (p : pentacube_data_t) :
  Z.of_nat (length fresh_edge_set) = MAX_EDGE_SET ->
  read ArrPentacubeData pentacube_data
    (current_pentacube (update_animation_state st)) = Ok p ->
  Int.in_range (face_count p) ->
  Culled.draw_pentacube_frame cosf sinf LV_OPA_COVER pentacube_data
    fresh_edge_set st = Ok (st2, out) ->
  forall shape edges_total drawn faces_visible faces_total,
    PrintPentacube shape edges_total drawn faces_visible faces_total ∈ out ->
    shape = name p
    /\ edges_total = edge_count p
    /\ drawn = line_count out
    /\ faces_total = Z.max 0 (face_count p)
    /\ 0 <= faces_visible <= faces_total.
Proof.
  intros Hl Hp Hn Hf shape et dr fv ft Hin.
  destruct (culled_frame_steps _ _ _ _ _ _ _ _ Hf)
    as (p1 & o & sc & faces & drawn & ld & Hp1 & _ & Hfaces & Hdraw & _ & Hout).
  cbv zeta in Hp1, Hfaces. rewrite Hp in Hp1. injection Hp1 as <-.
  destruct (culled_face_loop_counters _ _ _ _ _ Hn Hfaces) as (Ht & Hv).
  destruct (culled_lines _ _ _ _ _ _ _ _
              [CanvasFillBg LV_OPA_COVER; LabelSetText (name p)]
              (if should_debug (update_animation_state st)
               then [PrintDebugHeader (name p)] else [])
              (if should_debug (update_animation_state st)
               then [PrintResult (visible_faces faces)
                       (total_faces_checked faces) (visible_edge_count faces)]
               else [])
              (if reports (update_animation_state st)
               then [PrintPentacube (name p) (edge_count p) ld
                       (visible_faces faces) (total_faces_checked faces)]
               else [])
              Hl Hfaces Hdraw) as (_ & Hld & Hcount).
  { no_line_events. }
  rewrite <- Hout in Hcount. rewrite Hout in Hin.
  match type of Hin with
  | _ ∈ ?l1 ++ ?l2 ++ _ ++ ?l3 ++ _ =>
      assert (Hno : Forall (fun e => is_report e = false) (l1 ++ l2 ++ l3))
        by no_line_events
  end.
  destruct (culled_report_event _ _ _ _ _ _ _ _ _ _ _ _ _ _ Hl Hfaces Hdraw
              Hno Hin eq_refl) as (_ & E).
  injection E as -> -> -> -> ->.
  rewrite Hcount, Hld, Ht. repeat split; try reflexivity; lia.
Qed.

Lemma pentacube_line_is_accurate_witness :
  exists st2 out,
    Culled.draw_pentacube_frame cos_at_0 sin_at_0 255 (replicate 29 bar)
      zeroed_edge_set late_in_morph = Ok (st2, out)
    /\ PrintPentacube "I" 12 4 1 6 ∈ out
    /\ 4 = line_count out.
Proof.
  destruct (Culled.draw_pentacube_frame cos_at_0 sin_at_0 255 (replicate 29 bar)
              zeroed_edge_set late_in_morph) as [[st2 out]|] eqn:Ef;
    [|vm_compute in Ef; discriminate Ef].
  exists st2, out. split; [reflexivity|].
  assert (Hin : PrintPentacube "I" 12 4 1 6 ∈ out).
  { vm_compute in Ef. injection Ef as _ <-.
    apply list_elem_of_In. cbn. tauto. }
  split; [exact Hin|].
  assert (Hp : read ArrPentacubeData (replicate 29 bar)
                 (current_pentacube (update_animation_state late_in_morph))
               = Ok bar) by (vm_compute; reflexivity).
  assert (Hn : Int.in_range (face_count bar))
    by (unfold Int.in_range, Int.min_signed, Int.max_signed; cbn; lia).
  destruct (pentacube_line_is_accurate cos_at_0 sin_at_0 255 (replicate 29 bar)
              zeroed_edge_set late_in_morph st2 out bar eq_refl Hp Hn Ef
              _ _ _ _ _ Hin) as (_ & _ & H & _).
  exact H.
Defined.

Lemma set_frame_statics_marks logged dbg st :
  last_logged_pentacube (set_frame_statics logged dbg st) = logged
  /\ debug_frame_count (set_frame_statics logged dbg st) = dbg
  /\ current_frame (set_frame_statics logged dbg st) = current_frame st.
Proof. repeat split. Qed.

(** X17. Once a mesh has been logged, no PENTACUBE line is printed until a later
    morph has brought progress above 0.9 again: a frame that prints the line
    marks the current mesh as logged; a frame that starts on a logged mesh
    prints no such line, and leaves the mesh logged unless its tick starts
    a morph. *)
Theorem pentacube_line_once_per_mesh cosf sinf (LV_OPA_COVER : Z)
    (pentacube_data : list pentacube_data_t) (fresh_edge_set : list edge_t)
    (st st2 : render_state) (out : list event) :
  Z.of_nat (length fresh_edge_set) = MAX_EDGE_SET ->
  Culled.draw_pentacube_frame cosf sinf LV_OPA_COVER pentacube_data
    fresh_edge_set st = Ok (st2, out) ->
  (forall e, e ∈ out -> is_report e = true ->
     last_logged_pentacube st2 = current_pentacube st2)
  /\ (last_logged_pentacube st = current_pentacube st ->
      Forall (fun e => is_report e = false) out
      /\ (tick_starts_morph st = false ->
          last_logged_pentacube st2 = current_pentacube st2)).
Proof.
  intros Hl Hf.
  destruct (culled_frame_steps _ _ _ _ _ _ _ _ Hf)
    as (p & o & sc & faces & drawn & ld & _ & _ & Hfaces & Hdraw & -> & Hout).
  cbv zeta in Hfaces.
  destruct (set_frame_statics_fields
              (if reports (update_animation_state st)
               then current_pentacube (update_animation_state st)
               else last_logged_pentacube (update_animation_state st))
              (Int.add (debug_frame_count (update_animation_state st)) 1)
              (update_animation_state st)) as (_ & _ & _ & _ & ->).
  destruct (set_frame_statics_marks
              (if reports (update_animation_state st)
               then current_pentacube (update_animation_state st)
               else last_logged_pentacube (update_animation_state st))
              (Int.add (debug_frame_count (update_animation_state st)) 1)
              (update_animation_state st)) as (-> & _).
  assert (Hrep : forall e, e ∈ out -> is_report e = true ->
                   reports (update_animation_state st) = true).
  { intros e He Hr. rewrite Hout in He.
    match type of He with
    | _ ∈ ?l1 ++ ?l2 ++ _ ++ ?l3 ++ _ =>
        assert (Hno : Forall (fun e => is_report e = false) (l1 ++ l2 ++ l3))
          by no_line_events
    end.
    now destruct (culled_report_event _ _ _ _ _ _ _ _ _ _ _ _ _ _ Hl Hfaces
                    Hdraw Hno He Hr) as (H & _). }
  split.
  - intros e He Hr. now rewrite (Hrep e He Hr).
  - intros Hlog.
    destruct (tick_mesh_fields st) as (Hstart & Hidle).
    assert (Hquiet : reports (update_animation_state st) = false).
    { unfold reports. destruct (tick_starts_morph st) eqn:Es.
      - destruct (update_morph st) as (-> & _).
        destruct (morph_blocks (depth (lateral_offset (direction_reversal st))))
          as (Hb & _).
        destruct (Hb Es) as (_ & _ & _ & -> & _). reflexivity.
      - destruct (Hidle eq_refl) as (-> & _ & ->). rewrite Hlog, Z.eqb_refl.
        apply andb_false_r. }
    split.
    + apply Forall_forall. intros e He. destruct (is_report e) eqn:Er; [|reflexivity].
      rewrite (Hrep e He Er) in Hquiet. discriminate Hquiet.
    + intros Es. rewrite Hquiet. destruct (Hidle Es) as (-> & _ & ->). exact Hlog.
Qed.

Lemma pentacube_line_once_per_mesh_witness :
  exists st2 out,
    Culled.draw_pentacube_frame cos_at_0 sin_at_0 255 (replicate 29 bar)
      zeroed_edge_set late_in_morph = Ok (st2, out)
    /\ last_logged_pentacube st2 = current_pentacube st2.
Proof.
  destruct (Culled.draw_pentacube_frame cos_at_0 sin_at_0 255 (replicate 29 bar)
              zeroed_edge_set late_in_morph) as [[st2 out]|] eqn:Ef;
    [|vm_compute in Ef; discriminate Ef].
  exists st2, out. split; [reflexivity|].
  destruct (pentacube_line_once_per_mesh cos_at_0 sin_at_0 255 (replicate 29 bar)
              zeroed_edge_set late_in_morph st2 out eq_refl Ef) as (H & _).
  apply (H (PrintPentacube "I" 12 4 1 6)); [|reflexivity].
  vm_compute in Ef. injection Ef as _ <-. apply list_elem_of_In. cbn. tauto.
Defined.

(** ** Frame counter *)

Lemma set_current_frame_frame f st : current_frame (set_current_frame f st) = f.
Proof. reflexivity. Qed.

Lemma culled_timer_cb_frame cosf sinf opa db fresh st st' out :
  0 <= current_frame st < FRAME_COUNT ->
  Culled.animation_timer_cb cosf sinf opa db fresh st = Ok (st', out) ->
  current_frame st' = (current_frame st + 1) mod FRAME_COUNT.
Proof.
  intros Hc. unfold Culled.animation_timer_cb. intros H.
  destruct (Culled.draw_pentacube_frame cosf sinf opa db fresh st)
    as [[st1 out1]|] eqn:Ef; cbn [mbind exec_bind] in H; [|discriminate H].
  assert (Hcf : current_frame st1 = current_frame st).
  { destruct (culled_frame_state _ _ _ _ _ _ _ _ Ef) as (l & d & E).
    rewrite E.
    destruct (set_frame_statics_marks l d (update_animation_state st))
      as (_ & _ & ->).
    apply update_counters. }
  injection H as <- _. rewrite set_current_frame_frame, Hcf.
  unfold FRAME_COUNT in *. unfold Int.add, Int.rem.
  rewrite wrap_small
    by (unfold Int.in_range, Int.min_signed, Int.max_signed; lia).
  apply Z.rem_mod_nonneg; lia.
Qed.

(** X18. The frame counter goes round FRAME_COUNT (32) values: after n expiries
    of the animation timer it is the counter at the start plus n, modulo
    32, so that the rotation angle repeats every 32 frames. *)
Theorem frame_counter_cycles cosf sinf (LV_OPA_COVER : Z)
    (pentacube_data : list pentacube_data_t) (fresh_edge_set : list edge_t)
    (n : nat) (st st' : render_state) (out : list event) :
  0 <= current_frame st < FRAME_COUNT ->
  Culled.run_ticks cosf sinf LV_OPA_COVER pentacube_data fresh_edge_set n st
  = Ok (st', out) ->
  current_frame st' = (current_frame st + Z.of_nat n) mod FRAME_COUNT.
Proof.
  revert st st' out. induction n as [|n IH]; intros st st' out Hc H.
  - injection H as <- _. rewrite Z.add_0_r. symmetry.
    apply Z.mod_small. exact Hc.
  - rewrite culled_run_ticks_S in H.
    destruct (Culled.animation_timer_cb cosf sinf LV_OPA_COVER pentacube_data
                fresh_edge_set st) as [[st1 out1]|] eqn:Ecb;
      cbn [mbind exec_bind] in H; [|discriminate H].
    destruct (Culled.run_ticks cosf sinf LV_OPA_COVER pentacube_data
                fresh_edge_set n st1) as [[st2 out2]|] eqn:Erun;
      cbn [mbind exec_bind] in H; [|discriminate H].
    injection H as <- _.
    pose proof (culled_timer_cb_frame _ _ _ _ _ _ _ _ Hc Ecb) as H1.
    rewrite (IH st1 st2 out2); [|rewrite H1; apply Z.mod_pos_bound;
                                 unfold FRAME_COUNT; lia|exact Erun].
    rewrite H1. unfold FRAME_COUNT. rewrite Zplus_mod_idemp_l. f_equal. lia.
Qed.

Lemma frame_counter_cycles_witness :
  exists st' out,
    Culled.run_ticks cos_at_0 sin_at_0 255 (replicate 29 cube) zeroed_edge_set
      33 initial_state = Ok (st', out)
    /\ current_frame st' = 1.
Proof.
  destruct (Culled.run_ticks cos_at_0 sin_at_0 255 (replicate 29 cube)
              zeroed_edge_set 33 initial_state) as [[st' out]|] eqn:Er;
    [|vm_compute in Er; discriminate Er].
  exists st', out. split; [reflexivity|].
  rewrite (frame_counter_cycles cos_at_0 sin_at_0 255 (replicate 29 cube)
             zeroed_edge_set 33 initial_state st' out); [reflexivity| |exact Er].
  unfold FRAME_COUNT. cbn. lia.
Defined.

(** ** Startup *)

(** X19. The generator starts from the fixed seed 12345, so that startup selects
    the same two meshes in every run, whatever the mesh table holds: mesh 13
    as the current one and mesh 9 as the next. It faults exactly when the
    centre of mesh 13 cannot be computed, and otherwise sets the offset to
    minus that centre times BASE_SIZE. *)
Theorem startup_selection_is_fixed (pentacube_data : list pentacube_data_t) :
  startup_state pentacube_data initial_state
  = match get_pentacube_center_x pentacube_data 13 with
    | Ok center_x =>
        Ok (set_startup 13 9 654583775
              (F32.mul (F32.opp center_x) (F32.of_int BASE_SIZE)) initial_state)
    | Undef f => Undef f
    end.
Proof.
  unfold startup_state.
  change (random_pentacube (seed initial_state)) with (13, 1406932606).
  change (random_pentacube 1406932606) with (9, 654583775).
  cbv iota beta.
  destruct (get_pentacube_center_x pentacube_data 13); reflexivity.
Qed.

(** ** The two renderers *)

Lemma fallback_frame_state cosf sinf opa db st st2 out :
  Fallback.draw_pentacube_frame cosf sinf opa db st = Ok (st2, out) ->
  exists p rest,
    read ArrPentacubeData db (current_pentacube (update_animation_state st)) = Ok p
    /\ st2 = set_frame_statics
               (if reports (update_animation_state st)
                then current_pentacube (update_animation_state st)
                else last_logged_pentacube (update_animation_state st))
               (debug_frame_count (update_animation_state st))
               (update_animation_state st)
    /\ out = [CanvasFillBg opa; LabelSetText (name p)] ++ rest.
Proof.
  unfold Fallback.draw_pentacube_frame. intros H. cbv zeta in H.
  unfold reports.
  remember (update_animation_state st) as st1 eqn:Est1.
  do 3 step_exec H. destruct a1 as [lines lines_drawn].
  injection H as <- <-. eauto.
Qed.

(** X20. The renderer with face culling and the earlier one run the same state
    machine: on the same state, the frames of the two leave the same
    animation state, which is the one that the tick leaves, with the same
    mark of the last logged mesh; they differ only in the counter of
    debugged frames, which the earlier renderer does not have. Both start
    their output by clearing the canvas and naming the same mesh. *)
Theorem renderers_run_the_same_state_machine cosf sinf (LV_OPA_COVER : Z)
    (pentacube_data : list pentacube_data_t) (fresh_edge_set : list edge_t)
    (st culled fallback : render_state) (out_culled out_fallback : list event) :
  Culled.draw_pentacube_frame cosf sinf LV_OPA_COVER pentacube_data
    fresh_edge_set st = Ok (culled, out_culled) ->
  Fallback.draw_pentacube_frame cosf sinf LV_OPA_COVER pentacube_data st
  = Ok (fallback, out_fallback) ->
  culled
  = set_frame_statics (last_logged_pentacube fallback)
      (Int.add (debug_frame_count st) 1) (update_animation_state st)
  /\ fallback
     = set_frame_statics (last_logged_pentacube fallback)
         (debug_frame_count st) (update_animation_state st)
  /\ take 2 out_culled = take 2 out_fallback.
Proof.
  intros Hc Hf.
  destruct (culled_frame_steps _ _ _ _ _ _ _ _ Hc)
    as (p & o & sc & faces & drawn & ld & Hp & _ & _ & _ & -> & ->).
  destruct (fallback_frame_state _ _ _ _ _ _ _ Hf) as (p' & rest & Hp' & -> & ->).
  cbv zeta in Hp. rewrite Hp in Hp'. injection Hp' as <-.
  destruct (update_counters st) as (_ & ->).
  destruct (set_frame_statics_marks
              (if reports (update_animation_state st)
               then current_pentacube (update_animation_state st)
               else last_logged_pentacube (update_animation_state st))
              (debug_frame_count st) (update_animation_state st)) as (-> & _).
  repeat split.
Qed.

Lemma renderers_run_the_same_state_machine_witness :
  exists culled fallback out_culled out_fallback,
    Culled.draw_pentacube_frame cos_at_0 sin_at_0 255 (replicate 29 cube)
      zeroed_edge_set initial_state = Ok (culled, out_culled)
    /\ Fallback.draw_pentacube_frame cos_at_0 sin_at_0 255 (replicate 29 cube)
         initial_state = Ok (fallback, out_fallback)
    /\ take 2 out_culled = take 2 out_fallback.
Proof.
  destruct (Culled.draw_pentacube_frame cos_at_0 sin_at_0 255 (replicate 29 cube)
              zeroed_edge_set initial_state) as [[s1 o1]|] eqn:Ec;
    [|vm_compute in Ec; discriminate Ec].
  destruct (Fallback.draw_pentacube_frame cos_at_0 sin_at_0 255 (replicate 29 cube)
              initial_state) as [[s2 o2]|] eqn:Ef;
    [|vm_compute in Ef; discriminate Ef].
  exists s1, s2, o1, o2. split; [reflexivity|]. split; [reflexivity|].
  now destruct (renderers_run_the_same_state_machine _ _ _ _ _ _ _ _ _ _ Ec Ef)
    as (_ & _ & H).
Defined.

(** ** Vertex indices of the faces *)

Lemma transform_loop_length cosf sinf st verts angles n rv sc :
  for_loop n (transform_vertex cosf sinf st verts angles) ([], []) = Ok (rv, sc) ->
  Z.of_nat (length rv) = 3 * Z.max 0 n /\ Z.of_nat (length sc) = 2 * Z.max 0 n.
Proof.
  intros H.
  apply (for_loop_counted
           (fun i (a : list F32.t * list Z) =>
              Z.of_nat (length a.1) = 3 * i /\ Z.of_nat (length a.2) = 2 * i)
           (transform_vertex cosf sinf st verts angles) n) in H.
  - exact H.
  - intros i [r s] s' Hi (Hr & Hs) Hb. cbn [fst snd] in *.
    unfold transform_vertex in Hb. destruct angles as [[ax ay] az].
    step_exec Hb. destruct a as [[vx vy] vz].
    destruct (rotate_point cosf sinf vx vy vz ax ay az) as [[rx ry] rz].
    step_exec Hb. destruct a as [sx sy]. injection Hb as <-.
    cbn [fst snd]. rewrite !length_app. cbn [length]. lia.
  - cbn. lia.
Qed.

Lemma for_loop_first_fault {T : Type} (body : Z -> T -> exec T) n acc f :
  0 < n -> body 0 acc = Undef f -> for_loop n body acc = Undef f.
Proof.
  intros Hn H. unfold for_loop. rewrite seqZ_cons by lia.
  cbn [iterate]. rewrite H. reflexivity.
Qed.

(** X21. The culling renderer does not check the vertex indices of a face. The
    vertex loop fills two screen coordinates per vertex; a face whose first
    index is negative or at least the vertex count then reads
    [screen_coords] outside the block, and the frame has no defined
    behaviour: no report is printed and nothing is skipped. *)
Theorem culled_face_index_is_not_checked cosf sinf (LV_OPA_COVER : Z)
    (pentacube_data : list pentacube_data_t) (fresh_edge_set : list edge_t)
    (st : render_state) (p : pentacube_data_t) (o : Z)
    (rotated_verts : list F32.t) (screen_coords : list Z)
    (face_vert_count v0_idx v1_idx v2_idx : Z) (rest : list Z) :
  let st1 := update_animation_state st in
  read ArrPentacubeData pentacube_data (current_pentacube st1) = Ok p ->
  Culled.frame_opacity LV_OPA_COVER st1 = Ok o ->
  for_loop (vertex_count p)
    (transform_vertex cosf sinf st1 (vertices p) (axis_angles st1)) ([], [])
  = Ok (rotated_verts, screen_coords) ->
  0 < face_count p ->
  face_vertex_counts p !! 0%nat = Some face_vert_count ->
  face_vertices p = v0_idx :: v1_idx :: v2_idx :: rest ->
  v0_idx < 0 \/ vertex_count p <= v0_idx ->
  Z.of_nat (length screen_coords) = 2 * Z.max 0 (vertex_count p)
  /\ Culled.draw_pentacube_frame cosf sinf LV_OPA_COVER pentacube_data
       fresh_edge_set st
     = Undef (OutOfBounds ArrScreenCoords (v0_idx * 2)).
Proof.
  cbv zeta. intros Hp Ho Hv Hn Hc Hf Hbad.
  destruct (transform_loop_length _ _ _ _ _ _ _ _ Hv) as (_ & Hlen).
  split; [exact Hlen|].
  unfold Culled.draw_pentacube_frame. cbv zeta.
  remember (update_animation_state st) as st1 eqn:Est1.
  rewrite Hp. cbn [mbind exec_bind]. rewrite Ho. cbn [mbind exec_bind].
  rewrite Hv. cbn [mbind exec_bind].
  rewrite for_loop_first_fault
    with (f := OutOfBounds ArrScreenCoords (v0_idx * 2));
    [reflexivity|exact Hn|].
  unfold Culled.process_face. cbn [face_vert_idx].
  rewrite (read_Some _ _ 0%nat _ Hc) by (unfold Int.max_signed; cbn; lia).
  cbn [mbind exec_bind]. unfold Culled.face_cross. rewrite Hf.
  change (read ArrFaceVertices (v0_idx :: v1_idx :: v2_idx :: rest) 0)
    with (Ok (A:=Z) v0_idx).
  change (read ArrFaceVertices (v0_idx :: v1_idx :: v2_idx :: rest) (0 + 1))
    with (Ok (A:=Z) v1_idx).
  change (read ArrFaceVertices (v0_idx :: v1_idx :: v2_idx :: rest) (0 + 2))
    with (Ok (A:=Z) v2_idx).
  cbn [mbind exec_bind].
  assert (Hr : read ArrScreenCoords screen_coords (v0_idx * 2)
               = Undef (OutOfBounds ArrScreenCoords (v0_idx * 2))).
  { unfold read.
    destruct ((0 <=? v0_idx * 2) && (v0_idx * 2 <=? Int.max_signed)) eqn:E;
      [|reflexivity].
    rewrite lookup_ge_None_2; [reflexivity|]. lia. }
  rewrite Hr. reflexivity.
Qed.

Lemma culled_face_index_is_not_checked_witness :
  Culled.draw_pentacube_frame cos_at_0 sin_at_0 255 (replicate 29 cube_bad_face)
    zeroed_edge_set initial_state
  = Undef (OutOfBounds ArrScreenCoords 16).
Proof.
  destruct (for_loop (vertex_count cube_bad_face)
              (transform_vertex cos_at_0 sin_at_0
                 (update_animation_state initial_state)
                 (vertices cube_bad_face)
                 (axis_angles (update_animation_state initial_state)))
              ([], [])) as [[rv sc]|] eqn:Ev;
    [|vm_compute in Ev; discriminate Ev].
  destruct (culled_face_index_is_not_checked cos_at_0 sin_at_0 255
              (replicate 29 cube_bad_face) zeroed_edge_set initial_state
              cube_bad_face 0 rv sc 4 8 3 2
              [1; 4; 5; 6; 7; 0; 1; 5; 4; 2; 3; 7; 6; 1; 2; 6; 5; 0; 4; 7; 3])
    as (_ & H).
  - vm_compute. reflexivity.
  - vm_compute. reflexivity.
  - exact Ev.
  - cbn. lia.
  - reflexivity.
  - reflexivity.
  - right. cbn. lia.
  - exact H.
Defined.

(** ** Rotation angles *)

Lemma flag_products_table : forallb flag_products_ok (seqZ 0 32) = true.
Proof. vm_compute. reflexivity. Qed.

Lemma flag_products f :
  0 <= f < 32 ->
  F32.mul (angle_of_frame f) (F32.of_int 1) = angle_of_frame f
  /\ F32.mul (angle_of_frame f) (F32.of_int 0) = F32.zero.
Proof.
  intros Hf. pose proof flag_products_table as Ht.
  rewrite forallb_forall in Ht.
  specialize (Ht f ltac:(apply list_elem_of_In, elem_of_seqZ; lia)).
  unfold flag_products_ok in Ht.
  destruct (F32.mul (angle_of_frame f) (F32.of_int 1)) as [[|]|[|]| |s1 m1 e1];
    destruct (F32.mul (angle_of_frame f) (F32.of_int 0)) as [[|]|[|]| |s0 m0 e0];
    destruct (angle_of_frame f) as [[|]|[|]| |s m e];
    try discriminate Ht; try (split; reflexivity).
  apply andb_true_iff in Ht. destruct Ht as [Ht He].
  apply andb_true_iff in Ht. destruct Ht as [Hs Hm].
  apply Bool.eqb_prop in Hs. apply Pos.eqb_eq in Hm. apply Z.eqb_eq in He.
  subst. split; reflexivity.
Qed.

(** X22. In a run, a frame rotates the mesh about the x axis, about the y axis,
    or about the x and the z axis, by the angle of the frame in each case:
    the angle about an axis is the frame angle where the flag is 1 and 0.0
    where it is 0, and the flags are (1, 0, 0), (0, 1, 0) or (1, 0, 1). The
    angle of frame 0 is 0.0. *)
Theorem axis_angles_follow_the_flags (st : render_state) :
  reachable st ->
  0 <= current_frame st < FRAME_COUNT ->
  let angle := frame_angle st in
  (axis_angles st = (angle, F32.zero, F32.zero)
   \/ axis_angles st = (F32.zero, angle, F32.zero)
   \/ axis_angles st = (angle, F32.zero, angle))
  /\ (current_frame st = 0 -> angle = F32.zero).
Proof.
  intros Hr Hf. cbv zeta.
  destruct (reachable_run st Hr) as (_ & _ & _ & _ & Ha).
  change (frame_angle st) with (angle_of_frame (current_frame st)).
  unfold FRAME_COUNT in Hf.
  destruct (flag_products (current_frame st) Hf) as (H1 & H0).
  split.
  - unfold axis_angles.
    change (frame_angle st) with (angle_of_frame (current_frame st)).
    destruct Ha as [-> | [-> | ->]]; rewrite ?H1, ?H0; auto.
  - intros ->. vm_compute. reflexivity.
Qed.

Lemma axis_angles_follow_the_flags_witness :
  axis_angles initial_state = (F32.zero, F32.zero, F32.zero).
Proof.
  destruct (axis_angles_follow_the_flags initial_state) as (_ & H).
  - apply reachable_initial.
  - unfold FRAME_COUNT. cbn. lia.
  - unfold axis_angles. rewrite (H eq_refl). reflexivity.
Defined.

(** ** The frame of the earlier renderer, continued *)

Lemma fallback_frame_steps cosf sinf opa db st st2 out :
  Fallback.draw_pentacube_frame cosf sinf opa db st = Ok (st2, out) ->
  exists p o drawn lines_drawn,
    let st1 := update_animation_state st in
    read ArrPentacubeData db (current_pentacube st1) = Ok p
    /\ for_loop (edge_count p)
         (Fallback.draw_edge cosf sinf st1 p (axis_angles st1) o) ([], 0)
       = Ok (drawn, lines_drawn)
    /\ out = [CanvasFillBg opa; LabelSetText (name p)]
             ++ drawn
             ++ (if reports st1
                 then [PrintPentacubeEdges (name p) (edge_count p) lines_drawn]
                 else []).
Proof.
  unfold Fallback.draw_pentacube_frame. intros H. cbv zeta in H |- *.
  unfold reports.
  remember (update_animation_state st) as st1 eqn:Est1.
  do 3 step_exec H. destruct a1 as [drawn lines_drawn].
  injection H as _ <-. exists a, a0, drawn, lines_drawn. auto.
Qed.

Lemma skip_count_app out1 out2 :
  skip_count (out1 ++ out2) = skip_count out1 + skip_count out2.
Proof. unfold skip_count. rewrite filter_app, length_app. lia. Qed.

(** Each turn of the edge loop emits one event, a line that it counts or
    the report of a skipped edge. *)
Lemma fallback_edge_loop_counts cosf sinf st p angles o drawn lines_drawn :
  Int.in_range (edge_count p) ->
  for_loop (edge_count p) (Fallback.draw_edge cosf sinf st p angles o) ([], 0)
  = Ok (drawn, lines_drawn) ->
  lines_drawn = line_count drawn
  /\ line_count drawn + skip_count drawn = Z.max 0 (edge_count p)
  /\ Forall (fun e => is_line e = true \/ is_skip e = true) drawn.
Proof.
  intros Hn H.
  apply (for_loop_counted
           (fun i (a : list event * Z) =>
              a.2 = line_count a.1
              /\ line_count a.1 + skip_count a.1 = i
              /\ Forall (fun e => is_line e = true \/ is_skip e = true) a.1)
           (Fallback.draw_edge cosf sinf st p angles o) (edge_count p)) in H.
  - exact H.
  - intros i [d k] s' Hi (Hk & Hsum & Hall) Hb. cbn [fst snd] in *.
    unfold Fallback.draw_edge in Hb. destruct angles as [[ax ay] az].
    do 2 step_exec Hb.
    assert (H0 : 0 <= line_count d)
      by (unfold line_count; lia).
    assert (H1 : 0 <= skip_count d)
      by (unfold skip_count; lia).
    unfold Int.in_range, Int.min_signed, Int.max_signed in Hn.
    destruct (Fallback.invalid_vertex_index a a0 (vertex_count p)).
    + injection Hb as <-. cbn [fst snd].
      rewrite line_count_app, skip_count_app.
      change (line_count [PrintInvalidVertex i a a0 (vertex_count p) (name p)])
        with 0.
      change (skip_count [PrintInvalidVertex i a a0 (vertex_count p) (name p)])
        with 1.
      split; [lia|]. split; [lia|].
      apply Forall_app_2; [exact Hall|].
      apply Forall_cons_2; [right; reflexivity|apply Forall_nil_2].
    + step_exec Hb. destruct a1 as [[x1 y1] z1].
      step_exec Hb. destruct a1 as [[x2 y2] z2].
      destruct (rotate_point cosf sinf x1 y1 z1 ax ay az) as [[rx1 ry1] rz1].
      destruct (rotate_point cosf sinf x2 y2 z2 ax ay az) as [[rx2 ry2] rz2].
      step_exec Hb. destruct a1 as [sx1 sy1].
      step_exec Hb. destruct a1 as [sx2 sy2].
      injection Hb as <-. cbn [fst snd].
      rewrite line_count_app, skip_count_app.
      change (line_count [CanvasDrawLine sx1 sy1 sx2 sy2 o]) with 1.
      change (skip_count [CanvasDrawLine sx1 sy1 sx2 sy2 o]) with 0.
      unfold Int.add.
      rewrite wrap_small
        by (unfold Int.in_range, Int.min_signed, Int.max_signed; lia).
      split; [lia|]. split; [lia|].
      apply Forall_app_2; [exact Hall|].
      apply Forall_cons_2; [left; reflexivity|apply Forall_nil_2].
  - cbn. repeat split. constructor.
Qed.

(** X23. In a frame of the earlier renderer every edge of the list gives one
    event: the lines and the reports of skipped edges add up to the edge
    count. The Drawn figure of its PENTACUBE line is the number of lines of
    the frame, and the line names the current mesh and its edge count. *)
Theorem fallback_draws_or_reports_every_edge cosf sinf (LV_OPA_COVER : Z)
    (pentacube_data : list pentacube_data_t)
    (st st2 : render_state) (out : list event) (p : pentacube_data_t) :
  read ArrPentacubeData pentacube_data
    (current_pentacube (update_animation_state st)) = Ok p ->
  Int.in_range (edge_count p) ->
  Fallback.draw_pentacube_frame cosf sinf LV_OPA_COVER pentacube_data st
  = Ok (st2, out) ->
  line_count out + skip_count out = Z.max 0 (edge_count p)
  /\ forall shape edges_total drawn,
       PrintPentacubeEdges shape edges_total drawn ∈ out ->
       shape = name p /\ edges_total = edge_count p /\ drawn = line_count out.
Proof.
  intros Hp Hn Hf.
  destruct (fallback_frame_steps _ _ _ _ _ _ _ Hf)
    as (p' & o & drawn & ld & Hp' & Hloop & ->).
  cbv zeta in Hp', Hloop. rewrite Hp in Hp'. injection Hp' as <-.
  destruct (fallback_edge_loop_counts _ _ _ _ _ _ _ _ Hn Hloop)
    as (Hld & Hsum & Hall).
  assert (Hlc : line_count
                  ([CanvasFillBg LV_OPA_COVER; LabelSetText (name p)] ++ drawn ++
                   (if reports (update_animation_state st)
                    then [PrintPentacubeEdges (name p) (edge_count p) ld]
                    else []))
                = line_count drawn).
  { rewrite !line_count_app.
    change (line_count [CanvasFillBg LV_OPA_COVER; LabelSetText (name p)]) with 0.
    destruct (reports _);
      [change (line_count [PrintPentacubeEdges (name p) (edge_count p) ld]) with 0
      |change (line_count []) with 0]; lia. }
  assert (Hsc : skip_count
                  ([CanvasFillBg LV_OPA_COVER; LabelSetText (name p)] ++ drawn ++
                   (if reports (update_animation_state st)
                    then [PrintPentacubeEdges (name p) (edge_count p) ld]
                    else []))
                = skip_count drawn).
  { rewrite !skip_count_app.
    change (skip_count [CanvasFillBg LV_OPA_COVER; LabelSetText (name p)]) with 0.
    destruct (reports _);
      [change (skip_count [PrintPentacubeEdges (name p) (edge_count p) ld]) with 0
      |change (skip_count []) with 0]; lia. }
  rewrite Hlc, Hsc. split; [exact Hsum|].
  intros shape et dr Hin.
  apply elem_of_app in Hin. destruct Hin as [Hin|Hin].
  { apply list_elem_of_In in Hin. cbn in Hin.
    destruct Hin as [Hin|[Hin|[]]]; discriminate Hin. }
  apply elem_of_app in Hin. destruct Hin as [Hin|Hin].
  { rewrite Forall_forall in Hall. destruct (Hall _ Hin) as [H|H]; discriminate H. }
  destruct (reports _); [|inversion Hin].
  apply list_elem_of_singleton in Hin. injection Hin as -> -> ->. auto.
Qed.

Lemma fallback_draws_or_reports_every_edge_witness :
  exists st2 out,
    Fallback.draw_pentacube_frame cos_at_0 sin_at_0 255
      (replicate 29 cube_off_by_one) initial_state = Ok (st2, out)
    /\ line_count out + skip_count out = 3.
Proof.
  destruct (Fallback.draw_pentacube_frame cos_at_0 sin_at_0 255
              (replicate 29 cube_off_by_one) initial_state)
    as [[st2 out]|] eqn:Ef; [|vm_compute in Ef; discriminate Ef].
  exists st2, out. split; [reflexivity|].
  assert (Hp : read ArrPentacubeData (replicate 29 cube_off_by_one)
                 (current_pentacube (update_animation_state initial_state))
               = Ok cube_off_by_one) by (vm_compute; reflexivity).
  assert (Hn : Int.in_range (edge_count cube_off_by_one))
    by (unfold Int.in_range, Int.min_signed, Int.max_signed; cbn; lia).
  destruct (fallback_draws_or_reports_every_edge cos_at_0 sin_at_0 255
              (replicate 29 cube_off_by_one) initial_state st2 out
              cube_off_by_one Hp Hn Ef) as (H & _).
  exact H.
Defined.

(** ** Projection *)

Section RoundingSign.

Variables prec emax : Z.

(** Rounding keeps the sign it is given. *)
Lemma binary_round_aux_sign mx ex lx :
  0 <= mx -> non_negative (binary_round_aux prec emax false mx ex lx).
Proof.
  intros Hm. unfold binary_round_aux.
  pose proof (shr_fexp_nonneg prec emax mx ex lx Hm) as H1.
  destruct (shr_fexp prec emax mx ex lx) as [mrs' e']. cbn [fst] in H1.
  pose proof (shr_fexp_nonneg prec emax _ e' loc_Exact
                (round_nearest_even_nonneg _ (loc_of_shr_record mrs') H1)) as H2.
  destruct (shr_fexp prec emax _ e' loc_Exact) as [mrs'' e'']. cbn [fst] in H2.
  destruct (shr_m mrs''); [exact I| |lia].
  destruct (e'' <=? emax - prec); exact I.
Qed.

Lemma SFdiv_core_binary_nonneg m1 e1 m2 e2 :
  0 <= (SFdiv_core_binary prec emax (Zpos m1) e1 (Zpos m2) e2).1.1.
Proof.
  unfold SFdiv_core_binary.
  set (s := e1 - e2 - _).
  set (m' := match s with Z0 => _ | Zpos _ => _ | Zneg _ => _ end).
  assert (Hm : 0 <= m').
  { subst m'. destruct s; [lia| |lia]. apply Z.shiftl_nonneg. lia. }
  pose proof (Z.div_pos m' (Zpos m2) Hm ltac:(lia)) as Hq.
  unfold Z.div in Hq. destruct (Z.div_eucl m' (Zpos m2)) as [q r]. exact Hq.
Qed.

Lemma SFdiv_positive_sign m1 e1 y :
  non_negative y -> y <> S754_zero false ->
  non_negative (SFdiv prec emax (S754_finite false m1 e1) y).
Proof.
  intros Hy Hz. destruct y as [[|]|[|]| |[|] m2 e2]; try contradiction;
    try congruence; try exact I.
  cbn [SFdiv xorb].
  pose proof (SFdiv_core_binary_nonneg m1 e1 m2 e2) as Hq.
  destruct (SFdiv_core_binary prec emax (Zpos m1) e1 (Zpos m2) e2) as [[mz ez] lz].
  cbn [fst] in Hq. now apply binary_round_aux_sign.
Qed.

End RoundingSign.

Lemma non_negative_number x :
  non_negative x -> F32.is_nan x = false /\ F32.le F32.zero x = true.
Proof. destruct x as [[|]|[|]| |[|] m e]; cbn; try contradiction; auto. Qed.

(** Above 0.1 a number is positive. *)
Lemma above_tenth_positive x :
  x <> S754_nan -> F32.le x f_0_1 = false ->
  non_negative x /\ x <> S754_zero false.
Proof.
  intros Hx Hle. unfold F32.le, SFleb, f_0_1 in Hle.
  destruct x as [[|]|[|]| |[|] m e]; try congruence;
    cbn [SFcompare] in Hle; try discriminate Hle;
    (split; [exact I|discriminate]).
Qed.

(** X24. [project_point] never divides by zero or by a negative depth: whenever
    the depth of the point plus the depth of the mesh is a number, the
    scale factor is a number and is not negative. For a perspective depth of
    at most 0.1 the divisor is 0.1 and the scale is exactly 8000.0. The screen
    position is the centre plus the truncated scaled coordinates, x being
    moved by the lateral offset. *)
Theorem projection_scale_is_not_negative (st : render_state) (x y z : F32.t) :
  project_point st x y z
  = (sx ← F32.to_int
            (F32.add (x_offset st)
               (F32.mul (F32.mul x (F32.of_int BASE_SIZE)) (perspective_scale st z)));
     sy ← F32.to_int
            (F32.mul (F32.mul y (F32.of_int BASE_SIZE)) (perspective_scale st z));
     Ok (Int.add CENTER_X sx, Int.add CENTER_Y sy))
  /\ (F32.is_nan (F32.add z (z_position st)) = false ->
      F32.is_nan (perspective_scale st z) = false
      /\ F32.le F32.zero (perspective_scale st z) = true)
  /\ (F32.le (F32.add (F32.add z (z_position st))
                (F32.of_int PERSPECTIVE_DISTANCE)) f_0_1 = true ->
      perspective_scale st z = F32.of_int 8000).
Proof.
  split; [reflexivity|]. split.
  - intros Hn. apply is_nan_false in Hn. apply non_negative_number.
    unfold perspective_scale.
    set (pz := F32.add (F32.add z (z_position st)) (F32.of_int PERSPECTIVE_DISTANCE)).
    assert (Hpz : pz <> S754_nan).
    { subst pz.
      change (F32.of_int PERSPECTIVE_DISTANCE) with (S754_finite false 13107200 (-14)).
      now apply SFadd_finite_not_nan. }
    change (F32.of_int PERSPECTIVE_DISTANCE) with (S754_finite false 13107200 (-14)).
    destruct (F32.le pz f_0_1) eqn:Ele.
    + vm_compute. exact I.
    + destruct (above_tenth_positive pz Hpz Ele) as (Hpos & Hnz).
      now apply SFdiv_positive_sign.
  - intros Hle. unfold perspective_scale. rewrite Hle. reflexivity.
Qed.

(** ** Depth, continued *)

Section ProductSign.

Variables prec emax : Z.

Lemma SFdiv_by_positive_sign x m e :
  non_negative x -> non_negative (SFdiv prec emax x (S754_finite false m e)).
Proof.
  intros Hx. destruct x as [[|]|[|]| |[|] mx ex]; try contradiction;
    try exact I.
  apply SFdiv_positive_sign; [exact I|discriminate].
Qed.

Lemma SFmul_square_sign x :
  non_negative x -> non_negative (SFmul prec emax x x).
Proof.
  intros Hx. destruct x as [[|]|[|]| |[|] mx ex]; try contradiction;
    try exact I.
  cbn [SFmul xorb]. apply binary_round_aux_sign. lia.
Qed.

Lemma SFmul_by_positive_sign x m e :
  non_negative x -> non_negative (SFmul prec emax x (S754_finite false m e)).
Proof.
  intros Hx. destruct x as [[|]|[|]| |[|] mx ex]; try contradiction;
    try exact I.
  cbn [SFmul xorb]. apply binary_round_aux_sign. lia.
Qed.

End ProductSign.

Lemma abs_non_negative x : x <> S754_nan -> non_negative (F32.abs x).
Proof. destruct x as [[|]|[|]| |[|] m e]; cbn; congruence || auto. Qed.

Lemma depth_non_negative st :
  x_offset st <> S754_nan -> non_negative (z_position (depth st)).
Proof.
  intros Hx. unfold depth. cbn [z_position].
  change f_200 with (S754_finite false 13107200 (-16)).
  change f_15 with (S754_finite false 15728640 (-20)).
  apply SFmul_by_positive_sign, SFmul_square_sign, SFdiv_by_positive_sign.
  now apply abs_non_negative.
Qed.

(** X25. After a tick from a reachable state whose lateral offset is a number,
    the depth is a number and is not negative; it is computed from the
    offset that the same tick left: the square of |x_offset| / 15, times
    200. *)
Theorem depth_is_not_negative (st : render_state) :
  reachable st ->
  F32.is_nan (x_offset st) = false ->
  let st' := update_animation_state st in
  let norm_x := F32.div (F32.abs (x_offset st')) f_15 in
  z_position st' = F32.mul (F32.mul norm_x norm_x) f_200
  /\ F32.is_nan (z_position st') = false
  /\ F32.le F32.zero (z_position st') = true.
Proof.
  intros Hr Hx. cbv zeta. apply is_nan_false in Hx.
  destruct (reachable_invariants st Hr) as (Hd & _).
  destruct (update_shape st) as (_ & _ & -> & _).
  destruct (update_lateral st) as (-> & _).
  destruct (direction_reversal_fields st) as (Ex1 & _).
  destruct (lateral_offset_spec (direction_reversal st))
    as (_ & _ & Hn & _).
  { now rewrite Ex1. }
  { now apply unit_direction_reversal. }
  split; [reflexivity|].
  apply non_negative_number, depth_non_negative. exact Hn.
Qed.

Lemma depth_is_not_negative_witness :
  F32.le F32.zero (z_position (update_animation_state initial_state)) = true.
Proof.
  destruct (depth_is_not_negative initial_state) as (_ & _ & H).
  - apply reachable_initial.
  - reflexivity.
  - exact H.
Defined.

(** ** Faults of a frame *)

Lemma read_fault {A : Type} (a : array_id) (l : list A) (i : Z) f :
  read a l i = Undef f -> f = OutOfBounds a i.
Proof.
  unfold read. destruct (_ && _); [destruct (l !! Z.to_nat i)|];
    intros H; congruence.
Qed.

Lemma to_int_fault x f : F32.to_int x = Undef f -> f = FloatToInt x.
Proof.
  unfold F32.to_int. destruct (F32.trunc x); [destruct (_ && _)|];
    intros H; congruence.
Qed.

Lemma to_uint8_fault x f : F32.to_uint8 x = Undef f -> f = FloatToInt x.
Proof.
  unfold F32.to_uint8. destruct (F32.trunc x); [destruct (_ && _)|];
    intros H; congruence.
Qed.

Lemma for_loop_fault {T : Type} (P : Z -> T -> Prop) (Q : fault -> Prop)
    (body : Z -> T -> exec T) (n : Z) :
  (forall i s s', 0 <= i < n -> P i s -> body i s = Ok s' -> P (i + 1) s') ->
  (forall i s f, 0 <= i < n -> P i s -> body i s = Undef f -> Q f) ->
  forall acc f, P 0 acc -> for_loop n body acc = Undef f -> Q f.
Proof.
  intros Hok Hbad acc f Hacc H.
  destruct (Z.le_gt_cases n 0) as [Hn|Hn].
  { rewrite for_loop_nonpos in H by exact Hn. discriminate H. }
  unfold for_loop in H.
  assert (Hgen : forall (k : nat) (j : Z) a,
             0 <= j -> j + Z.of_nat k <= n -> P j a ->
             iterate body (seqZ j (Z.of_nat k)) a = Undef f -> Q f).
  { induction k as [|k IH]; intros j a Hj Hjk Ha Hit.
    - discriminate Hit.
    - rewrite seqZ_cons in Hit by lia. cbn [iterate] in Hit.
      destruct (body j a) as [s|g] eqn:E; cbn [mbind exec_bind] in Hit.
      + replace (Z.pred (Z.of_nat (S k))) with (Z.of_nat k) in Hit by lia.
        apply (IH (Z.succ j) s); [lia|lia| |exact Hit].
        replace (Z.succ j) with (j + 1) by lia.
        apply (Hok j a s); [lia|exact Ha|exact E].
      + injection Hit as ->. apply (Hbad j a f); [lia|exact Ha|exact E]. }
  apply (Hgen (Z.to_nat n) 0 acc); [lia|lia|exact Hacc|].
  rewrite Z2Nat.id by lia. exact H.
Qed.

(** The fault of a sequence of reads and conversions is none of the edge
    set. *)
Ltac solve_fault H :=
  repeat match type of H with
         | context [match ?v with pair _ _ => _ end] => destruct v
         end;
  lazymatch type of H with
  | Ok _ = Undef _ => discriminate H
  | read _ _ _ = Undef _ => apply read_fault in H; subst; reflexivity
  | F32.to_int _ = Undef _ => apply to_int_fault in H; subst; reflexivity
  | F32.to_uint8 _ = Undef _ => apply to_uint8_fault in H; subst; reflexivity
  | mbind _ ?m = Undef _ =>
      let E := fresh "E" in
      destruct m eqn:E; cbn [mbind exec_bind] in H;
      [solve_fault H|injection H as <-; solve_fault E]
  end.

Lemma transform_vertex_fault cosf sinf st verts angles i acc f :
  transform_vertex cosf sinf st verts angles i acc = Undef f ->
  edge_set_fault f = false.
Proof.
  unfold transform_vertex. destruct acc as [rv sc].
  destruct angles as [[ax ay] az]. unfold centred_vertex, project_point.
  intros H. solve_fault H.
Qed.

Lemma add_face_edge_fault p fvi fvc i es c f :
  set_ok es c ->
  Culled.add_face_edge p fvi fvc i (es, c) = Undef f ->
  edge_set_fault f = false.
Proof.
  intros Hok. unfold Culled.add_face_edge. intros H.
  destruct (read ArrFaceVertices (face_vertices p) (fvi + i)) as [va|g] eqn:Ea;
    cbn [mbind exec_bind] in H; [|injection H as <-; solve_fault Ea].
  destruct (read ArrFaceVertices (face_vertices p) (fvi + Int.rem (i + 1) fvc))
    as [vb|g] eqn:Eb;
    cbn [mbind exec_bind] in H; [|injection H as <-; solve_fault Eb].
  destruct (add_edge_to_set_spec es c va vb Hok) as (es' & c' & Hadd & _).
  rewrite Hadd in H. discriminate H.
Qed.

Lemma add_face_edge_step p fvi fvc i acc r :
  set_ok acc.1 acc.2 ->
  Culled.add_face_edge p fvi fvc i acc = Ok r -> set_ok r.1 r.2.
Proof.
  destruct acc as [es c]. cbn [fst snd]. intros Hok.
  unfold Culled.add_face_edge. intros H.
  do 2 step_exec H.
  destruct (add_edge_to_set_spec es c a a0 Hok) as (es' & c' & Hadd & Hok' & _).
  rewrite Hadd in H. cbn [mbind exec_bind] in H. injection H as <-. exact Hok'.
Qed.

Lemma process_face_fault p sc dbg i acc f :
  set_ok (visible_edges acc) (visible_edge_count acc) ->
  Culled.process_face p sc dbg i acc = Undef f ->
  edge_set_fault f = false.
Proof.
  intros Hok. unfold Culled.process_face. intros H.
  destruct (read ArrFaceVertexCounts (face_vertex_counts p) i) as [a|g] eqn:En;
    cbn [mbind exec_bind] in H; [|injection H as <-; solve_fault En].
  destruct (Culled.face_cross p sc (face_vert_idx acc))
    as [[[vis cross] [[v0 v1] v2]]|g] eqn:Ec; cbn [mbind exec_bind] in H.
  - destruct vis.
    + destruct (for_loop a _ _) as [[es cnt]|g] eqn:El;
        cbn [mbind exec_bind] in H; [discriminate H|].
      injection H as <-.
      apply (for_loop_fault
               (fun _ (s : list edge_t * Z) => set_ok s.1 s.2)
               (fun f => edge_set_fault f = false)) in El.
      * exact El.
      * intros j s s' _ Hs Hb. exact (add_face_edge_step _ _ _ _ _ _ Hs Hb).
      * intros j [es c] g' _ Hs Hb. exact (add_face_edge_fault _ _ _ _ _ _ _ Hs Hb).
      * exact Hok.
    + discriminate H.
  - injection H as <-. unfold Culled.face_cross in Ec. solve_fault Ec.
Qed.

Lemma draw_edge_fault sc es o i acc f :
  Z.of_nat (length es) = MAX_EDGE_SET ->
  0 <= i < MAX_EDGE_SET ->
  Culled.draw_edge sc es o i acc = Undef f ->
  edge_set_fault f = false.
Proof.
  intros Hl Hi. unfold Culled.draw_edge. destruct acc as [drawn k]. intros H.
  unfold MAX_EDGE_SET in *.
  destruct (lookup_lt_is_Some_2 es (Z.to_nat i) ltac:(lia)) as [e He].
  rewrite <- (Z2Nat.id i) in H at 1 by lia.
  rewrite (read_Some _ _ _ _ He) in H by (unfold Int.max_signed; lia).
  cbn [mbind exec_bind] in H. solve_fault H.
Qed.

Lemma process_face_set_ok p sc dbg i acc r :
  set_ok (visible_edges acc) (visible_edge_count acc) ->
  Culled.process_face p sc dbg i acc = Ok r ->
  set_ok (visible_edges r) (visible_edge_count r).
Proof.
  intros Hok. unfold Culled.process_face. intros Hb.
  step_exec Hb.
  destruct (Culled.face_cross p sc (face_vert_idx acc))
    as [[[vis cross] [[v0 v1] v2]]|]; cbn [mbind exec_bind] in Hb;
    [|discriminate Hb].
  step_exec Hb. destruct a0 as [es cnt]. injection Hb as <-.
  cbn [visible_edges visible_edge_count].
  destruct vis.
  - apply add_face_edge_set_ok in E0; [exact E0|exact Hok].
  - injection E0 as <- <-. exact Hok.
Qed.

(** X26. A frame of the culling renderer never reads or writes outside the
    block of the visible edge set, whatever the mesh: when a frame has no
    defined behaviour, the fault is an access outside another array or a
    conversion of a float that does not fit, never an access outside the
    edge set. *)
Theorem edge_set_is_never_accessed_out_of_bounds cosf sinf (LV_OPA_COVER : Z)
    (pentacube_data : list pentacube_data_t) (fresh_edge_set : list edge_t)
    (st : render_state) (f : fault) :
  Z.of_nat (length fresh_edge_set) = MAX_EDGE_SET ->
  Culled.draw_pentacube_frame cosf sinf LV_OPA_COVER pentacube_data
    fresh_edge_set st = Undef f ->
  edge_set_fault f = false /\ forall i, f <> OutOfBounds ArrEdgeSet i.
Proof.
  intros Hl. unfold Culled.draw_pentacube_frame. intros H. cbv zeta in H.
  assert (Hf : edge_set_fault f = false);
    [|split; [exact Hf|intros i ->; discriminate Hf]].
  remember (update_animation_state st) as st1 eqn:Est1.
  destruct (read ArrPentacubeData pentacube_data (current_pentacube st1))
    as [p|g] eqn:Ep; cbn [mbind exec_bind] in H;
    [|injection H as <-; solve_fault Ep].
  destruct (Culled.frame_opacity LV_OPA_COVER st1) as [o|g] eqn:Eo;
    cbn [mbind exec_bind] in H;
    [|injection H as <-; unfold Culled.frame_opacity in Eo; solve_fault Eo].
  destruct (for_loop (vertex_count p) _ _) as [[rv sc]|g] eqn:Ev;
    cbn [mbind exec_bind] in H.
  2:{ injection H as <-.
      apply (for_loop_fault (fun _ _ => True)
               (fun f => edge_set_fault f = false)) in Ev; auto.
      intros i s g' _ _ Hb. exact (transform_vertex_fault _ _ _ _ _ _ _ _ Hb). }
  destruct (for_loop (face_count p) _ _) as [faces|g] eqn:Efaces;
    cbn [mbind exec_bind] in H.
  2:{ injection H as <-.
      apply (for_loop_fault
               (fun _ a => set_ok (visible_edges a) (visible_edge_count a))
               (fun f => edge_set_fault f = false)) in Efaces.
      - exact Efaces.
      - intros i s s' _ Hs Hb. exact (process_face_set_ok _ _ _ _ _ _ Hs Hb).
      - intros i s g' _ Hs Hb. exact (process_face_fault _ _ _ _ _ _ Hs Hb).
      - apply no_faces_set_ok. exact Hl. }
  pose proof (culled_face_loop_set_ok _ _ _ _ _ _ (no_faces_set_ok _ Hl) Efaces)
    as [Hlen Hc].
  destruct (for_loop (visible_edge_count faces) _ _) as [[drawn ld]|g] eqn:Ed;
    cbn [mbind exec_bind] in H; [discriminate H|].
  injection H as <-.
  apply (for_loop_fault (fun _ _ => True)
           (fun f => edge_set_fault f = false)) in Ed; auto.
  intros i s g' Hi _ Hb.
  apply (draw_edge_fault sc (visible_edges faces) o i s g' Hlen ltac:(lia) Hb).
Qed.

Lemma edge_set_is_never_accessed_out_of_bounds_witness :
  exists f,
    Culled.draw_pentacube_frame cos_at_0 sin_at_0 255
      (replicate 29 cube_bad_face) zeroed_edge_set initial_state = Undef f
    /\ edge_set_fault f = false.
Proof.
  destruct (Culled.draw_pentacube_frame cos_at_0 sin_at_0 255
              (replicate 29 cube_bad_face) zeroed_edge_set initial_state)
    as [r|f] eqn:Ef; [vm_compute in Ef; discriminate Ef|].
  exists f. split; [reflexivity|].
  now destruct (edge_set_is_never_accessed_out_of_bounds cos_at_0 sin_at_0 255
                  (replicate 29 cube_bad_face) zeroed_edge_set initial_state f
                  eq_refl Ef) as (H & _).
Defined.

(** ** The lines of a frame *)

Lemma add_face_edge_distinct p fvi fvc n acc r :
  set_ok acc.1 acc.2 /\ NoDup (entries acc.1 acc.2) ->
  for_loop n (Culled.add_face_edge p fvi fvc) acc = Ok r ->
  set_ok r.1 r.2 /\ NoDup (entries r.1 r.2).
Proof.
  intros Hacc. unfold for_loop.
  apply (iterate_invariant
           (fun a => set_ok a.1 a.2 /\ NoDup (entries a.1 a.2))); [|exact Hacc].
  intros i [es c] s' [Hs Hnd] H. unfold Culled.add_face_edge in H.
  cbn [fst snd] in Hs, Hnd.
  step_exec H. step_exec H.
  destruct (add_edge_to_set_spec es c a a0 Hs)
    as (es' & c' & Hadd & Hok & _ & _ & Hent & _).
  rewrite Hadd in H. cbn [mbind exec_bind] in H. injection H as <-.
  cbn [fst snd]. split; [exact Hok|]. rewrite Hent. now apply add_entry_NoDup.
Qed.

Lemma culled_face_loop_distinct p sc dbg n fresh faces :
  Z.of_nat (length fresh) = MAX_EDGE_SET ->
  for_loop n (Culled.process_face p sc dbg) (no_faces fresh) = Ok faces ->
  set_ok (visible_edges faces) (visible_edge_count faces)
  /\ NoDup (entries (visible_edges faces) (visible_edge_count faces)).
Proof.
  intros Hl. unfold for_loop.
  apply (iterate_invariant
           (fun a => set_ok (visible_edges a) (visible_edge_count a)
                     /\ NoDup (entries (visible_edges a) (visible_edge_count a)))).
  - intros i s s' Hs Hb. unfold Culled.process_face in Hb.
    step_exec Hb.
    destruct (Culled.face_cross p sc (face_vert_idx s))
      as [[[vis cross] [[v0 v1] v2]]|]; cbn [mbind exec_bind] in Hb;
      [|discriminate Hb].
    step_exec Hb. destruct a0 as [es cnt]. injection Hb as <-.
    cbn [visible_edges visible_edge_count].
    destruct vis.
    + apply add_face_edge_distinct in E0; [exact E0|exact Hs].
    + injection E0 as <- <-. exact Hs.
  - split; [now apply no_faces_set_ok|]. apply NoDup_nil_2.
Qed.

Lemma read_total {A : Type} `{Inhabited A} (a : array_id) (l : list A) (i : Z) x :
  read a l i = Ok x -> x = l !!! Z.to_nat i.
Proof.
  intros Hr. destruct (read_inv _ _ _ _ Hr) as (_ & Hx).
  symmetry. now apply list_lookup_total_correct.
Qed.

(** The drawing loop emits the line of each entry, in the order of the
    entries. *)
Lemma culled_draw_loop_lines sc es o n drawn lines_drawn :
  for_loop n (Culled.draw_edge sc es o) ([], 0) = Ok (drawn, lines_drawn) ->
  drawn = edge_line sc o <$> entries es (Z.max 0 n).
Proof.
  intros H.
  apply (for_loop_counted
           (fun i (a : list event * Z) => a.1 = edge_line sc o <$> entries es i)
           (Culled.draw_edge sc es o) n) in H.
  - exact H.
  - intros i [d k] s' Hi Hd Hb. cbn [fst] in *.
    unfold Culled.draw_edge in Hb. do 5 step_exec Hb. injection Hb as <-.
    cbn [fst]. destruct (read_inv _ _ _ _ E) as (_ & He).
    apply read_total in E0, E1, E2, E3. subst.
    unfold entries. replace (Z.to_nat (i + 1)) with (S (Z.to_nat i)) by lia.
    rewrite (take_S_r _ _ _ He), !fmap_app. reflexivity.
  - reflexivity.
Qed.

Lemma lines_of_app out1 out2 : lines_of (out1 ++ out2) = lines_of out1 ++ lines_of out2.
Proof. apply filter_app. Qed.

Lemma lines_of_no_line out :
  Forall (fun e => is_line e = false) out -> lines_of out = [].
Proof.
  intros H. apply filter_none.
  eapply Forall_impl; [exact H|]. intros e He. cbv beta. congruence.
Qed.

Lemma lines_of_lines out :
  Forall (fun e => is_line e = true) out -> lines_of out = out.
Proof. apply filter_all. Qed.

Lemma culled_frame_loops cosf sinf opa db fresh st st2 out :
  Culled.draw_pentacube_frame cosf sinf opa db fresh st = Ok (st2, out) ->
  exists p o rv sc faces drawn lines_drawn l1 l2 l3 l4,
    let st1 := update_animation_state st in
    read ArrPentacubeData db (current_pentacube st1) = Ok p
    /\ Culled.frame_opacity opa st1 = Ok o
    /\ for_loop (vertex_count p)
         (transform_vertex cosf sinf st1 (vertices p) (axis_angles st1)) ([], [])
       = Ok (rv, sc)
    /\ for_loop (face_count p) (Culled.process_face p sc (should_debug st1))
         (no_faces fresh) = Ok faces
    /\ for_loop (visible_edge_count faces)
         (Culled.draw_edge sc (visible_edges faces) o) ([], 0)
       = Ok (drawn, lines_drawn)
    /\ out = l1 ++ l2 ++ face_log faces ++ l3 ++ drawn ++ l4
    /\ Forall (fun e => is_line e = false) (l1 ++ l2 ++ l3 ++ l4).
Proof.
  unfold Culled.draw_pentacube_frame. intros H. cbv zeta in H |- *.
  unfold should_debug, no_faces.
  remember (update_animation_state st) as st1 eqn:Est1.
  step_exec H. step_exec H. step_exec H. destruct a1 as [rv sc].
  step_exec H. step_exec H. destruct a2 as [drawn lines_drawn].
  injection H as _ <-.
  exists a, a0, rv, sc, a1, drawn, lines_drawn,
    [CanvasFillBg opa; LabelSetText (name a)],
    (if (Int.rem (debug_frame_count st1) 32 =? 0)
        && F32.gt (morphing_progress st1) f_0_9
     then [PrintDebugHeader (name a)] else []),
    (if (Int.rem (debug_frame_count st1) 32 =? 0)
        && F32.gt (morphing_progress st1) f_0_9
     then [PrintResult (visible_faces a1) (total_faces_checked a1)
             (visible_edge_count a1)]
     else []),
    (if F32.gt (morphing_progress st1) f_0_9
        && negb (current_pentacube st1 =? last_logged_pentacube st1)
     then [PrintPentacube (name a) (edge_count a) lines_drawn
             (visible_faces a1) (total_faces_checked a1)]
     else []).
  split; [reflexivity|]. split; [reflexivity|]. split; [exact E1|].
  split; [exact E2|]. split; [exact E3|]. split; [reflexivity|].
  no_line_events.
Qed.

(** X27. A frame of the culling renderer draws each visible edge once. The
    entries of the visible edge set that the face loop leaves are pairwise
    distinct, and the lines of the frame are, in order, one line per
    entry, joining the screen positions of its two vertices at the opacity
    of the frame; so an edge shared by two visible faces is drawn once, and
    a frame draws at most MAX_EDGE_SET (256) lines. *)
Theorem frame_draws_each_visible_edge_once cosf sinf (LV_OPA_COVER : Z)
    (pentacube_data : list pentacube_data_t) (fresh_edge_set : list edge_t)
    (st st2 : render_state) (out : list event) :
  Z.of_nat (length fresh_edge_set) = MAX_EDGE_SET ->
  Culled.draw_pentacube_frame cosf sinf LV_OPA_COVER pentacube_data
    fresh_edge_set st = Ok (st2, out) ->
  exists p o rotated_verts screen_coords faces,
    let st1 := update_animation_state st in
    read ArrPentacubeData pentacube_data (current_pentacube st1) = Ok p
    /\ Culled.frame_opacity LV_OPA_COVER st1 = Ok o
    /\ for_loop (vertex_count p)
         (transform_vertex cosf sinf st1 (vertices p) (axis_angles st1)) ([], [])
       = Ok (rotated_verts, screen_coords)
    /\ for_loop (face_count p)
         (Culled.process_face p screen_coords (should_debug st1))
         (no_faces fresh_edge_set) = Ok faces
    /\ NoDup (entries (visible_edges faces) (visible_edge_count faces))
    /\ lines_of out
       = edge_line screen_coords o
         <$> entries (visible_edges faces) (visible_edge_count faces)
    /\ 0 <= line_count out <= MAX_EDGE_SET.
Proof.
  intros Hl Hf.
  destruct (culled_frame_loops _ _ _ _ _ _ _ _ Hf)
    as (p & o & rv & sc & faces & drawn & ld & l1 & l2 & l3 & l4
        & Hp & Ho & Hv & Hfaces & Hdraw & -> & Hno).
  cbv zeta in Hp, Ho, Hv, Hfaces.
  exists p, o, rv, sc, faces. cbv zeta.
  destruct (culled_face_loop_distinct _ _ _ _ _ _ Hl Hfaces) as ([Hlen Hc] & Hnd).
  pose proof (culled_draw_loop_lines _ _ _ _ _ _ Hdraw) as Hlines.
  rewrite Z.max_r in Hlines by lia.
  destruct (culled_lines _ _ _ _ _ _ _ _ l1 l2 l3 l4 Hl Hfaces Hdraw Hno)
    as (_ & _ & Hcount).
  assert (Hlog : Forall (fun e => is_line e = false) (face_log faces)).
  { eapply culled_face_log_all; [| |exact Hfaces]; [reflexivity|constructor]. }
  destruct (culled_draw_loop sc (visible_edges faces) o (visible_edge_count faces)
              drawn ld ltac:(lia) Hdraw) as (_ & _ & Hall).
  apply Forall_app in Hno. destruct Hno as [H1 Hno].
  apply Forall_app in Hno. destruct Hno as [H2 Hno].
  apply Forall_app in Hno. destruct Hno as [H3 H4].
  repeat (split; [assumption|]).
  split.
  - rewrite !lines_of_app.
    rewrite (lines_of_no_line l1), (lines_of_no_line l2), (lines_of_no_line l3),
      (lines_of_no_line l4), (lines_of_no_line (face_log faces)),
      (lines_of_lines drawn) by assumption.
    rewrite app_nil_r. exact Hlines.
  - rewrite Hcount. exact Hc.
Qed.

Lemma frame_draws_each_visible_edge_once_witness :
  exists st2 out,
    Culled.draw_pentacube_frame cos_at_0 sin_at_0 255 (replicate 29 cube)
      zeroed_edge_set initial_state = Ok (st2, out)
    /\ 0 <= line_count out <= MAX_EDGE_SET.
Proof.
  destruct (Culled.draw_pentacube_frame cos_at_0 sin_at_0 255 (replicate 29 cube)
              zeroed_edge_set initial_state) as [[st2 out]|] eqn:Ef;
    [|vm_compute in Ef; discriminate Ef].
  exists st2, out. split; [reflexivity|].
  destruct (frame_draws_each_visible_edge_once cos_at_0 sin_at_0 255
              (replicate 29 cube) zeroed_edge_set initial_state st2 out
              eq_refl Ef) as (p & o & rv & sc & faces & H).
  cbv zeta in H. now destruct H as (_ & _ & _ & _ & _ & _ & H).
Defined.

(** ** A frame on a well-formed mesh *)

Lemma for_loop_total {T : Type} (P : Z -> T -> Prop) (body : Z -> T -> exec T)
    (n : Z) :
  (forall i s, 0 <= i < n -> P i s -> exists s', body i s = Ok s' /\ P (i + 1) s') ->
  forall acc, P 0 acc ->
  exists r, for_loop n body acc = Ok r /\ P (Z.max 0 n) r.
Proof.
  intros Hbody acc Hacc. destruct (Z.le_gt_cases n 0) as [Hn|Hn].
  { exists acc. rewrite for_loop_nonpos by exact Hn.
    split; [reflexivity|]. now rewrite Z.max_l by lia. }
  assert (Hgen : forall (k : nat) (j : Z) a,
             0 <= j -> j + Z.of_nat k <= n -> P j a ->
             exists r, iterate body (seqZ j (Z.of_nat k)) a = Ok r
                       /\ P (j + Z.of_nat k) r).
  { induction k as [|k IH]; intros j a Hj Hjk Ha.
    - exists a. split; [reflexivity|]. now rewrite Z.add_0_r.
    - destruct (Hbody j a ltac:(lia) Ha) as (s & Hs & Ps).
      destruct (IH (j + 1) s ltac:(lia) ltac:(lia) Ps) as (r & Hr & Pr).
      exists r. rewrite seqZ_cons by lia. cbn [iterate].
      rewrite Hs. cbn [mbind exec_bind].
      replace (Z.succ j) with (j + 1) by lia.
      replace (Z.pred (Z.of_nat (S k))) with (Z.of_nat k) by lia.
      split; [exact Hr|].
      replace (j + Z.of_nat (S k)) with (j + 1 + Z.of_nat k) by lia. exact Pr. }
  destruct (Hgen (Z.to_nat n) 0 acc ltac:(lia) ltac:(lia) Hacc) as (r & Hr & Pr).
  exists r. unfold for_loop. rewrite Z2Nat.id in Hr, Pr by lia.
  rewrite Z.max_r by lia. split; [exact Hr|exact Pr].
Qed.

Lemma read_at {A : Type} (a : array_id) (l : list A) (i : Z) (x : A) :
  0 <= i <= Int.max_signed -> l !! Z.to_nat i = Some x -> read a l i = Ok x.
Proof.
  intros Hi Hx. rewrite <- (Z2Nat.id i) at 1 by lia.
  apply read_Some; [exact Hx|lia].
Qed.

Lemma total_app l1 l2 : total (l1 ++ l2) = total l1 + total l2.
Proof.
  unfold total. induction l1 as [|x l1 IH]; cbn; [reflexivity|]. rewrite IH. lia.
Qed.

Lemma total_nonneg l : Forall (fun c => 3 <= c) l -> 0 <= total l.
Proof. unfold total. induction 1; cbn; lia. Qed.

Lemma total_length l :
  Forall (fun c => 3 <= c) l -> 3 * Z.of_nat (length l) <= total l.
Proof. unfold total. induction 1; cbn [foldr length]; lia. Qed.

(** The vertices of face [i] lie inside the index list. *)
Lemma face_span (counts : list Z) (i : nat) (c : Z) :
  Forall (fun c => 3 <= c) counts ->
  counts !! i = Some c ->
  3 <= c
  /\ 0 <= total (take i counts)
  /\ total (take (S i) counts) = total (take i counts) + c
  /\ total (take i counts) + c <= total counts.
Proof.
  intros Hall Hc.
  assert (H3 : 3 <= c) by (rewrite Forall_forall in Hall; apply Hall;
                           eapply list_elem_of_lookup_2; exact Hc).
  split; [exact H3|].
  split; [apply total_nonneg, Forall_take, Hall|].
  rewrite (take_S_r _ _ _ Hc), total_app.
  split; [cbn; lia|].
  rewrite <- (take_drop (S i) counts) at 2. rewrite total_app.
  rewrite (take_S_r _ _ _ Hc), total_app.
  pose proof (total_nonneg (drop (S i) counts) (Forall_drop _ _ _ Hall)).
  cbn. lia.
Qed.

Lemma read_vertex_index p (j : Z) :
  faces_ok p ->
  0 <= j < total (face_vertex_counts p) ->
  exists v, read ArrFaceVertices (face_vertices p) j = Ok v /\ vertex_index p v.
Proof.
  intros (_ & _ & Hlen & Hall & Hmax & _) Hj.
  destruct (lookup_lt_is_Some_2 (face_vertices p) (Z.to_nat j) ltac:(lia))
    as [v Hv].
  exists v. split.
  - rewrite <- (Z2Nat.id j) at 1 by lia. apply read_Some; [exact Hv|lia].
  - rewrite Forall_forall in Hall. apply Hall.
    eapply list_elem_of_lookup_2. exact Hv.
Qed.

Lemma read_screen_coords p (sc : list Z) (v : Z) :
  faces_ok p ->
  Z.of_nat (length sc) = 2 * Z.max 0 (vertex_count p) ->
  vertex_index p v ->
  (exists x, read ArrScreenCoords sc (v * 2) = Ok x)
  /\ (exists y, read ArrScreenCoords sc (v * 2 + 1) = Ok y).
Proof.
  intros (_ & _ & _ & _ & _ & Hmax) Hlen Hv. unfold vertex_index in Hv.
  split.
  - destruct (lookup_lt_is_Some_2 sc (Z.to_nat (v * 2)) ltac:(lia)) as [x Hx].
    exists x. rewrite <- (Z2Nat.id (v * 2)) at 1 by lia.
    apply read_Some; [exact Hx|lia].
  - destruct (lookup_lt_is_Some_2 sc (Z.to_nat (v * 2 + 1)) ltac:(lia)) as [y Hy].
    exists y. rewrite <- (Z2Nat.id (v * 2 + 1)) at 1 by lia.
    apply read_Some; [exact Hy|lia].
Qed.

Lemma add_entry_valid p l a b :
  Forall (valid_entry p) l -> vertex_index p a -> vertex_index p b ->
  Forall (valid_entry p) (add_entry l a b).
Proof.
  intros Hl Ha Hb. unfold add_entry. destruct (_ >=? _); [exact Hl|].
  destruct (bool_decide _); [exact Hl|].
  apply Forall_app_2; [exact Hl|]. apply Forall_cons_2; [|apply Forall_nil_2].
  unfold canonical. destruct (a >? b); split; assumption.
Qed.

(** The loop over the vertices of a visible face returns. *)
Lemma add_face_edges_total p (fvi c : Z) es n :
  faces_ok p ->
  3 <= c -> 0 <= fvi -> fvi + c <= total (face_vertex_counts p) ->
  set_ok es n /\ Forall (valid_entry p) (entries es n) ->
  exists r,
    for_loop c (Culled.add_face_edge p fvi c) (es, n) = Ok r
    /\ set_ok r.1 r.2 /\ Forall (valid_entry p) (entries r.1 r.2).
Proof.
  intros Hp Hc Hfvi Hspan Hacc.
  destruct (for_loop_total
              (fun _ (a : list edge_t * Z) =>
                 set_ok a.1 a.2 /\ Forall (valid_entry p) (entries a.1 a.2))
              (Culled.add_face_edge p fvi c) c) with (acc := (es, n))
    as (r & Hr & Pr); [|exact Hacc|exists r; split; [exact Hr|exact Pr]].
  intros i [es' n'] Hi [Hok Hval]. cbn [fst snd] in Hok, Hval.
  unfold Culled.add_face_edge.
  destruct (read_vertex_index p (fvi + i) Hp ltac:(lia)) as (va & -> & Hva).
  cbn [mbind exec_bind].
  assert (Hrem : 0 <= Int.rem (i + 1) c < c).
  { unfold Int.rem. apply Z.rem_bound_pos; lia. }
  destruct (read_vertex_index p (fvi + Int.rem (i + 1) c) Hp ltac:(lia))
    as (vb & -> & Hvb).
  cbn [mbind exec_bind].
  destruct (add_edge_to_set_spec es' n' va vb Hok)
    as (es2 & n2 & -> & Hok2 & _ & _ & Hent & _).
  cbn [mbind exec_bind]. eexists. split; [reflexivity|]. cbn [fst snd].
  split; [exact Hok2|]. rewrite Hent. now apply add_entry_valid.
Qed.

(** One turn of the face loop returns, at the face that the index of the
    accumulator points to. *)
Lemma process_face_total p sc dbg (i : Z) acc :
  faces_ok p ->
  Z.of_nat (length sc) = 2 * Z.max 0 (vertex_count p) ->
  0 <= i < face_count p ->
  face_vert_idx acc = total (take (Z.to_nat i) (face_vertex_counts p)) ->
  set_ok (visible_edges acc) (visible_edge_count acc)
  /\ Forall (valid_entry p) (entries (visible_edges acc) (visible_edge_count acc)) ->
  exists r,
    Culled.process_face p sc dbg i acc = Ok r
    /\ face_vert_idx r = total (take (Z.to_nat (i + 1)) (face_vertex_counts p))
    /\ set_ok (visible_edges r) (visible_edge_count r)
    /\ Forall (valid_entry p) (entries (visible_edges r) (visible_edge_count r)).
Proof.
  intros Hp Hsc Hi Hidx Hset.
  pose proof Hp as (Hlen & Hall & Hfv & _ & Hmax & _).
  destruct (lookup_lt_is_Some_2 (face_vertex_counts p) (Z.to_nat i) ltac:(lia))
    as [c Hc].
  destruct (face_span _ _ _ Hall Hc) as (Hc3 & H0 & Hnext & Hspan).
  pose proof (total_length _ Hall) as Htl.
  unfold Culled.process_face.
  rewrite (read_at _ _ i c); [|unfold Int.max_signed in *; lia|exact Hc].
  cbn [mbind exec_bind]. unfold Culled.face_cross.
  rewrite Hidx. set (fvi := total (take (Z.to_nat i) (face_vertex_counts p))) in *.
  destruct (read_vertex_index p fvi Hp ltac:(lia)) as (v0 & -> & Hv0).
  cbn [mbind exec_bind].
  destruct (read_vertex_index p (fvi + 1) Hp ltac:(lia)) as (v1 & -> & Hv1).
  cbn [mbind exec_bind].
  destruct (read_vertex_index p (fvi + 2) Hp ltac:(lia)) as (v2 & -> & Hv2).
  cbn [mbind exec_bind].
  destruct (read_screen_coords p sc v0 Hp Hsc Hv0) as ((x0 & ->) & (y0 & ->)).
  cbn [mbind exec_bind].
  destruct (read_screen_coords p sc v1 Hp Hsc Hv1) as ((x1 & ->) & (y1 & ->)).
  cbn [mbind exec_bind].
  destruct (read_screen_coords p sc v2 Hp Hsc Hv2) as ((x2 & ->) & (y2 & ->)).
  cbn [mbind exec_bind].
  destruct (is_face_visible_debug x0 y0 x1 y1 x2 y2) as [vis cross].
  cbn [mbind exec_bind].
  assert (Hadd : Int.add fvi c = total (take (Z.to_nat (i + 1)) (face_vertex_counts p))).
  { replace (Z.to_nat (i + 1)) with (S (Z.to_nat i)) by lia. rewrite Hnext.
    unfold Int.add. apply wrap_small.
    unfold Int.in_range, Int.min_signed, Int.max_signed in *. lia. }
  destruct vis.
  - destruct (add_face_edges_total p fvi c (visible_edges acc)
                (visible_edge_count acc) Hp Hc3 H0 Hspan Hset)
      as ([es n] & -> & Hok & Hval).
    cbn [mbind exec_bind]. eexists. split; [reflexivity|].
    cbn [face_vert_idx visible_edges visible_edge_count].
    split; [exact Hadd|]. split; assumption.
  - cbn [mbind exec_bind]. eexists. split; [reflexivity|].
    cbn [face_vert_idx visible_edges visible_edge_count].
    split; [exact Hadd|]. exact Hset.
Qed.

(** One turn of the drawing loop returns. *)
Lemma draw_edge_total p sc es n o (i : Z) acc :
  faces_ok p ->
  Z.of_nat (length sc) = 2 * Z.max 0 (vertex_count p) ->
  set_ok es n -> Forall (valid_entry p) (entries es n) ->
  0 <= i < n ->
  exists r, Culled.draw_edge sc es o i acc = Ok r.
Proof.
  intros Hp Hsc [Hlen Hn] Hval Hi. unfold MAX_EDGE_SET in *.
  destruct acc as [drawn k]. unfold Culled.draw_edge.
  destruct (lookup_lt_is_Some_2 es (Z.to_nat i) ltac:(lia)) as [e He].
  rewrite (read_at _ _ i e); [|unfold Int.max_signed; lia|exact He].
  cbn [mbind exec_bind].
  assert (Hin : (v1 e, v2 e) ∈ entries es n).
  { unfold entries. apply list_elem_of_fmap. exists e. split; [reflexivity|].
    apply (list_elem_of_lookup_2 _ (Z.to_nat i)).
    rewrite lookup_take_lt by lia. exact He. }
  rewrite Forall_forall in Hval. destruct (Hval _ Hin) as [H1 H2].
  cbn [fst snd] in H1, H2.
  destruct (read_screen_coords p sc (v1 e) Hp Hsc H1) as ((x1 & ->) & (y1 & ->)).
  cbn [mbind exec_bind].
  destruct (read_screen_coords p sc (v2 e) Hp Hsc H2) as ((x2 & ->) & (y2 & ->)).
  cbn [mbind exec_bind]. eexists. reflexivity.
Qed.

(** X28. On a mesh whose face list is well formed, a frame of the culling
    renderer whose vertex loop returns (every vertex is inside the vertex
    array and projects to an [int]) returns as well: the loops over the
    faces and over the visible edges read the face list, the screen
    coordinates and the edge set inside their bounds. *)
Theorem culled_frame_defined_on_well_formed_faces cosf sinf (LV_OPA_COVER : Z)
    (pentacube_data : list pentacube_data_t) (fresh_edge_set : list edge_t)
    (st : render_state) (p : pentacube_data_t) (o : Z)
    (rotated_verts : list F32.t) (screen_coords : list Z) :
  let st1 := update_animation_state st in
  Z.of_nat (length fresh_edge_set) = MAX_EDGE_SET ->
  read ArrPentacubeData pentacube_data (current_pentacube st1) = Ok p ->
  Culled.frame_opacity LV_OPA_COVER st1 = Ok o ->
  for_loop (vertex_count p)
    (transform_vertex cosf sinf st1 (vertices p) (axis_angles st1)) ([], [])
  = Ok (rotated_verts, screen_coords) ->
  faces_ok p ->
  exists st2 out,
    Culled.draw_pentacube_frame cosf sinf LV_OPA_COVER pentacube_data
      fresh_edge_set st = Ok (st2, out).
Proof.
  cbv zeta. intros Hl Hp Ho Hv Hfaces.
  unfold Culled.draw_pentacube_frame. cbv zeta.
  remember (update_animation_state st) as st1 eqn:Est1.
  destruct (transform_loop_length _ _ _ _ _ _ _ _ Hv) as (_ & Hsc).
  pose proof Hfaces as (Hlen & _).
  assert (Hn : 0 <= face_count p) by lia.
  rewrite Hp. cbn [mbind exec_bind]. rewrite Ho. cbn [mbind exec_bind].
  rewrite Hv. cbn [mbind exec_bind].
  match goal with
  | |- context [for_loop (face_count p) ?body ?init] =>
      destruct (for_loop_total
                  (fun i a =>
                     face_vert_idx a
                     = total (take (Z.to_nat i) (face_vertex_counts p))
                     /\ set_ok (visible_edges a) (visible_edge_count a)
                     /\ Forall (valid_entry p)
                          (entries (visible_edges a) (visible_edge_count a)))
                  body (face_count p)) with (acc := init)
        as (faces & Hloop & _ & Hok & Hval)
  end.
  { intros i s Hi (Hidx & Hset).
    destruct (process_face_total p screen_coords
                ((Int.rem (debug_frame_count st1) 32 =? 0)
                 && F32.gt (morphing_progress st1) f_0_9) i s Hfaces Hsc Hi
                Hidx Hset) as (r & Hr & H1 & H2 & H3).
    exists r. auto. }
  { split; [reflexivity|]. split; [exact (no_faces_set_ok _ Hl)|].
    apply Forall_nil_2. }
  rewrite Hloop. cbn [mbind exec_bind].
  destruct (for_loop_total
              (fun _ (_ : list event * Z) => True)
              (Culled.draw_edge screen_coords (visible_edges faces) o)
              (visible_edge_count faces)) with (acc := (@nil event, 0))
    as ([drawn ld] & Hdraw & _); [|exact I|].
  { intros i s Hi _.
    destruct (draw_edge_total p screen_coords (visible_edges faces)
                (visible_edge_count faces) o i s Hfaces Hsc Hok Hval Hi)
      as (r & Hr).
    exists r. auto. }
  rewrite Hdraw. cbn [mbind exec_bind]. eauto.
Qed.

Lemma culled_frame_defined_on_well_formed_faces_witness :
  exists st2 out,
    Culled.draw_pentacube_frame cos_at_0 sin_at_0 255 (replicate 29 cube)
      zeroed_edge_set initial_state = Ok (st2, out).
Proof.
  destruct (for_loop (vertex_count cube)
              (transform_vertex cos_at_0 sin_at_0
                 (update_animation_state initial_state) (vertices cube)
                 (axis_angles (update_animation_state initial_state)))
              ([], [])) as [[rv sc]|] eqn:Ev;
    [|vm_compute in Ev; discriminate Ev].
  apply (culled_frame_defined_on_well_formed_faces cos_at_0 sin_at_0 255
           (replicate 29 cube) zeroed_edge_set initial_state cube 0 rv sc).
  - reflexivity.
  - vm_compute. reflexivity.
  - vm_compute. reflexivity.
  - exact Ev.
  - unfold faces_ok, vertex_index, total, Int.max_signed. cbn.
    repeat split; try lia; repeat (apply Forall_cons_2; [lia|]);
      apply Forall_nil_2.
Defined.
